(** * Polyglot Key: model lifecycle manager and translation orchestration

  A shallow embedding of the TypeScript services
  [services/modelManager.ts], [services/mlService.ts],
  [services/languageDetectionService.ts] and
  [services/translationService.ts], with the properties their
  specification states about them.

  Conventions of the embedding.
  - JavaScript numbers that only ever hold integers (sizes in bytes,
    priorities, counters, dates in milliseconds) are [Z]; half-integer
    priorities are [Q]; confidences and model outputs are IEEE binary64
    values, [PrimFloat.float].
  - [undefined] is [None].
  - An [async] method is cut at its [await]s: the code between two
    suspension points is one function on the manager's state, and what
    the outside world answers (file system, clock, detectors, the
    tensor runtime) is an argument of that function.
  - A thrown error is the [Throw] case of [outcome].
  - A lookup in an object literal used as a table finds the literal's
    own keys and, for any other name, the members the literal inherits
    from [Object.prototype]; a definition that leaves the inherited
    members out says so.
  - A string is held as its UTF-8 encoding (a surrogate that stands
    alone as the three bytes of its code point); its [length], which
    JavaScript counts in UTF-16 code units, is computed from the
    encoding. *)

From Stdlib Require Import ZArith QArith Qround List String Ascii Bool Lia.
From Stdlib Require Import Sorting.Sorted Sorting.Permutation.
From Stdlib Require Import PrimFloat.
From Stdlib Require FloatAxioms SpecFloat.
From stdpp Require Import gmap strings list fin_maps.

Import ListNotations.
#[local] Set Warnings "-inexact-float".
Local Open Scope string_scope.
Local Open Scope list_scope.
Local Open Scope Z_scope.

(* ===================================================================== *)
(** ** JavaScript idioms shared by the services *)
(* ===================================================================== *)

Module Js.

(** [x || d] on an optional integer number: [undefined] and [0] are
    falsy. *)
Definition or_default (x : option Z) (d : Z) : Z :=
  match x with
  | Some v => if v =? 0 then d else v
  | None => d
  end.

(** Truthiness of an optional string: [undefined] and [''] are falsy. *)
Definition truthy_string (x : option string) : bool :=
  match x with
  | Some s => negb (String.eqb s "")
  | None => false
  end.

(** [Math.round] on a rational: the nearest integer, ties towards
    plus infinity. *)
Definition Math_round (q : Q) : Z := Qfloor (q + (1 # 2)).

(** [Array.prototype.find]. *)
Definition find {A} (p : A -> bool) (l : list A) : option A := List.find p l.

(** [Array.prototype.sort] with a comparator: ECMAScript requires the
    sort to be stable, so for a consistent comparator the result is the
    stable sort.  [after a b] holds when the comparator orders [a]
    strictly after [b] ([cmp(a, b) > 0]); an element is inserted in
    front of the first element that is not strictly before it. *)
Section Sort.
Context {A : Type} (after : A -> A -> bool).

Fixpoint sort_insert (a : A) (l : list A) : list A :=
  match l with
  | [] => [a]
  | b :: l' => if after a b then b :: sort_insert a l' else a :: l
  end.

Definition sort (l : list A) : list A := fold_right sort_insert [] l.
End Sort.

(** The members of [Object.prototype] (ECMAScript 20.1.3 and B.2.2):
    [table[name]] finds them in an object literal that has no key of
    that name.  Each of them is a function, or for [__proto__] the
    prototype object: truthy, and no number. *)
Definition Object_prototype : list string := [
  "constructor"; "hasOwnProperty"; "isPrototypeOf"; "propertyIsEnumerable";
  "toLocaleString"; "toString"; "valueOf"; "__proto__";
  "__defineGetter__"; "__defineSetter__"; "__lookupGetter__";
  "__lookupSetter__"
].

Definition inherited (name : string) : bool :=
  existsb (String.eqb name) Object_prototype.

(** A result or a thrown error. *)
Inductive outcome (E A : Type) : Type :=
| Ok (a : A)
| Throw (e : E).
Arguments Ok {E A} a.
Arguments Throw {E A} e.

End Js.

(* ===================================================================== *)
(** ** constants/modelConfigs.ts *)
(* ===================================================================== *)

Module Catalog.

Record ModelConfigItem := {
  id : string;
  name : string;
  description : string;
  url : string;
  version : string;
  size : Z;               (* in MB *)
  srcLang : string;
  targetLang : string;
  lastUpdated : string
}.

Definition MODEL_CONFIGS : list ModelConfigItem := [
  {| id := "en2tr-small";
     name := "English to Turkish (Small)";
     description := "Compact TensorFlow.js model for English to Turkish translation";
     url := "https://tfhub.dev/tensorflow/tfjs-model/opus-mt-en-tr/1/model.json";
     version := "1.0.0";
     size := 25;
     srcLang := "en";
     targetLang := "tr";
     lastUpdated := "2024-06-01" |};
  {| id := "tr2en-small";
     name := "Turkish to English (Small)";
     description := "Compact TensorFlow.js model for Turkish to English translation";
     url := "https://tfhub.dev/tensorflow/tfjs-model/opus-mt-tr-en/1/model.json";
     version := "1.0.0";
     size := 25;
     srcLang := "tr";
     targetLang := "en";
     lastUpdated := "2024-06-01" |};
  {| id := "opus-mt-en2tr-base";
     name := "OPUS-MT English to Turkish";
     description := "Base OPUS-MT model for English to Turkish translation with improved accuracy";
     url := "https://tfhub.dev/tensorflow/tfjs-model/opus-mt-en-tr/1/model.json";
     version := "1.1.0";
     size := 65;
     srcLang := "en";
     targetLang := "tr";
     lastUpdated := "2024-06-05" |}
].

(** Language popularity scores of [calculateModelPriority]. *)
Definition languagePopularity : list (string * Z) := [
  ("en", 100); ("es", 90); ("fr", 80); ("de", 70); ("it", 60);
  ("pt", 55); ("ru", 50); ("ja", 45); ("ko", 40); ("zh", 85);
  ("ar", 35); ("hi", 30); ("tr", 25); ("nl", 20); ("sv", 15)
].

Fixpoint table_get {V} (t : list (string * V)) (k : string) : option V :=
  match t with
  | [] => None
  | (k', v) :: t' => if String.eqb k' k then Some v else table_get t' k
  end.

Definition MB : Z := 1024 * 1024.

(** A score: an integer, or NaN. *)
Inductive number :=
| Num (z : Z)
| NaN.

(** [languagePopularity[lang] || 10].  The table is an object literal:
    for a name it does not list, the lookup finds the member of
    [Object.prototype] of that name, if there is one, and that member
    is truthy; [None] stands for such a member. *)
Definition popularity_or_default (lang : string) : option Z :=
  match table_get languagePopularity lang with
  | Some p => Some (Js.or_default (Some p) 10)
  | None => if Js.inherited lang then None else Some 10
  end.

(** [ModelManager.calculateModelPriority].  When one of the two lookups
    finds a member of [Object.prototype], [srcPop + targetPop] is the
    concatenation of two strings, one of them the text of a function or
    of an object; its half is NaN, which the additions, [Math.round]
    and [Math.max] hand on. *)
Definition calculateModelPriority (config : ModelConfigItem) : number :=
  match popularity_or_default (srcLang config),
        popularity_or_default (targetLang config) with
  | Some srcPop, Some targetPop =>
      let priority : Q := (inject_Z (srcPop + targetPop) / 2)%Q in
      let priority : Q :=
        if String.eqb (srcLang config) "en"
           || String.eqb (targetLang config) "en"
        then (priority + 20)%Q else priority in
      let sizeInBytes := Js.or_default (Some (size config)) 15 * 1024 * 1024 in
      let priority : Q :=
        if sizeInBytes >? 50 * 1024 * 1024 then (priority - 10)%Q
        else priority in
      Num (Z.max 1 (Js.Math_round priority))
  | _, _ => NaN
  end.

(** The score as the specification words it: the two popularity
    values (10 for a language the table does not list) are averaged, 20 is
    added when either side is English, 10 is taken off when the package
    is larger than 50MB, and the result is rounded to the nearest integer
    and is at least 1.  Halves are kept exact by working on twice the
    score. *)
Definition popularity (lang : string) : Z :=
  match table_get languagePopularity lang with
  | Some p => p
  | None => 10
  end.

Definition priority_spec (src tgt : string) (sizeBytes : Z) : Z :=
  let twice :=
    popularity src + popularity tgt
    + (if String.eqb src "en" || String.eqb tgt "en" then 2 * 20 else 0)
    - (if sizeBytes >? 50 * MB then 2 * 10 else 0) in
  Z.max 1 ((twice + 1) / 2).

(** [TranslationService.getModelIdForLanguagePair] (and
    [MlService.findModelForLanguagePair]): exact match only. *)
Definition findModelForLanguagePair (sourceCode targetCode : string)
  : option ModelConfigItem :=
  Js.find (fun config => String.eqb (srcLang config) sourceCode
                         && String.eqb (targetLang config) targetCode)
          MODEL_CONFIGS.

Definition getModelIdForLanguagePair (sourceCode targetCode : string)
  : option string :=
  match findModelForLanguagePair sourceCode targetCode with
  | Some exactMatch => Some (id exactMatch)
  | None => None
  end.

End Catalog.


(* ===================================================================== *)
(** ** services/modelManager.ts *)
(* ===================================================================== *)

Module ModelManager.
Import Js.

Inductive exn := JsError (message : string).

Module Model.
Record ModelInfo := {
  id : string;
  name : string;
  url : string;
  version : string;
  localPath : option string;
  isDownloaded : bool;
  downloadProgress : option float;
  downloadJobId : option Z;
  lastChecked : option Z;
  priority : option Z;        (* higher number = higher priority *)
  downloadSize : option Z;    (* size in bytes *)
  usageCount : option Z;
  lastUsed : option Z
}.
End Model.
Export Model (ModelInfo).

Module Item.
Record DownloadQueueItem := {
  modelId : string;
  priority : Z;
  estimatedSize : Z;
  addedAt : Z
}.
End Item.
Export Item (DownloadQueueItem).

Record ProgressiveDownloadOptions := {
  maxConcurrentDownloads : option Z;
  prioritizeByUsage : option bool;
  downloadOnWifiOnly : option bool;
  maxStorageUsage : option Z   (* maximum storage in bytes *)
}.

(** [Partial<ProgressiveDownloadOptions>]: a key is absent ([None]) or
    present, and the value of a key that is present may be [undefined]
    ([Some None]). *)
Module Partial.
Record ProgressiveDownloadOptions := {
  maxConcurrentDownloads : option (option Z);
  prioritizeByUsage : option (option bool);
  downloadOnWifiOnly : option (option bool);
  maxStorageUsage : option (option Z)
}.
End Partial.

(** [{ ...base, ...options }]: the keys present in [options] win, with
    the value they have there. *)
Definition merge_options (base : ProgressiveDownloadOptions)
  (options : Partial.ProgressiveDownloadOptions)
  : ProgressiveDownloadOptions :=
  let pick {A} (o : option (option A)) (b : option A) :=
    match o with Some v => v | None => b end in
  {| maxConcurrentDownloads :=
       pick (Partial.maxConcurrentDownloads options)
         (maxConcurrentDownloads base);
     prioritizeByUsage :=
       pick (Partial.prioritizeByUsage options) (prioritizeByUsage base);
     downloadOnWifiOnly :=
       pick (Partial.downloadOnWifiOnly options) (downloadOnWifiOnly base);
     maxStorageUsage :=
       pick (Partial.maxStorageUsage options) (maxStorageUsage base) |}.

(** *** The file system, as the manager sees it *)

Inductive FsCall :=
| FsExists (path : string)
| FsMkdir (path : string)
| FsDownloadFile (fromUrl toFile : string)
| FsUnlink (path : string).

(** What the file system answers to the calls of one [downloadModel];
    [downloadFile_progress] holds the arguments ([bytesWritten],
    [contentLength]) of the calls of the [progress] callback that
    [downloadFile] makes before its promise settles. *)
Record FsReply := {
  exists_reply : outcome exn bool;
  mkdir_reply : outcome exn unit;
  downloadFile_progress : list (float * float);
  downloadFile_reply : outcome exn unit
}.

(** *** Suspended invocations

    [processDownloadQueue] awaits the storage check with the entry it
    has just shifted off the queue in hand, and [maxConcurrent] read when
    it was entered; [downloadModelProgressively] awaits [downloadModel]. *)

Inductive download_call :=
| Rejected (e : exn)                   (* threw before any await *)
| Resolved (m : ModelInfo)             (* was already downloaded *)
| Fetching (modelConfig : ModelInfo).  (* waits for the file system *)

Inductive task :=
| AwaitStorageCheck (maxConcurrent : Z) (nextItem : DownloadQueueItem)
| AwaitDownload (modelId : string) (call : download_call).

Record ModelManager := {
  models : list (string * ModelInfo);      (* a Map, in insertion order *)
  modelDir : string;
  downloadQueue : list DownloadQueueItem;
  activeDownloads : gset string;
  progressiveOptions : ProgressiveDownloadOptions;
  suspended : list task;
  clock : Z                                (* what [new Date()] reads next *)
}.

Definition set_models v (st : ModelManager) : ModelManager :=
  {| models := v; modelDir := modelDir st; downloadQueue := downloadQueue st;
     activeDownloads := activeDownloads st;
     progressiveOptions := progressiveOptions st;
     suspended := suspended st; clock := clock st |}.

Definition set_downloadQueue v (st : ModelManager) : ModelManager :=
  {| models := models st; modelDir := modelDir st; downloadQueue := v;
     activeDownloads := activeDownloads st;
     progressiveOptions := progressiveOptions st;
     suspended := suspended st; clock := clock st |}.

Definition set_activeDownloads v (st : ModelManager) : ModelManager :=
  {| models := models st; modelDir := modelDir st;
     downloadQueue := downloadQueue st; activeDownloads := v;
     progressiveOptions := progressiveOptions st;
     suspended := suspended st; clock := clock st |}.

Definition set_progressiveOptions v (st : ModelManager) : ModelManager :=
  {| models := models st; modelDir := modelDir st;
     downloadQueue := downloadQueue st;
     activeDownloads := activeDownloads st; progressiveOptions := v;
     suspended := suspended st; clock := clock st |}.

Definition set_suspended v (st : ModelManager) : ModelManager :=
  {| models := models st; modelDir := modelDir st;
     downloadQueue := downloadQueue st;
     activeDownloads := activeDownloads st;
     progressiveOptions := progressiveOptions st;
     suspended := v; clock := clock st |}.

(** [new Date()]: the clock is read and moves on. *)
Definition tick (st : ModelManager) : ModelManager :=
  {| models := models st; modelDir := modelDir st;
     downloadQueue := downloadQueue st;
     activeDownloads := activeDownloads st;
     progressiveOptions := progressiveOptions st;
     suspended := suspended st; clock := clock st + 1 |}.

(** [Map.prototype.get] and [Map.prototype.set]: a key that is already
    present keeps its place, a new key goes last. *)
Fixpoint map_get {V} (m : list (string * V)) (k : string) : option V :=
  match m with
  | [] => None
  | (k', v) :: m' => if String.eqb k' k then Some v else map_get m' k
  end.

Fixpoint map_set {V} (m : list (string * V)) (k : string) (v : V)
  : list (string * V) :=
  match m with
  | [] => [(k, v)]
  | (k', v') :: m' =>
      if String.eqb k' k then (k, v) :: m' else (k', v') :: map_set m' k v
  end.

(** The constructor's field initialisers. *)
Definition new_ModelManager (documentDirectoryPath : string) : ModelManager :=
  {| models := [];
     modelDir := documentDirectoryPath +:+ "/ml-models";
     downloadQueue := [];
     activeDownloads := ∅;
     progressiveOptions :=
       {| maxConcurrentDownloads := Some 2;
          prioritizeByUsage := Some true;
          downloadOnWifiOnly := Some false;
          maxStorageUsage := Some (500 * 1024 * 1024) |};
     suspended := [];
     clock := 0 |}.


(** *** Model configuration at start-up *)

Record InitFs := {
  modelDir_exists : outcome exn bool;
  modelDir_mkdir : outcome exn unit;
  modelJson_exists : string -> outcome exn bool
}.

(** The loop of [initializeModelConfigs]; [false] when [FileSystem.exists]
    threw and the loop was left through the [catch].  A priority that
    is NaN is filed like a missing one: the manager reads the field
    through [priority || 0] and [priority || 1] only, for which NaN and
    [undefined] are the same. *)
Fixpoint loadConfigs (fs : InitFs) (configs : list Catalog.ModelConfigItem)
  (st : ModelManager) : ModelManager * bool :=
  match configs with
  | [] => (st, true)
  | config :: rest =>
      let modelDir' := modelDir st +:+ "/" +:+ Catalog.id config in
      let modelJsonPath := modelDir' +:+ "/model.json" in
      match modelJson_exists fs modelJsonPath with
      | Throw _ => (st, false)
      | Ok isDownloaded =>
          let priority := Catalog.calculateModelPriority config in
          loadConfigs fs rest
            (set_models
               (map_set (models st) (Catalog.id config)
                  {| Model.id := Catalog.id config;
                     Model.name := Catalog.name config;
                     Model.url := Catalog.url config;
                     Model.version := Catalog.version config;
                     Model.localPath :=
                       if isDownloaded then Some modelJsonPath else None;
                     Model.isDownloaded := isDownloaded;
                     Model.downloadProgress := None;
                     Model.downloadJobId := None;
                     Model.lastChecked := None;
                     Model.priority :=
                       match priority with
                       | Catalog.Num p => Some p
                       | Catalog.NaN => None
                       end;
                     Model.downloadSize :=
                       Some (or_default (Some (Catalog.size config)) 15
                             * 1024 * 1024);
                     Model.usageCount := Some 0;
                     Model.lastUsed := None |})
               st)
      end
  end.

(** *** The download queue *)

Definition getCurrentStorageUsage (stat : outcome exn (option Z)) : Z :=
  match stat with
  | Ok (Some size) => size
  | Ok None => 0
  | Throw _ => 0
  end.

Definition wouldExceedStorageLimit (stat : outcome exn (option Z))
  (additionalSize : Z) (st : ModelManager) : bool :=
  let currentUsage := getCurrentStorageUsage stat in
  let maxUsage :=
    or_default (maxStorageUsage (progressiveOptions st)) (500 * 1024 * 1024) in
  currentUsage + additionalSize >? maxUsage.

(** The [while] test of [processDownloadQueue] and, when it passes, the
    [shift] up to the [await] of the storage check. *)
Definition processDownloadQueue_loop (maxConcurrent : Z) (st : ModelManager)
  : ModelManager :=
  if Z.of_nat (size (activeDownloads st)) <? maxConcurrent then
    match downloadQueue st with
    | nextItem :: rest =>
        set_suspended
          (suspended st ++ [AwaitStorageCheck maxConcurrent nextItem])
          (set_downloadQueue rest st)
    | [] => st
    end
  else st.

Definition processDownloadQueue (st : ModelManager) : ModelManager :=
  let maxConcurrent :=
    or_default (maxConcurrentDownloads (progressiveOptions st)) 2 in
  processDownloadQueue_loop maxConcurrent st.

Definition addToDownloadQueue (modelId : string) (priority estimatedSize : Z)
  (st : ModelManager) : ModelManager :=
  if existsb (fun item => String.eqb (Item.modelId item) modelId)
       (downloadQueue st)
     || bool_decide (modelId ∈ activeDownloads st)
  then st
  else
    let queueItem :=
      {| Item.modelId := modelId; Item.priority := priority;
         Item.estimatedSize := estimatedSize; Item.addedAt := clock st |} in
    let st := tick st in
    let st := set_downloadQueue (downloadQueue st ++ [queueItem]) st in
    let st :=
      set_downloadQueue
        (sort (fun a b => Item.priority a <? Item.priority b)
           (downloadQueue st)) st in
    processDownloadQueue st.

Definition startProgressiveDownloading (st : ModelManager) : ModelManager :=
  let undownloadedModels :=
    sort (fun a b => or_default (Model.priority a) 0
                     <? or_default (Model.priority b) 0)
      (List.filter (fun model => negb (Model.isDownloaded model))
         (map snd (models st))) in
  let st :=
    fold_left
      (fun st model =>
         addToDownloadQueue (Model.id model)
           (or_default (Model.priority model) 1)
           (or_default (Model.downloadSize model) (15 * 1024 * 1024)) st)
      (firstn 5 undownloadedModels) st in
  processDownloadQueue st.

Definition initializeModelConfigs (fs : InitFs) (st : ModelManager)
  : ModelManager :=
  let load st :=
    match loadConfigs fs Catalog.MODEL_CONFIGS st with
    | (st, true) => startProgressiveDownloading st
    | (st, false) => st
    end in
  match modelDir_exists fs with
  | Throw _ => st
  | Ok true => load st
  | Ok false =>
      match modelDir_mkdir fs with
      | Throw _ => st
      | Ok _ => load st
      end
  end.

Definition pauseProgressiveDownloading (st : ModelManager) : ModelManager :=
  set_downloadQueue [] st.

Definition resumeProgressiveDownloading (st : ModelManager) : ModelManager :=
  startProgressiveDownloading st.

Definition configureProgressiveDownloading
  (options : Partial.ProgressiveDownloadOptions) (st : ModelManager)
  : ModelManager :=
  set_progressiveOptions (merge_options (progressiveOptions st) options) st.

(** *** Downloading one model *)

Definition not_found (modelId : string) : exn :=
  JsError ("Model with ID " +:+ modelId +:+ " not found in configurations.").

(** [downloadModel] up to its first [await]. *)
Definition downloadModel_begin (modelId : string) (st : ModelManager)
  : download_call :=
  match map_get (models st) modelId with
  | None => Rejected (not_found modelId)
  | Some modelConfig =>
      if Model.isDownloaded modelConfig then Resolved modelConfig
      else Fetching modelConfig
  end.

(** The [progress] callback of [downloadModel]: the entry is replaced
    by the entry the call found, with the progress reported. *)
Definition progressed (modelConfig : ModelInfo) (progress : float)
  : ModelInfo :=
  {| Model.id := Model.id modelConfig;
     Model.name := Model.name modelConfig;
     Model.url := Model.url modelConfig;
     Model.version := Model.version modelConfig;
     Model.localPath := Model.localPath modelConfig;
     Model.isDownloaded := Model.isDownloaded modelConfig;
     Model.downloadProgress := Some progress;
     Model.downloadJobId := Model.downloadJobId modelConfig;
     Model.lastChecked := Model.lastChecked modelConfig;
     Model.priority := Model.priority modelConfig;
     Model.downloadSize := Model.downloadSize modelConfig;
     Model.usageCount := Model.usageCount modelConfig;
     Model.lastUsed := Model.lastUsed modelConfig |}.

Definition downloadModel_progress (modelId : string) (modelConfig : ModelInfo)
  (res : float * float) (st : ModelManager) : ModelManager :=
  let progress := (fst res / snd res)%float in
  set_models (map_set (models st) modelId (progressed modelConfig progress)) st.

(** The calls of the callback during one [downloadFile]. *)
Definition downloadModel_progresses (modelId : string)
  (modelConfig : ModelInfo) (reports : list (float * float))
  (st : ModelManager) : ModelManager :=
  fold_left (fun st res => downloadModel_progress modelId modelConfig res st)
    reports st.

(** The rest of [downloadModel], once the file system has answered; the
    calls made to the file system are reported with the result. *)
Definition downloadModel_end (modelId : string) (call : download_call)
  (fs : FsReply) (st : ModelManager)
  : outcome exn ModelInfo * list FsCall * ModelManager :=
  match call with
  | Rejected e => (Throw e, [], st)
  | Resolved m => (Ok m, [], st)
  | Fetching modelConfig =>
      let modelDir' := modelDir st +:+ "/" +:+ modelId in
      let modelJsonPath := modelDir' +:+ "/model.json" in
      let fetch calls :=
        let calls :=
          calls ++ [FsDownloadFile (Model.url modelConfig) modelJsonPath] in
        let st :=
          downloadModel_progresses modelId modelConfig
            (downloadFile_progress fs) st in
        match downloadFile_reply fs with
        | Throw e => (Throw e, calls, st)
        | Ok _ =>
            let updatedModel :=
              {| Model.id := modelId;
                 Model.name := Model.name modelConfig;
                 Model.url := Model.url modelConfig;
                 Model.version := Model.version modelConfig;
                 Model.localPath := Some modelJsonPath;
                 Model.isDownloaded := true;
                 Model.downloadProgress := Some 1%float;
                 Model.downloadJobId := Model.downloadJobId modelConfig;
                 Model.lastChecked := Some (clock st);
                 Model.priority := Model.priority modelConfig;
                 Model.downloadSize := Model.downloadSize modelConfig;
                 Model.usageCount := Model.usageCount modelConfig;
                 Model.lastUsed := Model.lastUsed modelConfig |} in
            (Ok updatedModel, calls,
             set_models (map_set (models st) modelId updatedModel) (tick st))
        end in
      match exists_reply fs with
      | Throw e => (Throw e, [FsExists modelDir'], st)
      | Ok true => fetch [FsExists modelDir']
      | Ok false =>
          match mkdir_reply fs with
          | Throw e => (Throw e, [FsExists modelDir'; FsMkdir modelDir'], st)
          | Ok _ => fetch [FsExists modelDir'; FsMkdir modelDir']
          end
      end
  end.

(** [downloadModel] from call to settlement. *)
Definition downloadModel (modelId : string) (fs : FsReply) (st : ModelManager)
  : outcome exn ModelInfo * list FsCall * ModelManager :=
  downloadModel_end modelId (downloadModel_begin modelId st) fs st.

(** [downloadModelProgressively] up to [await this.downloadModel(..)]. *)
Definition downloadModelProgressively_begin (modelId : string)
  (st : ModelManager) : ModelManager :=
  let st := set_activeDownloads ({[modelId]} ∪ activeDownloads st) st in
  set_suspended
    (suspended st ++ [AwaitDownload modelId (downloadModel_begin modelId st)])
    st.

(** Its [try]/[catch]/[finally], once [downloadModel] has settled: the
    error, if any, is logged and dropped. *)
Definition downloadModelProgressively_end (modelId : string)
  (call : download_call) (fs : FsReply) (st : ModelManager) : ModelManager :=
  let '(_, _, st) := downloadModel_end modelId call fs st in
  let st := set_activeDownloads (activeDownloads st ∖ {[modelId]}) st in
  processDownloadQueue st.

(** [processDownloadQueue] resumed with the answer of
    [FileSystem.stat]: the body of the loop after the [await], and the
    loop again up to its next [await]. *)
Definition processDownloadQueue_resume (maxConcurrent : Z)
  (nextItem : DownloadQueueItem) (stat : outcome exn (option Z))
  (st : ModelManager) : ModelManager :=
  if wouldExceedStorageLimit stat (Item.estimatedSize nextItem) st
  then processDownloadQueue_loop maxConcurrent st
  else processDownloadQueue_loop maxConcurrent
         (downloadModelProgressively_begin (Item.modelId nextItem) st).

(** *** Requests and deletion *)

Definition requestModel (modelId : string) (urgent : bool) (fs : FsReply)
  (st : ModelManager) : outcome exn ModelInfo * list FsCall * ModelManager :=
  match map_get (models st) modelId with
  | None => (Throw (not_found modelId), [], st)
  | Some model =>
      let updatedModel :=
        {| Model.id := Model.id model;
           Model.name := Model.name model;
           Model.url := Model.url model;
           Model.version := Model.version model;
           Model.localPath := Model.localPath model;
           Model.isDownloaded := Model.isDownloaded model;
           Model.downloadProgress := Model.downloadProgress model;
           Model.downloadJobId := Model.downloadJobId model;
           Model.lastChecked := Model.lastChecked model;
           Model.priority := Model.priority model;
           Model.downloadSize := Model.downloadSize model;
           Model.usageCount := Some (or_default (Model.usageCount model) 0 + 1);
           Model.lastUsed := Some (clock st) |} in
      let st := set_models (map_set (models st) modelId updatedModel) (tick st) in
      if Model.isDownloaded model then (Ok updatedModel, [], st)
      else if urgent then downloadModel modelId fs st
      else
        let boostedPriority := or_default (Model.priority model) 1 + 50 in
        let st :=
          addToDownloadQueue modelId boostedPriority
            (or_default (Model.downloadSize model) (15 * 1024 * 1024)) st in
        (Ok updatedModel, [], st)
  end.

Definition deleteModel (modelId : string) (unlink_reply : outcome exn unit)
  (st : ModelManager) : outcome exn unit * list FsCall * ModelManager :=
  match map_get (models st) modelId with
  | None => (Ok tt, [], st)
  | Some modelInfo =>
      if negb (Model.isDownloaded modelInfo)
         || negb (truthy_string (Model.localPath modelInfo))
      then (Ok tt, [], st)
      else
        let modelDir' := modelDir st +:+ "/" +:+ modelId in
        match unlink_reply with
        | Ok _ =>
            let updatedModel :=
              {| Model.id := modelId;
                 Model.name := Model.name modelInfo;
                 Model.url := Model.url modelInfo;
                 Model.version := Model.version modelInfo;
                 Model.localPath := None;
                 Model.isDownloaded := false;
                 Model.downloadProgress := None;
                 Model.downloadJobId := Model.downloadJobId modelInfo;
                 Model.lastChecked := Model.lastChecked modelInfo;
                 Model.priority := Model.priority modelInfo;
                 Model.downloadSize := Model.downloadSize modelInfo;
                 Model.usageCount := Model.usageCount modelInfo;
                 Model.lastUsed := Model.lastUsed modelInfo |} in
            (Ok tt, [FsUnlink modelDir'],
             set_models (map_set (models st) modelId updatedModel) st)
        | Throw e => (Throw e, [FsUnlink modelDir'], st)
        end
  end.

(** *** The manager as a transition system

    One event is one run of the event loop: a call of the public
    interface up to the point where it returns or suspends, or the
    resumption of a suspended invocation (the [i]-th one) with the answer
    it was waiting for, or a call of the progress callback of a download
    that is under way.  A request is taken together with the download
    an urgent one awaits, which touches neither the queue nor the active
    set, and with the progress reported on the way.  For a download
    started from the queue, the reports made while it is pending are
    events of their own, [DownloadProgressed]; [downloadFile_progress]
    holds those made in the run in which it settles. *)

Inductive event :=
| CallAddToDownloadQueue (modelId : string) (priority estimatedSize : Z)
| CallStartProgressiveDownloading
| CallPauseProgressiveDownloading
| CallResumeProgressiveDownloading
| CallConfigureProgressiveDownloading
    (options : Partial.ProgressiveDownloadOptions)
| CallRequestModel (modelId : string) (urgent : bool) (fs : FsReply)
| CallDeleteModel (modelId : string) (unlink_reply : outcome exn unit)
| StorageChecked (i : nat) (stat : outcome exn (option Z))
| DownloadProgressed (i : nat) (res : float * float)
| DownloadSettled (i : nat) (fs : FsReply).

Definition step (st : ModelManager) (ev : event) : option ModelManager :=
  match ev with
  | CallAddToDownloadQueue modelId priority estimatedSize =>
      Some (addToDownloadQueue modelId priority estimatedSize st)
  | CallStartProgressiveDownloading => Some (startProgressiveDownloading st)
  | CallPauseProgressiveDownloading => Some (pauseProgressiveDownloading st)
  | CallResumeProgressiveDownloading => Some (resumeProgressiveDownloading st)
  | CallConfigureProgressiveDownloading options =>
      Some (configureProgressiveDownloading options st)
  | CallRequestModel modelId urgent fs =>
      Some (snd (requestModel modelId urgent fs st))
  | CallDeleteModel modelId unlink_reply =>
      Some (snd (deleteModel modelId unlink_reply st))
  | StorageChecked i stat =>
      match suspended st !! i with
      | Some (AwaitStorageCheck maxConcurrent nextItem) =>
          Some (processDownloadQueue_resume maxConcurrent nextItem stat
                  (set_suspended (delete i (suspended st)) st))
      | _ => None
      end
  | DownloadProgressed i res =>
      match suspended st !! i with
      | Some (AwaitDownload modelId (Fetching modelConfig)) =>
          Some (downloadModel_progress modelId modelConfig res st)
      | _ => None
      end
  | DownloadSettled i fs =>
      match suspended st !! i with
      | Some (AwaitDownload modelId call) =>
          Some (downloadModelProgressively_end modelId call fs
                  (set_suspended (delete i (suspended st)) st))
      | _ => None
      end
  end.

Fixpoint run (st : ModelManager) (evs : list event) : option ModelManager :=
  match evs with
  | [] => Some st
  | ev :: evs' =>
      match step st ev with
      | Some st' => run st' evs'
      | None => None
      end
  end.

(** *** Notions the properties are stated with *)

(** The storage budget and the concurrency bound in force. *)
Definition maxStorageBytes (st : ModelManager) : Z :=
  or_default (maxStorageUsage (progressiveOptions st)) (500 * 1024 * 1024).

Definition maxConcurrent (st : ModelManager) : Z :=
  or_default (maxConcurrentDownloads (progressiveOptions st)) 2.

(** The order of the queue: priorities do not increase, and of two
    entries of equal priority the one enqueued first comes first. *)
Definition before (a b : DownloadQueueItem) : Prop :=
  Item.priority a >= Item.priority b
  /\ (Item.priority a = Item.priority b -> Item.addedAt a < Item.addedAt b).

Definition queue_ordered (q : list DownloadQueueItem) : Prop :=
  StronglySorted before q.

(** A first start of the application, with no model on disk; a later
    start, with every model on disk; a file system on which a download
    goes through. *)
Definition fresh_install : InitFs :=
  {| modelDir_exists := Ok false;
     modelDir_mkdir := Ok tt;
     modelJson_exists := fun _ => Ok false |}.

Definition all_installed : InitFs :=
  {| modelDir_exists := Ok true;
     modelDir_mkdir := Ok tt;
     modelJson_exists := fun _ => Ok true |}.

Definition fs_ok : FsReply :=
  {| exists_reply := Ok false; mkdir_reply := Ok tt;
     downloadFile_progress := [(524288, 1048576)%float];
     downloadFile_reply := Ok tt |}.

(** A download that reports a quarter and a half of the file and then
    fails. *)
Definition fs_interrupted : FsReply :=
  {| exists_reply := Ok false; mkdir_reply := Ok tt;
     downloadFile_progress :=
       [(262144, 1048576)%float; (524288, 1048576)%float];
     downloadFile_reply := Throw (JsError "Network request failed") |}.

Definition started (fs : InitFs) : ModelManager :=
  initializeModelConfigs fs (new_ModelManager "/documents").

(** The comparator of the queue's [sort], and what the proof of the
    order carries along: entries of equal priority stand in the order of
    their dates, and every date in the queue has been read off the clock
    already. *)
Definition by_priority (a b : DownloadQueueItem) : bool :=
  Item.priority a <? Item.priority b.

Definition later_if_equal (a b : DownloadQueueItem) : Prop :=
  Item.priority a = Item.priority b -> Item.addedAt a < Item.addedAt b.

Definition queue_inv (q : list DownloadQueueItem) (c : Z) : Prop :=
  queue_ordered q /\ Forall (fun x => Item.addedAt x < c) q.

Definition inv (st : ModelManager) : Prop :=
  queue_inv (downloadQueue st) (clock st).

(** The three storage checks of a first start answered in turn, the
    model directory being empty. *)
Definition three_checks : list event :=
  [StorageChecked 0 (Ok (Some 0)); StorageChecked 0 (Ok (Some 0));
   StorageChecked 0 (Ok (Some 0))].

(** Three further requests made while those downloads are active, two of
    them with the same priority. *)
Definition enqueue_with_tie : list event :=
  three_checks
  ++ [CallAddToDownloadQueue "fr2en" 5 1; CallAddToDownloadQueue "de2en" 7 1;
      CallAddToDownloadQueue "es2en" 5 1].

End ModelManager.

(* ===================================================================== *)
(** ** services/mlService.ts *)
(* ===================================================================== *)

Module MlService.
Import Js.
Local Open Scope float_scope.

(** The parts of the JavaScript runtime whose result is left to the
    implementation, with the values the language standard fixes:
    [Math.exp(+0)] is 1 and [Math.log(1)] is +0; every engine computes
    [Math.pow(1, 1)] as 1. *)
Class JsMath := {
  Math_exp : float -> float;
  Math_log : float -> float;
  Math_pow : float -> float -> float;
  Math_round : float -> float;
  String_fromCharCode : list float -> string;
  Math_exp_zero : Math_exp 0 = 1;
  Math_log_one : Math_log 1 = 0;
  Math_pow_one_one : Math_pow 1 1 = 1
}.

(** [Math.max] and [Math.min] of two numbers: NaN if either is NaN, and
    +0 is larger than -0. *)
Definition Math_max2 (a b : float) : float :=
  if is_nan a || is_nan b then nan
  else if a <? b then b
  else if b <? a then a
  else if get_sign a then b else a.

Definition Math_min2 (a b : float) : float :=
  if is_nan a || is_nan b then nan
  else if a <? b then a
  else if b <? a then b
  else if get_sign a then a else b.

(** [Math.max(...values)]. *)
Definition Math_max (values : list float) : float :=
  fold_left Math_max2 values neg_infinity.

(** An array length as a number. *)
Definition number_of_length {A} (l : list A) : float :=
  Nat.iter (length l) (fun x => x + 1) 0.

Record AlternativeTranslation := {
  text : string;
  alt_confidence : option float
}.

Record TranslationResult := {
  translatedText : string;
  confidence : option float;
  alternatives : option (list AlternativeTranslation);
  timeTaken : option Z;
  modelId : string
}.

(** What the tensor runtime and the model answer during one
    [translateText]: how [loadModel] settles, the construction of the
    input tensor, and the prediction read back with [arraySync]. *)
Record Runtime := {
  loadModel_reply : string -> outcome ModelManager.exn unit;
  tokenize_reply : string -> outcome ModelManager.exn unit;
  runInference_reply : string -> outcome ModelManager.exn (list (list float));
  elapsed : Z
}.

(** A runtime that meets the fixed values, by first-order
    approximations around them. *)
Definition linear_JsMath : JsMath :=
  {| Math_exp := fun x => 1 + x;
     Math_log := fun x => x - 1;
     Math_pow := fun x y => 1 + y * (x - 1);
     Math_round := fun x => x;
     String_fromCharCode := fun _ => "";
     Math_exp_zero := eq_refl;
     Math_log_one := eq_refl;
     Math_pow_one_one := eq_refl |}.

(** A runtime whose model answers with a single value. *)
Definition single_output : Runtime :=
  {| loadModel_reply := fun _ => Ok tt;
     tokenize_reply := fun _ => Ok tt;
     runInference_reply := fun _ => Ok [[65]];
     elapsed := 5 |}.

Section Inference.
Context `{JsMath}.

Definition softmax (logits : list float) : list float :=
  let maxLogit := Math_max logits in
  let expLogits := map (fun x => Math_exp (x - maxLogit)) logits in
  let sumExp := fold_left (fun sum exp => sum + exp) expLogits 0 in
  map (fun exp => exp / sumExp) expLogits.

(** [calculateTranslationConfidence]; [None] is an [undefined]
    argument. *)
Definition calculateTranslationConfidence (predictions : option (list float))
  : float :=
  match predictions with
  | None => 0
  | Some [] => 0
  | Some predictions =>
      let probs := softmax predictions in
      let geometricMean :=
        Math_pow
          (fold_left (fun prod prob => prod * Math_max2 prob 0.001) probs 1)
          (1 / number_of_length probs) in
      let entropy :=
        - fold_left
            (fun sum prob =>
               sum + (if 0 <? prob then prob * Math_log prob else 0))
            probs 0 in
      let maxEntropy := Math_log (number_of_length probs) in
      let normalizedEntropy := entropy / maxEntropy in
      let entropyConfidence := 1 - normalizedEntropy in
      let maxProb := Math_max probs in
      let combinedConfidence :=
        0.4 * geometricMean + 0.3 * entropyConfidence + 0.3 * maxProb in
      Math_max2 0 (Math_min2 1 combinedConfidence)
  end.

(** The placeholder decoding: each value is clamped to the printable
    range and read as a character code. *)
Definition decode (values : list float) : string :=
  String_fromCharCode
    (map (fun code => Math_max2 32 (Math_min2 126 (Math_round (abs code))))
       values).

Fixpoint scale_at (index : nat) (values : list float) : list float :=
  match values, index with
  | [], _ => []
  | v :: values', O => v * 1.1 :: values'
  | v :: values', S index' => v :: scale_at index' values'
  end.

Fixpoint with_index {A} (start : nat) (l : list A) : list (A * nat) :=
  match l with
  | [] => []
  | a :: l' => (a, start) :: with_index (S start) l'
  end.

Definition generateAlternativeTranslations (predictions : list float)
  : list AlternativeTranslation :=
  let probs := softmax predictions in
  let sortedProbs :=
    sort (fun a b => 0 <? fst b - fst a) (with_index 0 probs) in
  flat_map
    (fun altProb : float * nat =>
       if fst altProb <? 0.1 then []
       else [{| text := decode (scale_at (snd altProb) predictions);
                alt_confidence := Some (fst altProb) |}])
    (firstn 3 (tl sortedProbs)).

Record Detokenized := {
  d_translatedText : string;
  d_confidence : option float;
  d_alternatives : option (list AlternativeTranslation)
}.

(** [detokenize]: a missing first row makes [firstBatchItem.map] throw,
    which the method catches. *)
Definition detokenize (output : list (list float)) : Detokenized :=
  match output with
  | firstBatchItem :: _ =>
      {| d_translatedText := decode firstBatchItem;
         d_confidence :=
           Some (calculateTranslationConfidence (Some firstBatchItem));
         d_alternatives := Some (generateAlternativeTranslations firstBatchItem) |}
  | [] =>
      {| d_translatedText := "[Error during detokenization]";
         d_confidence := Some 0;
         d_alternatives := Some [] |}
  end.

Definition translateText (rt : Runtime) (text sourceLanguage targetLanguage
  modelId : string) : outcome ModelManager.exn TranslationResult :=
  match Js.find (fun config => String.eqb (Catalog.id config) modelId)
          Catalog.MODEL_CONFIGS with
  | None =>
      Throw (ModelManager.JsError
               ("No model configuration found for modelId: " +:+ modelId))
  | Some modelConfig =>
      match loadModel_reply rt (Catalog.id modelConfig) with
      | Throw e => Throw e
      | Ok _ =>
          match tokenize_reply rt text with
          | Throw e => Throw e
          | Ok _ =>
              match runInference_reply rt text with
              | Throw e => Throw e
              | Ok outputTensor =>
                  let detokenizationResult := detokenize outputTensor in
                  let confidence :=
                    match d_confidence detokenizationResult with
                    | Some c => c
                    | None => 0.75
                    end in
                  Ok {| translatedText := d_translatedText detokenizationResult;
                        confidence := Some confidence;
                        alternatives :=
                          Some (match d_alternatives detokenizationResult with
                                | Some a => a
                                | None => []
                                end);
                        timeTaken := Some (elapsed rt);
                        modelId := Catalog.id modelConfig |}
              end
          end
      end
  end.

End Inference.
End MlService.

(* ===================================================================== *)
(** ** services/languageDetectionService.ts *)
(* ===================================================================== *)

Module LanguageDetection.
Import Js.
Local Open Scope float_scope.

Record Language := {
  code : string;
  name : string;
  nativeName : string;
  flag : string
}.

Record DetectionResult := {
  detectedLanguage : Language;
  confidence : float;
  alternativeLanguages : list (Language * float)
}.

(** franc's ISO 639-3 codes and the application's ISO 639-1 codes. *)
Definition languageCodeMapping : list (string * string) := [
  ("eng", "en"); ("tur", "tr"); ("spa", "es"); ("fra", "fr");
  ("deu", "de"); ("rus", "ru"); ("ara", "ar"); ("zho", "zh");
  ("jpn", "ja"); ("kor", "ko"); ("ita", "it"); ("por", "pt")
].

(** Strings.  A character of one, two or three bytes is one UTF-16 code
    unit and a character of four bytes is two, so [length] counts one
    unit for every byte that begins a character, and one more when the
    byte begins a character of four. *)
Definition utf16_units (c : ascii) : nat :=
  let n := nat_of_ascii c in
  if Nat.leb 128 n && Nat.leb n 191 then 0
  else if Nat.leb 240 n then 2
  else 1.

Fixpoint length_utf16 (s : string) : nat :=
  match s with
  | EmptyString => 0
  | String c s' => utf16_units c + length_utf16 s'
  end.

(** What [trim] strips: the white space and the line terminators of
    ECMAScript.  U+0009 to U+000D and U+0020 are one byte; U+00A0 is
    two; U+1680, U+2000 to U+200A, U+2028, U+2029, U+202F, U+205F,
    U+3000 and U+FEFF are three. *)
Definition is_space (c : ascii) : bool :=
  let n := nat_of_ascii c in
  (Nat.leb 9 n && Nat.leb n 13) || Nat.eqb n 32.

Definition is_space2 (c1 c2 : ascii) : bool :=
  Nat.eqb (nat_of_ascii c1) 194 && Nat.eqb (nat_of_ascii c2) 160.

Definition is_space3 (c1 c2 c3 : ascii) : bool :=
  let n1 := nat_of_ascii c1 in
  let n2 := nat_of_ascii c2 in
  let n3 := nat_of_ascii c3 in
  (Nat.eqb n1 225 && Nat.eqb n2 154 && Nat.eqb n3 128)
  || (Nat.eqb n1 226 && Nat.eqb n2 128
      && ((Nat.leb 128 n3 && Nat.leb n3 138)
          || Nat.eqb n3 168 || Nat.eqb n3 169 || Nat.eqb n3 175))
  || (Nat.eqb n1 226 && Nat.eqb n2 129 && Nat.eqb n3 159)
  || (Nat.eqb n1 227 && Nat.eqb n2 128 && Nat.eqb n3 128)
  || (Nat.eqb n1 239 && Nat.eqb n2 187 && Nat.eqb n3 191).

(** The characters stripped from the front of [s], given the tests for
    a space of one, two and three bytes. *)
Fixpoint strip (sp1 : ascii -> bool) (sp2 : ascii -> ascii -> bool)
  (sp3 : ascii -> ascii -> ascii -> bool) (s : list ascii) : list ascii :=
  match s with
  | c1 :: s1 =>
      if sp1 c1 then strip sp1 sp2 sp3 s1
      else
        match s1 with
        | c2 :: s2 =>
            if sp2 c1 c2 then strip sp1 sp2 sp3 s2
            else
              match s2 with
              | c3 :: s3 =>
                  if sp3 c1 c2 c3 then strip sp1 sp2 sp3 s3 else s
              | [] => s
              end
        | [] => s
        end
  | [] => []
  end.

Definition trimStart (s : list ascii) : list ascii :=
  strip is_space is_space2 is_space3 s.

(** From the end the bytes of a character are met last byte first. *)
Definition trimEnd (s : list ascii) : list ascii :=
  rev (strip is_space (fun c2 c1 => is_space2 c1 c2)
         (fun c3 c2 c1 => is_space3 c1 c2 c3) (rev s)).

Definition trim (s : string) : string :=
  string_of_list_ascii (trimEnd (trimStart (list_ascii_of_string s))).

(** [toLowerCase] and [split('-')[0]]; the letters lowered are those of
    the ASCII range. *)
Definition lower (c : ascii) : ascii :=
  let n := nat_of_ascii c in
  if Nat.leb 65 n && Nat.leb n 90 then ascii_of_nat (n + 32) else c.

Definition toLowerCase (s : string) : string :=
  string_of_list_ascii (map lower (list_ascii_of_string s)).

Fixpoint before_dash (s : string) : string :=
  match s with
  | EmptyString => EmptyString
  | String c s' =>
      if Ascii.eqb c "-"%char then EmptyString else String c (before_dash s')
  end.

(** The two detectors, as the service calls them. *)
Record Detectors := {
  franc : string -> outcome ModelManager.exn string;
  langdetectDetect :
    string -> outcome ModelManager.exn (option (list (string * float)))
}.

Inductive DetectorCall :=
| CallFranc (text : string)
| CallLangdetect (text : string).

Section Service.
(** [LANGUAGES] of [constants/languages], a non-empty list. *)
Context (LANGUAGES_0 : Language) (LANGUAGES_rest : list Language).

Definition LANGUAGES : list Language := LANGUAGES_0 :: LANGUAGES_rest.

Definition minTextLength : nat := 10.

Definition find_language (c : string) : option Language :=
  Js.find (fun lang => String.eqb (code lang) c) LANGUAGES.

Definition getLangdetectCode (langdetectCode : string) : string :=
  let baseLang := toLowerCase (before_dash langdetectCode) in
  if existsb (fun lang => String.eqb (code lang) baseLang) LANGUAGES
  then baseLang else "en".

Definition createDefaultResult : DetectionResult :=
  let english :=
    match find_language "en" with
    | Some lang => lang
    | None => LANGUAGES_0
    end in
  {| detectedLanguage := english;
     confidence := 0.3;
     alternativeLanguages := [] |}.

(** The loop of [getAlternativeLanguages] over the first four results. *)
Fixpoint alternatives_loop (results : list (string * float))
  (primaryCode : string) (alternatives : list (Language * float))
  : list (Language * float) :=
  match results with
  | [] => alternatives
  | (lang, prob) :: results' =>
      let c := getLangdetectCode lang in
      if String.eqb c primaryCode
      then alternatives_loop results' primaryCode alternatives
      else
        let alternatives :=
          match find_language c with
          | Some language =>
              alternatives ++ [(language, MlService.Math_min2 0.9 prob)]
          | None => alternatives
          end in
        if Nat.leb 3 (length alternatives) then alternatives
        else alternatives_loop results' primaryCode alternatives
  end.

Definition getAlternativeLanguages
  (langdetectResults : option (list (string * float))) (primaryCode : string)
  : list (Language * float) :=
  match langdetectResults with
  | None => []
  | Some results =>
      if Nat.leb (length results) 1 then []
      else alternatives_loop (firstn 4 results) primaryCode []
  end.

(** [languageCodeMapping[francResult] || 'en']: the code of the table,
    ['en'] for a name the table does not have, and for the name of a
    member of [Object.prototype] that member, which is truthy and equal
    to no string: [None]. *)
Definition iso6391 (francResult : string) : option string :=
  match Catalog.table_get languageCodeMapping francResult with
  | Some c => Some (if String.eqb c "" then "en" else c)
  | None => if inherited francResult then None else Some "en"
  end.

(** [detectLanguage], with the calls it makes to the detectors. *)
Definition detectLanguage (d : Detectors) (text : string)
  : DetectionResult * list DetectorCall :=
  if String.eqb text "" || Nat.ltb (length_utf16 (trim text)) minTextLength
  then (createDefaultResult, [])
  else
    match franc d text with
    | Throw _ => (createDefaultResult, [CallFranc text])
    | Ok francResult =>
        match langdetectDetect d text with
        | Throw _ => (createDefaultResult, [CallFranc text; CallLangdetect text])
        | Ok langdetectResults =>
            let iso6391Code := iso6391 francResult in
            let detectedLanguage :=
              match
                match iso6391Code with
                | Some c => find_language c
                | None => None
                end
              with
              | Some lang => lang
              | None =>
                  match find_language "en" with
                  | Some lang => lang
                  | None => LANGUAGES_0
                  end
              end in
            let confidence :=
              match langdetectResults with
              | Some ((lang, prob) :: _) =>
                  if match iso6391Code with
                     | Some c => String.eqb (getLangdetectCode lang) c
                     | None => false
                     end
                  then MlService.Math_min2 0.95 (0.7 + prob)
                  else 0.5
              | _ => 0.6
              end in
            let alternatives :=
              getAlternativeLanguages langdetectResults (code detectedLanguage) in
            ({| detectedLanguage := detectedLanguage;
                confidence := confidence;
                alternativeLanguages := alternatives |},
             [CallFranc text; CallLangdetect text])
        end
    end.

Definition manualLanguageOverride (text manualLanguageCode : string)
  : DetectionResult :=
  match find_language manualLanguageCode with
  | None => createDefaultResult
  | Some language =>
      {| detectedLanguage := language;
         confidence := 0.98;
         alternativeLanguages := [] |}
  end.

End Service.
(** Two entries of the kind [LANGUAGES] holds, and detectors that
    recognise nothing, for the examples. *)
Definition english : Language :=
  {| code := "en"; name := "English"; nativeName := "English"; flag := "GB" |}.

Definition turkish : Language :=
  {| code := "tr"; name := "Turkish"; nativeName := "Turkce"; flag := "TR" |}.

Definition undetermined : Detectors :=
  {| franc := fun _ => Ok "und"; langdetectDetect := fun _ => Ok None |}.

(** A short text of eight characters, two of them of two bytes, between
    a no-break space, an ideographic space and a line separator: eighteen
    bytes, of which [trim] leaves ten. *)
Definition gunaydin : string :=
  String (ascii_of_nat 194) (String (ascii_of_nat 160)
    (String (ascii_of_nat 227) (String (ascii_of_nat 128)
      (String (ascii_of_nat 128) "günaydın"))))
  +:+ String (ascii_of_nat 226) (String (ascii_of_nat 128)
        (String (ascii_of_nat 168) "")).

End LanguageDetection.

(* ===================================================================== *)
(** ** services/translationService.ts *)
(* ===================================================================== *)

Module TranslationService.
Import Js.
Import LanguageDetection (Language, code, name).
Local Open Scope float_scope.

Record TranslationOptions := {
  useOfflineOnly : option bool;
  preferredModel : option string;
  maxTimeout : option Z
}.

Definition no_options : TranslationOptions :=
  {| useOfflineOnly := None; preferredModel := None; maxTimeout := None |}.

Record ModelStatus := {
  isDownloaded : bool;
  isDownloading : bool;
  downloadProgress : option float
}.

Record TranslationService := {
  modelStatus : gmap string ModelStatus;
  fallbackToMock : bool;
  initialized : bool
}.

(** What [translationHistoryService.addTranslation] is given. *)
Record HistoryDetails := {
  originalText : string;
  h_translatedText : string;
  sourceLanguage : Language;
  targetLanguage : Language;
  h_modelId : option string;
  translationConfidence : option float;
  detectionConfidence : option float
}.

(** What a call of [translate] sets off without waiting for it. *)
Inductive effect :=
| DownloadModel (modelId : string)
| AddTranslation (details : HistoryDetails).

(** The services [translate] relies on. *)
Record Services := {
  getAvailableModels : list ModelManager.Model.ModelInfo;
  detect : string -> LanguageDetection.DetectionResult;
  translateText :
    string -> string -> string -> string ->
    outcome ModelManager.exn MlService.TranslationResult
}.

Definition initialize (env : Services) (svc : TranslationService)
  : TranslationService :=
  {| modelStatus :=
       fold_left
         (fun status model =>
            <[ModelManager.Model.id model :=
                {| isDownloaded := ModelManager.Model.isDownloaded model;
                   isDownloading := false;
                   downloadProgress :=
                     ModelManager.Model.downloadProgress model |}]> status)
         (getAvailableModels env) (modelStatus svc);
     fallbackToMock := fallbackToMock svc;
     initialized := true |}.

(** The field initialisers and the constructor, whose [initialize] runs
    to its end before the constructor returns. *)
Definition new_TranslationService (env : Services) : TranslationService :=
  initialize env
    {| modelStatus := ∅; fallbackToMock := true; initialized := false |}.

Definition mockTranslations : list (string * list (string * string)) := [
  ("hello", [("tr", "merhaba"); ("es", "hola"); ("fr", "bonjour")]);
  ("thank you", [("tr", "teşekkür ederim"); ("es", "gracias"); ("fr", "merci")]);
  ("goodbye", [("tr", "hoşça kal"); ("es", "adiós"); ("fr", "au revoir")])
].

(** [mockTranslate].  The two lookups are modelled on the own keys of
    the literals, whose values are the strings returned: for a text that
    lower-cases to [constructor] or [__proto__], or a language code that
    names a member of [Object.prototype], the code finds an inherited
    member, which is no string; that case is left out. *)
Definition mockTranslate (text : string) (sourceLanguage targetLanguage : Language)
  : MlService.TranslationResult :=
  let lowerText := LanguageDetection.trim (LanguageDetection.toLowerCase text) in
  let translatedText :=
    match Catalog.table_get mockTranslations lowerText with
    | Some phrases =>
        match Catalog.table_get phrases (code targetLanguage) with
        | Some t => if String.eqb t "" then None else Some t
        | None => None
        end
    | None => None
    end in
  {| MlService.translatedText :=
       match translatedText with
       | Some t => t
       | None => "[" +:+ name targetLanguage +:+ "] " +:+ text
       end;
     MlService.modelId := "mock";
     MlService.confidence := Some 0.1;
     MlService.timeTaken := Some 10%Z;
     MlService.alternatives := Some [] |}.

(** [downloadModel] of the translation service up to its first
    [await]: the status is set to downloading and the model manager is
    asked for the model. *)
Definition downloadModel_begin (sourceCode targetCode : string)
  (svc : TranslationService)
  : outcome ModelManager.exn (list effect) * TranslationService :=
  match Catalog.getModelIdForLanguagePair sourceCode targetCode with
  | None =>
      (Throw (ModelManager.JsError
                ("No model available for " +:+ sourceCode +:+ " to "
                 +:+ targetCode)),
       svc)
  | Some modelId =>
      (Ok [DownloadModel modelId],
       {| modelStatus :=
            <[modelId := {| isDownloaded := false; isDownloading := true;
                            downloadProgress := Some 0%float |}]> (modelStatus svc);
          fallbackToMock := fallbackToMock svc;
          initialized := initialized svc |})
  end.

Definition history (text : string) (result : MlService.TranslationResult)
  (sourceLanguage targetLanguage : Language) (modelId : string)
  (detectionConfidence : option float) : effect :=
  AddTranslation
    {| originalText := text;
       h_translatedText := MlService.translatedText result;
       sourceLanguage := sourceLanguage;
       targetLanguage := targetLanguage;
       h_modelId := Some modelId;
       translationConfidence := MlService.confidence result;
       detectionConfidence := detectionConfidence |}.

(** The service once [initialize] has run, and the source language
    [translate] works with: the one given, or the one detected, with the
    confidence of the detection. *)
Definition ready (env : Services) (svc : TranslationService)
  : TranslationService :=
  if initialized svc then svc else initialize env svc.

Definition resolveSourceLanguage (env : Services) (text : string)
  (sourceLanguageInput : option Language) : Language * option float :=
  match sourceLanguageInput with
  | None =>
      let detectionResult := detect env text in
      (LanguageDetection.detectedLanguage detectionResult,
       Some (LanguageDetection.confidence detectionResult))
  | Some sourceLanguage => (sourceLanguage, None)
  end.

(** [translate]: what the caller gets, what was set off on the way, and
    the service afterwards. *)
Definition translate (env : Services) (text : string)
  (sourceLanguageInput : option Language) (targetLanguage : Language)
  (options : TranslationOptions) (svc : TranslationService)
  : outcome ModelManager.exn MlService.TranslationResult
    * list effect * TranslationService :=
  let svc := ready env svc in
  let '(sourceLanguage, detectionConfidence) :=
    resolveSourceLanguage env text sourceLanguageInput in
  match Catalog.getModelIdForLanguagePair (code sourceLanguage)
          (code targetLanguage) with
  | None =>
      let mockResult := mockTranslate text sourceLanguage targetLanguage in
      (Ok mockResult,
       [history text mockResult sourceLanguage targetLanguage
          "mock_no_model_config" detectionConfidence],
       svc)
  | Some modelId =>
      let modelStatus := modelStatus svc !! modelId in
      if negb (match modelStatus with
               | Some s => isDownloaded s | None => false end)
      then
        let '(started, svc) :=
          if negb (match modelStatus with
                   | Some s => isDownloading s | None => false end)
             && negb (match useOfflineOnly options with
                      | Some b => b | None => false end)
          then
            match downloadModel_begin (code sourceLanguage)
                    (code targetLanguage) svc with
            | (Ok started, svc) => (started, svc)
            | (Throw _, svc) => ([], svc)   (* a rejection nobody awaits *)
            end
          else ([], svc) in
        let mockResult := mockTranslate text sourceLanguage targetLanguage in
        (Ok mockResult,
         started ++ [history text mockResult sourceLanguage targetLanguage
                       "mock_model_unavailable" detectionConfidence],
         svc)
      else
        match translateText env text (code sourceLanguage)
                (code targetLanguage) modelId with
        | Ok mlResult =>
            (Ok mlResult,
             [history text mlResult sourceLanguage targetLanguage
                (MlService.modelId mlResult) detectionConfidence],
             svc)
        | Throw error =>
            if fallbackToMock svc then
              let mockResult :=
                mockTranslate text sourceLanguage targetLanguage in
              (Ok mockResult,
               [history text mockResult sourceLanguage targetLanguage
                  (MlService.modelId mockResult) detectionConfidence],
               svc)
            else (Throw error, [], svc)
        end
  end.

(** *** Notions the properties are stated with *)

(** Whether the service holds the model as downloaded, or as being
    downloaded. *)
Definition resident (svc : TranslationService) (modelId : string) : bool :=
  match modelStatus svc !! modelId with
  | Some s => isDownloaded s
  | None => false
  end.

Definition downloading (svc : TranslationService) (modelId : string) : bool :=
  match modelStatus svc !! modelId with
  | Some s => isDownloading s
  | None => false
  end.

Definition offlineOnly (options : TranslationOptions) : bool :=
  match useOfflineOnly options with
  | Some b => b
  | None => false
  end.

(** The services of a first start and of a later start on which the
    model fails at inference, with English and Turkish as the languages
    of the application. *)
Definition first_start : Services :=
  {| getAvailableModels :=
       map snd (ModelManager.models
                  (ModelManager.started ModelManager.fresh_install));
     detect := fun text =>
       fst (LanguageDetection.detectLanguage LanguageDetection.english
              [LanguageDetection.turkish] LanguageDetection.undetermined text);
     translateText :=
       @MlService.translateText MlService.linear_JsMath
         MlService.single_output |}.

Definition inference_fails : MlService.Runtime :=
  {| MlService.loadModel_reply := fun _ => Ok tt;
     MlService.tokenize_reply := fun _ => Ok tt;
     MlService.runInference_reply := fun _ =>
       Throw (ModelManager.JsError "Error during model inference");
     MlService.elapsed := 5 |}.

Definition failing_inference : Services :=
  {| getAvailableModels :=
       map snd (ModelManager.models
                  (ModelManager.started ModelManager.all_installed));
     detect := detect first_start;
     translateText :=
       @MlService.translateText MlService.linear_JsMath inference_fails |}.

End TranslationService.

(* ===================================================================== *)
(** ** services/modelManager.ts: access to the models *)
(* ===================================================================== *)

Module ModelAccess.
Import Js ModelManager.

Definition no_local_path (modelId : string) : exn :=
  JsError ("Model " +:+ modelId
           +:+ " has no local path. It may not be downloaded yet.").

(** [getModel], taken together with the download it may await. *)
Definition getModel (modelId : string) (forceDownload : bool) (fs : FsReply)
  (st : ModelManager) : outcome exn ModelInfo * list FsCall * ModelManager :=
  match map_get (models st) modelId with
  | None => (Throw (not_found modelId), [], st)
  | Some modelInfo =>
      if negb (Model.isDownloaded modelInfo) || forceDownload
      then downloadModel modelId fs st
      else (Ok modelInfo, [], st)
  end.

Definition getModelPath (modelId : string) (fs : FsReply) (st : ModelManager)
  : outcome exn string * list FsCall * ModelManager :=
  match getModel modelId false fs st with
  | (Ok modelInfo, calls, st) =>
      match Model.localPath modelInfo with
      | Some localPath =>
          if truthy_string (Some localPath) then (Ok localPath, calls, st)
          else (Throw (no_local_path modelId), calls, st)
      | None => (Throw (no_local_path modelId), calls, st)
      end
  | (Throw e, calls, st) => (Throw e, calls, st)
  end.

(** The entry [checkForUpdates] writes back for one model. *)
Definition checked (modelId : string) (modelInfo : ModelInfo) (now : Z)
  : ModelInfo :=
  {| Model.id := modelId;
     Model.name := Model.name modelInfo;
     Model.url := Model.url modelInfo;
     Model.version := Model.version modelInfo;
     Model.localPath := Model.localPath modelInfo;
     Model.isDownloaded := Model.isDownloaded modelInfo;
     Model.downloadProgress := Model.downloadProgress modelInfo;
     Model.downloadJobId := Model.downloadJobId modelInfo;
     Model.lastChecked := Some now;
     Model.priority := Model.priority modelInfo;
     Model.downloadSize := Model.downloadSize modelInfo;
     Model.usageCount := Model.usageCount modelInfo;
     Model.lastUsed := Model.lastUsed modelInfo |}.

(** [checkForUpdates]: the [forEach] over the entries the map held when
    it was called. *)
Fixpoint checkForUpdates_loop (entries : list (string * ModelInfo))
  (st : ModelManager) : ModelManager :=
  match entries with
  | [] => st
  | (modelId, modelInfo) :: entries' =>
      checkForUpdates_loop entries'
        (set_models
           (map_set (models st) modelId (checked modelId modelInfo (clock st)))
           (tick st))
  end.

Definition checkForUpdates (st : ModelManager) : ModelManager :=
  checkForUpdates_loop (models st) st.

Definition getAvailableModels (st : ModelManager) : list ModelInfo :=
  map snd (models st).

(** *** Notions the properties are stated with *)

Definition keys (st : ModelManager) : list string := map fst (models st).

Definition queued (st : ModelManager) : list string :=
  map Item.modelId (downloadQueue st).

(** An entry is filed under its own id. *)
Definition filed (entry : string * ModelInfo) : Prop :=
  Model.id (snd entry) = fst entry.

(** A suspended download that waits for the file system is for a model
    of [known], and the entry it found carries the id of the model. *)
Definition task_known (known : list string) (t : task) : Prop :=
  match t with
  | AwaitDownload modelId (Fetching modelConfig) =>
      In modelId known /\ Model.id modelConfig = modelId
  | _ => True
  end.

Definition models_inv (known : list string) (st : ModelManager) : Prop :=
  keys st = known
  /\ Forall filed (models st)
  /\ Forall (task_known known) (suspended st).

(** The entries of [checkForUpdates], dated from [now] on. *)
Fixpoint stamped (now : Z) (entries : list (string * ModelInfo))
  : list (string * ModelInfo) :=
  match entries with
  | [] => []
  | (modelId, modelInfo) :: entries' =>
      (modelId, checked modelId modelInfo now) :: stamped (now + 1) entries'
  end.

Definition is_check (t : task) : Prop :=
  match t with
  | AwaitStorageCheck _ _ => True
  | AwaitDownload _ _ => False
  end.

(** The resumptions of suspended invocations, and the progress
    callbacks of the downloads that are under way. *)
Definition is_resumption (ev : event) : Prop :=
  match ev with
  | StorageChecked _ _ | DownloadProgressed _ _ | DownloadSettled _ _ => True
  | _ => False
  end.

(** [st2] differs from [st] in the queue and in storage checks that
    were suspended in between, and in nothing else. *)
Definition queue_step (st st2 : ModelManager) : Prop :=
  models st2 = models st
  /\ modelDir st2 = modelDir st
  /\ activeDownloads st2 = activeDownloads st
  /\ progressiveOptions st2 = progressiveOptions st
  /\ exists checks,
       suspended st2 = suspended st ++ checks /\ Forall is_check checks.

(** No model is queued twice. *)
Definition queue_unique (st : ModelManager) : Prop := List.NoDup (queued st).

(** Every active download has a suspended invocation that will take it
    out of the active set. *)
Definition backed (st : ModelManager) : Prop :=
  forall modelId,
    modelId ∈ activeDownloads st ->
    exists call, In (AwaitDownload modelId call) (suspended st).

(** [st2] has the active set of [st] and its suspended invocations,
    with storage checks added at most. *)
Definition sched_step (st st2 : ModelManager) : Prop :=
  activeDownloads st2 = activeDownloads st
  /\ exists checks,
       suspended st2 = suspended st ++ checks /\ Forall is_check checks.

(** An entry that has been taken off the queue and waits for its
    storage check. *)
Definition pending_check (modelId : string) (st : ModelManager) : Prop :=
  exists maxC item,
    In (AwaitStorageCheck maxC item) (suspended st)
    /\ Item.modelId item = modelId.

(** The state after [pauseProgressiveDownloading], as far as admission
    goes: nothing is queued, the storage checks are those of [st], and
    what is active was active in [st] or waited for its check there. *)
Definition paused_from (st st2 : ModelManager) : Prop :=
  downloadQueue st2 = []
  /\ (forall maxC item,
        In (AwaitStorageCheck maxC item) (suspended st2) ->
        In (AwaitStorageCheck maxC item) (suspended st))
  /\ (forall modelId,
        modelId ∈ activeDownloads st2 ->
        modelId ∈ activeDownloads st \/ pending_check modelId st).

(** The entry [requestModel] writes back: one more use, dated. *)
Definition used (model : ModelInfo) (now : Z) : ModelInfo :=
  {| Model.id := Model.id model;
     Model.name := Model.name model;
     Model.url := Model.url model;
     Model.version := Model.version model;
     Model.localPath := Model.localPath model;
     Model.isDownloaded := Model.isDownloaded model;
     Model.downloadProgress := Model.downloadProgress model;
     Model.downloadJobId := Model.downloadJobId model;
     Model.lastChecked := Model.lastChecked model;
     Model.priority := Model.priority model;
     Model.downloadSize := Model.downloadSize model;
     Model.usageCount := Some (or_default (Model.usageCount model) 0 + 1);
     Model.lastUsed := Some now |}.

(** The model is on its way to a download: queued, or taken off the
    queue for its storage check, or active. *)
Definition scheduled (modelId : string) (st : ModelManager) : Prop :=
  In modelId (queued st)
  \/ modelId ∈ activeDownloads st
  \/ exists maxC item,
       In (AwaitStorageCheck maxC item) (suspended st)
       /\ Item.modelId item = modelId.

(** The same, with the priority of the entry. *)
Definition scheduled_with (modelId : string) (priority : Z)
  (st : ModelManager) : Prop :=
  (exists item,
      In item (downloadQueue st)
      /\ Item.modelId item = modelId /\ Item.priority item = priority)
  \/ exists maxC item,
       In (AwaitStorageCheck maxC item) (suspended st)
       /\ Item.modelId item = modelId /\ Item.priority item = priority.

(** Whether the file system lets a download through. *)
Definition fetch_succeeds (fs : FsReply) : bool :=
  match exists_reply fs with
  | Ok true => match downloadFile_reply fs with Ok _ => true | Throw _ => false end
  | Ok false =>
      match mkdir_reply fs, downloadFile_reply fs with
      | Ok _, Ok _ => true
      | _, _ => false
      end
  | Throw _ => false
  end.

(** The progress reports a download makes: those of [downloadFile],
    when the call gets that far. *)
Definition fetch_reports (fs : FsReply) : list (float * float) :=
  match exists_reply fs with
  | Ok true => downloadFile_progress fs
  | Ok false =>
      match mkdir_reply fs with
      | Ok _ => downloadFile_progress fs
      | Throw _ => []
      end
  | Throw _ => []
  end.

(** The manager once the progress callback of the download of [modelId]
    has run on [reports]: the entry is the captured [modelConfig] with
    the progress of the last report. *)
Definition reported (modelId : string) (modelConfig : ModelInfo)
  (reports : list (float * float)) (st : ModelManager) : ModelManager :=
  match last reports with
  | Some res =>
      set_models
        (map_set (models st) modelId
           (progressed modelConfig (fst res / snd res)%float)) st
  | None => st
  end.

(** The entry [downloadModel] files when the download is through. *)
Definition downloaded (modelId : string) (modelConfig : ModelInfo)
  (modelDir : string) (now : Z) : ModelInfo :=
  {| Model.id := modelId;
     Model.name := Model.name modelConfig;
     Model.url := Model.url modelConfig;
     Model.version := Model.version modelConfig;
     Model.localPath := Some ((modelDir +:+ "/" +:+ modelId) +:+ "/model.json");
     Model.isDownloaded := true;
     Model.downloadProgress := Some 1%float;
     Model.downloadJobId := Model.downloadJobId modelConfig;
     Model.lastChecked := Some now;
     Model.priority := Model.priority modelConfig;
     Model.downloadSize := Model.downloadSize modelConfig;
     Model.usageCount := Model.usageCount modelConfig;
     Model.lastUsed := Model.lastUsed modelConfig |}.

(** The entry [deleteModel] files when the removal is through. *)
Definition deleted (modelId : string) (modelInfo : ModelInfo) : ModelInfo :=
  {| Model.id := modelId;
     Model.name := Model.name modelInfo;
     Model.url := Model.url modelInfo;
     Model.version := Model.version modelInfo;
     Model.localPath := None;
     Model.isDownloaded := false;
     Model.downloadProgress := None;
     Model.downloadJobId := Model.downloadJobId modelInfo;
     Model.lastChecked := Model.lastChecked modelInfo;
     Model.priority := Model.priority modelInfo;
     Model.downloadSize := Model.downloadSize modelInfo;
     Model.usageCount := Model.usageCount modelInfo;
     Model.lastUsed := Model.lastUsed modelInfo |}.

End ModelAccess.

(* ===================================================================== *)
(** ** services/mlService.ts: loading a model *)
(* ===================================================================== *)

Module ModelLoader.
Import Js.

Section Loader.
(** The model objects of the tensor runtime. *)
Context {GraphModel : Type}.

(** [activeModels] is an object literal, [{}], used as a table: the
    models stored are its own properties. *)
Record MlState := {
  isTfReady : bool;
  activeModels : gmap string GraphModel
}.

(** What [this.activeModels[modelId]] can be: a model stored, or, for a
    name under which none is stored, the member of that name the table
    inherits from [Object.prototype]. *)
Inductive loaded :=
| Model (model : GraphModel)
| Member (name : string).

Definition activeModels_get (st : MlState) (modelId : string)
  : option loaded :=
  match activeModels st !! modelId with
  | Some model => Some (Model model)
  | None => if inherited modelId then Some (Member modelId) else None
  end.

Inductive LoaderCall :=
| TfReady
| GetRegisteredBackends
| GetBackend
| GetModel (modelId : string)
| LoadGraphModel (url : string).

(** What [tf.ready], the two readings of the backends that follow it,
    [modelManager.getModel], [tf.loadGraphModel] and the reading of the
    loaded model's shapes answer. *)
Record LoaderReply := {
  tf_ready_reply : outcome ModelManager.exn unit;
  getRegisteredBackends_reply : outcome ModelManager.exn unit;
  getBackend_reply : outcome ModelManager.exn unit;
  getModel_reply : outcome ModelManager.exn ModelManager.Model.ModelInfo;
  loadGraphModel_reply : outcome ModelManager.exn GraphModel;
  shapes_reply : outcome ModelManager.exn unit
}.

Definition failed_to_initialize : ModelManager.exn :=
  ModelManager.JsError "Failed to initialize TensorFlow.js backend".

Definition failed_to_load (modelId : string) : ModelManager.exn :=
  ModelManager.JsError ("Failed to load model " +:+ modelId).

(** [initializeTf]: the flag is set as soon as [tf.ready] has resolved,
    before the backends are read, and every error of the [try] block is
    replaced by one message. *)
Definition initializeTf (r : LoaderReply) (st : MlState)
  : outcome ModelManager.exn unit * list LoaderCall * MlState :=
  match tf_ready_reply r with
  | Throw _ => (Throw failed_to_initialize, [TfReady], st)
  | Ok _ =>
      let st := {| isTfReady := true; activeModels := activeModels st |} in
      match getRegisteredBackends_reply r with
      | Throw _ =>
          (Throw failed_to_initialize, [TfReady; GetRegisteredBackends], st)
      | Ok _ =>
          match getBackend_reply r with
          | Throw _ =>
              (Throw failed_to_initialize,
               [TfReady; GetRegisteredBackends; GetBackend], st)
          | Ok _ => (Ok tt, [TfReady; GetRegisteredBackends; GetBackend], st)
          end
      end
  end.

Definition ensureTfReady (r : LoaderReply) (st : MlState)
  : outcome ModelManager.exn unit * list LoaderCall * MlState :=
  if isTfReady st then (Ok tt, [], st) else initializeTf r st.

(** The [try] block of [loadModel]: every error in it is replaced by
    one message.  The assignment [this.activeModels[modelId] = model]
    makes the model an own property of the table, except under the name
    [__proto__], where it replaces the prototype of the table instead;
    what the table holds from then on depends on the members of the
    model object, and the embedding does not follow it: the result is
    [None] there, and there only. *)
Definition loadModel_try (modelId : string) (r : LoaderReply)
  (calls : list LoaderCall) (st : MlState)
  : option (outcome ModelManager.exn loaded * list LoaderCall * MlState) :=
  match getModel_reply r with
  | Throw _ =>
      Some (Throw (failed_to_load modelId), calls ++ [GetModel modelId], st)
  | Ok modelInfo =>
      match ModelManager.Model.localPath modelInfo with
      | Some localPath =>
          if truthy_string (Some localPath) then
            let calls :=
              calls ++ [GetModel modelId;
                        LoadGraphModel ("file://" +:+ localPath)] in
            match loadGraphModel_reply r with
            | Throw _ => Some (Throw (failed_to_load modelId), calls, st)
            | Ok model =>
                if String.eqb modelId "__proto__" then None
                else
                  let st :=
                    {| isTfReady := isTfReady st;
                       activeModels :=
                         <[modelId := model]> (activeModels st) |} in
                  match shapes_reply r with
                  | Ok _ => Some (Ok (Model model), calls, st)
                  | Throw _ => Some (Throw (failed_to_load modelId), calls, st)
                  end
            end
          else
            Some (Throw (failed_to_load modelId), calls ++ [GetModel modelId],
                  st)
      | None =>
          Some (Throw (failed_to_load modelId), calls ++ [GetModel modelId],
                st)
      end
  end.

Definition loadModel (modelId : string) (forceReload : bool)
  (r : LoaderReply) (st : MlState)
  : option (outcome ModelManager.exn loaded * list LoaderCall * MlState) :=
  match ensureTfReady r st with
  | (Throw e, calls, st) => Some (Throw e, calls, st)
  | (Ok _, calls, st) =>
      match activeModels_get st modelId with
      | Some found =>
          if negb forceReload then Some (Ok found, calls, st)
          else loadModel_try modelId r calls st
      | None => loadModel_try modelId r calls st
      end
  end.

End Loader.
Arguments MlState : clear implicits.
Arguments loaded : clear implicits.
Arguments LoaderReply : clear implicits.

End ModelLoader.


(* ===================================================================== *)
(** ** services/languageDetectionService.ts: notions for the properties *)
(* ===================================================================== *)

Module DetectedLanguages.
Import LanguageDetection.
Local Open Scope float_scope.

(** What an entry of the alternatives satisfies: a language of the
    list, other than the primary one, with a capped confidence. *)
Definition alternative_of (languages : list Language) (primaryCode : string)
  (alt : Language * float) : Prop :=
  In (fst alt) languages
  /\ code (fst alt) <> primaryCode
  /\ (is_nan (snd alt) = true \/ (snd alt <=? 0.9) = true).

End DetectedLanguages.

(* ===================================================================== *)
(** ** services/translationService.ts: the status of the models *)
(* ===================================================================== *)

Module ModelStatusTable.
Import Js TranslationService.

(** [downloadModel] of the translation service from the point where the
    model manager's download has settled. *)
Definition downloadModel_end (modelId : string)
  (reply : outcome ModelManager.exn ModelManager.Model.ModelInfo)
  (svc : TranslationService) : outcome ModelManager.exn unit * TranslationService :=
  match reply with
  | Ok _ =>
      (Ok tt,
       {| modelStatus :=
            <[modelId := {| isDownloaded := true; isDownloading := false;
                            downloadProgress := Some 1%float |}]> (modelStatus svc);
          fallbackToMock := fallbackToMock svc;
          initialized := initialized svc |})
  | Throw error =>
      (Throw error,
       {| modelStatus :=
            <[modelId := {| isDownloaded := false; isDownloading := false;
                            downloadProgress := None |}]> (modelStatus svc);
          fallbackToMock := fallbackToMock svc;
          initialized := initialized svc |})
  end.

Definition isModelDownloaded (sourceCode targetCode : string)
  (svc : TranslationService) : bool :=
  match Catalog.getModelIdForLanguagePair sourceCode targetCode with
  | None => false
  | Some modelId =>
      match modelStatus svc !! modelId with
      | Some status => isDownloaded status || false
      | None => false
      end
  end.

Definition getModelStatus (sourceCode targetCode : string)
  (svc : TranslationService) : option ModelStatus :=
  match Catalog.getModelIdForLanguagePair sourceCode targetCode with
  | None => None
  | Some modelId => modelStatus svc !! modelId
  end.

End ModelStatusTable.

(* ===================================================================== *)
(** ** services/translationHistoryService.ts *)
(* ===================================================================== *)

(** The methods are modelled for calls that are awaited one after the
    other: each runs to its end on the answers the file system gives
    it.  The text of the history file is modelled by the list of items
    it denotes. *)
Module TranslationHistory.
Import Js.
Import LanguageDetection (Language).

Record TranslationHistoryItem := {
  id : string;
  originalText : string;
  translatedText : string;
  sourceLanguage : Language;
  targetLanguage : Language;
  timestamp : Z;
  isFavorite : bool;
  modelId : option string;
  translationConfidence : option PrimFloat.float;
  detectionConfidence : option PrimFloat.float;
  qualityFeedback : option PrimFloat.float
}.

(** An item without [id], [timestamp] and [isFavorite]. *)
Record ItemDetails := {
  d_originalText : string;
  d_translatedText : string;
  d_sourceLanguage : Language;
  d_targetLanguage : Language;
  d_modelId : option string;
  d_translationConfidence : option PrimFloat.float;
  d_detectionConfidence : option PrimFloat.float;
  d_qualityFeedback : option PrimFloat.float
}.

Record TranslationHistoryService := {
  history : list TranslationHistoryItem;
  isLoaded : bool
}.

Inductive HistoryCall :=
| Exists
| ReadFile
| WriteFile (content : list TranslationHistoryItem).

(** What the file system answers: whether the history file exists, its
    parsed content (a text that does not parse is an error), and how
    the write settles. *)
Record HistoryFs := {
  exists_reply : outcome ModelManager.exn bool;
  readFile_reply : outcome ModelManager.exn (list TranslationHistoryItem);
  writeFile_reply : outcome ModelManager.exn unit
}.

Definition set_isFavorite (isFavorite : bool) (item : TranslationHistoryItem)
  : TranslationHistoryItem :=
  {| id := id item; originalText := originalText item;
     translatedText := translatedText item;
     sourceLanguage := sourceLanguage item;
     targetLanguage := targetLanguage item;
     timestamp := timestamp item; isFavorite := isFavorite;
     modelId := modelId item;
     translationConfidence := translationConfidence item;
     detectionConfidence := detectionConfidence item;
     qualityFeedback := qualityFeedback item |}.

Definition _loadHistoryFromFile (fs : HistoryFs)
  (st : TranslationHistoryService)
  : list HistoryCall * TranslationHistoryService :=
  match exists_reply fs with
  | Ok true =>
      match readFile_reply fs with
      | Ok content =>
          ([Exists; ReadFile], {| history := content; isLoaded := true |})
      | Throw _ => ([Exists; ReadFile], {| history := []; isLoaded := true |})
      end
  | Ok false => ([Exists], {| history := []; isLoaded := true |})
  | Throw _ => ([Exists], {| history := []; isLoaded := true |})
  end.

Definition _ensureLoaded (fs : HistoryFs) (st : TranslationHistoryService)
  : list HistoryCall * TranslationHistoryService :=
  if negb (isLoaded st) then _loadHistoryFromFile fs st else ([], st).

(** [_saveHistoryToFile]: a failing write is logged and nothing else. *)
Definition _saveHistoryToFile (fs : HistoryFs)
  (st : TranslationHistoryService)
  : list HistoryCall * TranslationHistoryService :=
  match writeFile_reply fs with
  | Ok _ => ([WriteFile (history st)], st)
  | Throw _ => ([WriteFile (history st)], st)
  end.

(** The comparator [(a, b) => b.timestamp - a.timestamp]. *)
Definition newest_first (a b : TranslationHistoryItem) : bool :=
  timestamp b - timestamp a >? 0.

(** [slice(0, count)] for an integer [count]. *)
Definition slice_0 {A} (l : list A) (count : Z) : list A :=
  if count <? 0
  then firstn (Z.to_nat (Z.max 0 (Z.of_nat (length l) + count))) l
  else firstn (Z.to_nat count) l.

(** [getHistory]; [None] is the call without a count. *)
Definition getHistory (count : option Z) (fs : HistoryFs)
  (st : TranslationHistoryService)
  : list TranslationHistoryItem * list HistoryCall * TranslationHistoryService :=
  let '(calls, st) := _ensureLoaded fs st in
  let sortedHistory := sort newest_first (history st) in
  (match count with
   | Some count =>
       if negb (count =? 0) then slice_0 sortedHistory count else sortedHistory
   | None => sortedHistory
   end, calls, st).

(** [addTranslation]; [newId] is the id made from the clock and the
    random number, [now] the second reading of the clock. *)
Definition addTranslation (itemDetails : ItemDetails) (newId : string)
  (now : Z) (fs : HistoryFs) (st : TranslationHistoryService)
  : TranslationHistoryItem * list HistoryCall * TranslationHistoryService :=
  let '(calls, st) := _ensureLoaded fs st in
  let newItem :=
    {| id := newId;
       originalText := d_originalText itemDetails;
       translatedText := d_translatedText itemDetails;
       sourceLanguage := d_sourceLanguage itemDetails;
       targetLanguage := d_targetLanguage itemDetails;
       timestamp := now;
       isFavorite := false;
       modelId := d_modelId itemDetails;
       translationConfidence := d_translationConfidence itemDetails;
       detectionConfidence := d_detectionConfidence itemDetails;
       qualityFeedback := d_qualityFeedback itemDetails |} in
  let st := {| history := newItem :: history st; isLoaded := isLoaded st |} in
  let '(saved, st) := _saveHistoryToFile fs st in
  (newItem, calls ++ saved, st).

Fixpoint findIndex {A} (p : A -> bool) (l : list A) : option nat :=
  match l with
  | [] => None
  | a :: l' => if p a then Some O else option_map S (findIndex p l')
  end.

Definition toggleFavorite (itemId : string) (fs : HistoryFs)
  (st : TranslationHistoryService)
  : option TranslationHistoryItem * list HistoryCall
    * TranslationHistoryService :=
  let '(calls, st) := _ensureLoaded fs st in
  match findIndex (fun item => String.eqb (id item) itemId) (history st) with
  | Some itemIndex =>
      let st :=
        {| history :=
             alter (fun item => set_isFavorite (negb (isFavorite item)) item)
               itemIndex (history st);
           isLoaded := isLoaded st |} in
      let '(saved, st) := _saveHistoryToFile fs st in
      (history st !! itemIndex, calls ++ saved, st)
  | None => (None, calls, st)
  end.

Definition deleteTranslation (itemId : string) (fs : HistoryFs)
  (st : TranslationHistoryService)
  : list HistoryCall * TranslationHistoryService :=
  let '(calls, st) := _ensureLoaded fs st in
  let initialLength := length (history st) in
  let st :=
    {| history :=
         List.filter (fun item => negb (String.eqb (id item) itemId))
           (history st);
       isLoaded := isLoaded st |} in
  if Nat.ltb (length (history st)) initialLength then
    let '(saved, st) := _saveHistoryToFile fs st in
    (calls ++ saved, st)
  else (calls, st).

Definition getFavorites (fs : HistoryFs) (st : TranslationHistoryService)
  : list TranslationHistoryItem * list HistoryCall * TranslationHistoryService :=
  let '(calls, st) := _ensureLoaded fs st in
  (sort newest_first (List.filter isFavorite (history st)), calls, st).

(** *** Notions the properties are stated with *)

(** [a] is at least as recent as [b]. *)
Definition not_older (a b : TranslationHistoryItem) : Prop :=
  timestamp b <= timestamp a.

End TranslationHistory.

(* ===================================================================== *)
(** * Properties *)
(* ===================================================================== *)

(** ** The priority score *)

Section PriorityScore.
Import Js Catalog.

Lemma or_default_popularity lang :
  or_default (table_get languagePopularity lang) 10 = popularity lang.
Proof.
  unfold popularity, languagePopularity, table_get, or_default.
  repeat (destruct (String.eqb _ lang); [reflexivity|]). reflexivity.
Qed.

Lemma Math_round_half (a k : Z) :
  Math_round (inject_Z a / 2 + inject_Z k)%Q = (a + 2 * k + 1) / 2.
Proof.
  unfold Math_round, Qfloor, Qplus, Qdiv, Qmult, Qinv, inject_Z. simpl.
  change (Z.pos (1 * 2 * 1 * 2)) with (2 * 2).
  change (Z.pos (1 * 2 * 1)) with 2. change (Z.pos (1 * 2)) with 2.
  replace ((a * 1 * 1 + k * 2) * 2 + 1 * 2) with ((a + 2 * k + 1) * 2) by lia.
  apply Z.div_mul_cancel_r; lia.
Qed.

Lemma Math_round_comp (x y : Q) : (x == y)%Q -> Math_round x = Math_round y.
Proof.
  intros E. unfold Math_round. apply Qfloor_comp. rewrite E. reflexivity.
Qed.

Lemma size_penalty (size : Z) :
  (or_default (Some size) 15 * 1024 * 1024 >? 50 * 1024 * 1024)
  = (size * MB >? 50 * MB).
Proof.
  unfold or_default, MB.
  destruct (Z.eqb_spec size 0) as [->|Hne]; [reflexivity|].
  destruct (Z.gtb_spec (size * 1024 * 1024) (50 * 1024 * 1024));
    destruct (Z.gtb_spec (size * (1024 * 1024)) (50 * (1024 * 1024))); lia.
Qed.

Lemma inherited_unlisted lang :
  inherited lang = true -> table_get languagePopularity lang = None.
Proof.
  unfold inherited, Object_prototype. cbn [existsb].
  rewrite !orb_true_iff. intros H.
  repeat (destruct H as [H|H]);
    try discriminate; apply String.eqb_eq in H; subst lang; reflexivity.
Qed.

Lemma popularity_or_default_spec lang :
  popularity_or_default lang
  = if inherited lang then None else Some (popularity lang).
Proof.
  unfold popularity_or_default. destruct (inherited lang) eqn:E.
  - now rewrite (inherited_unlisted _ E).
  - pose proof (or_default_popularity lang) as H. unfold popularity in *.
    destruct (table_get languagePopularity lang); congruence.
Qed.

Lemma calculateModelPriority_refines config :
  inherited (srcLang config) || inherited (targetLang config) = false ->
  calculateModelPriority config
  = Num (priority_spec (srcLang config) (targetLang config)
           (size config * MB)).
Proof.
  intros H. apply orb_false_iff in H as [Hs Ht].
  unfold calculateModelPriority, priority_spec.
  rewrite !popularity_or_default_spec, Hs, Ht. rewrite size_penalty.
  set (a := popularity (srcLang config) + popularity (targetLang config)).
  destruct (size config * MB >? 50 * MB);
    destruct (String.eqb (srcLang config) "en"
              || String.eqb (targetLang config) "en");
    do 2 f_equal.
  - rewrite (Math_round_comp _ (inject_Z a / 2 + inject_Z 10)%Q).
    + rewrite Math_round_half. f_equal; lia.
    + change (inject_Z 10) with 10%Q. ring.
  - rewrite (Math_round_comp _ (inject_Z a / 2 + inject_Z (-10))%Q).
    + rewrite Math_round_half. f_equal; lia.
    + change (inject_Z (-10)) with (-10)%Q. ring.
  - rewrite (Math_round_comp _ (inject_Z a / 2 + inject_Z 20)%Q).
    + rewrite Math_round_half. f_equal; lia.
    + reflexivity.
  - rewrite (Math_round_comp _ (inject_Z a / 2 + inject_Z 0)%Q).
    + rewrite Math_round_half. f_equal; lia.
    + change (inject_Z 0) with 0%Q. ring.
Qed.

Lemma calculateModelPriority_inherited config :
  inherited (srcLang config) || inherited (targetLang config) = true ->
  calculateModelPriority config = NaN.
Proof.
  intros H. unfold calculateModelPriority.
  rewrite !popularity_or_default_spec.
  destruct (inherited (srcLang config)); [reflexivity|].
  change (inherited (targetLang config) = true) in H. now rewrite H.
Qed.


End PriorityScore.

(** ** The confidence of a translation *)

Section TranslationConfidence.
Import Js MlService.
Context `{JsMath}.
Local Open Scope float_scope.

Lemma softmax_single : softmax [65] = [1].
Proof.
  unfold softmax. cbn [map fold_left].
  change (Math_max [65]) with 65.
  change (65 - 65) with 0.
  rewrite Math_exp_zero. reflexivity.
Qed.

Lemma confidence_single : calculateTranslationConfidence (Some [65]) = nan.
Proof.
  unfold calculateTranslationConfidence. rewrite softmax_single.
  cbn [fold_left number_of_length length Nat.iter].
  change (0 + 1) with 1.
  change (1 * Math_max2 1 0.001) with 1.
  change (1 / 1) with 1. change (0 <? 1) with true. cbv iota.
  rewrite Math_pow_one_one.
  change (number_of_length [1]) with 1.
  rewrite !Math_log_one. reflexivity.
Qed.

(** C3. When the model's output vector has length one, the confidence
    [translateText] returns is NaN: it is a number, but it is neither at
    least 0 nor at most 1.  The entropy term divides by [Math.log(1)],
    which is 0. *)
Theorem translateText_confidence_single_output :
  exists result c,
    translateText single_output "A" "en" "tr" "en2tr-small" = Ok result
    /\ confidence result = Some c
    /\ is_nan c = true
    /\ (0 <=? c) = false
    /\ (c <=? 1) = false.
Proof.
  eexists. exists nan. split.
  - cbn -[calculateTranslationConfidence generateAlternativeTranslations decode].
    rewrite confidence_single. reflexivity.
  - repeat split.
Qed.

End TranslationConfidence.

(** ** The model manager *)

Section StableSort.
Import Js.
Context {A : Type} (after : A -> A -> bool).

Lemma Forall_sort_insert (P : A -> Prop) a l :
  P a -> Forall P l -> Forall P (sort_insert after a l).
Proof.
  intros Pa. induction 1 as [|b l Pb Pl IH]; simpl.
  - auto.
  - destruct (after a b); auto.
Qed.

Lemma Forall_sort (P : A -> Prop) l : Forall P l -> Forall P (sort after l).
Proof.
  induction 1 as [|a l Pa Pl IH]; simpl; [constructor|].
  now apply Forall_sort_insert.
Qed.

End StableSort.

Section Sortedness.
Context {A : Type}.

Lemma StronglySorted_snoc (R : A -> A -> Prop) l x :
  StronglySorted R l -> Forall (fun y => R y x) l ->
  StronglySorted R (l ++ [x]).
Proof.
  induction 1 as [|a l Hl IH Ha]; intros Hx; simpl.
  - repeat constructor.
  - inversion Hx; subst. constructor; [auto|].
    apply Forall_app; split; [exact Ha|]. now constructor.
Qed.

Lemma StronglySorted_weaken (R R' : A -> A -> Prop) l :
  (forall a b, R a b -> R' a b) -> StronglySorted R l -> StronglySorted R' l.
Proof.
  intros HR. induction 1 as [|a l Hl IH Ha]; constructor; [exact IH|].
  eapply Forall_impl; [exact Ha|]. auto.
Qed.

End Sortedness.

Section Manager.
Import Js ModelManager.

Lemma map_get_set_eq {V} (m : list (string * V)) k v :
  map_get (map_set m k v) k = Some v.
Proof.
  induction m as [|[k' v'] m IH]; simpl.
  - now rewrite String.eqb_refl.
  - destruct (String.eqb k' k) eqn:E; simpl.
    + now rewrite String.eqb_refl.
    + now rewrite E.
Qed.

(** *** Deletion *)

(** C10. When the removal from the file system throws, [deleteModel]
    throws the same error and leaves the manager as it was, so the model
    is still recorded as downloaded, with its path; and for a model that
    is unknown or not downloaded it returns at once, without a call to
    the file system and without a change. *)
Theorem deleteModel_atomic (modelId : string) (st : ModelManager) :
  (forall m e,
      map_get (models st) modelId = Some m ->
      Model.isDownloaded m = true ->
      truthy_string (Model.localPath m) = true ->
      deleteModel modelId (Throw e) st
      = (Throw e, [FsUnlink (modelDir st +:+ "/" +:+ modelId)], st))
  /\ (forall reply,
         map_get (models st) modelId = None
         \/ (exists m, map_get (models st) modelId = Some m
                       /\ Model.isDownloaded m = false) ->
         deleteModel modelId reply st = (Ok tt, [], st)).
Proof.
  split.
  - intros m e Hm Hd Hp. unfold deleteModel. rewrite Hm, Hd, Hp. reflexivity.
  - intros reply [Hn | [m [Hm Hd]]]; unfold deleteModel.
    + now rewrite Hn.
    + now rewrite Hm, Hd.
Qed.

Lemma deleteModel_atomic_witness :
  (exists m,
      map_get (models (started all_installed)) "en2tr-small" = Some m
      /\ Model.isDownloaded m = true
      /\ truthy_string (Model.localPath m) = true
      /\ deleteModel "en2tr-small" (Throw (JsError "EBUSY"))
           (started all_installed)
         = (Throw (JsError "EBUSY"),
            [FsUnlink (modelDir (started all_installed) +:+ "/"
                       +:+ "en2tr-small")],
            started all_installed))
  /\ deleteModel "en2tr-small" (Ok tt) (started fresh_install)
     = (Ok tt, [], started fresh_install)
  /\ deleteModel "xx2yy" (Ok tt) (started all_installed)
     = (Ok tt, [], started all_installed).
Proof.
  split; [|split].
  - eexists. split; [vm_compute; reflexivity|].
    split; [reflexivity|]. split; [reflexivity|].
    eapply (proj1 (deleteModel_atomic "en2tr-small" (started all_installed)));
      [vm_compute; reflexivity|reflexivity|reflexivity].
  - apply (proj2 (deleteModel_atomic "en2tr-small" (started fresh_install))).
    right. eexists. split; [vm_compute; reflexivity|reflexivity].
  - apply (proj2 (deleteModel_atomic "xx2yy" (started all_installed))).
    left. vm_compute. reflexivity.
Defined.

(** *** Urgent requests *)

(** C2, as stated, fails: with 490MB in use and a budget of 500MB, an
    urgent request for the 25MB model is not refused; the file is
    fetched and the model comes back downloaded. *)
Lemma urgent_request_ignores_quota :
  exists m calls st',
    maxStorageBytes (started fresh_install) = 500 * 1024 * 1024
    /\ wouldExceedStorageLimit (Ok (Some (490 * 1024 * 1024)))
         (25 * 1024 * 1024) (started fresh_install) = true
    /\ requestModel "en2tr-small" true fs_ok (started fresh_install)
       = (Ok m, calls, st')
    /\ Model.isDownloaded m = true
    /\ Model.downloadSize m = Some (25 * 1024 * 1024)
    /\ In (FsDownloadFile (Model.url m)
             "/documents/ml-models/en2tr-small/model.json") calls.
Proof.
  do 3 eexists.
  split; [reflexivity|]. split; [reflexivity|].
  split; [vm_compute; reflexivity|].
  split; [reflexivity|]. split; [reflexivity|].
  simpl. auto.
Qed.

(** The progress callback rewrites entries of the model map and
    nothing else. *)
Lemma downloadModel_progresses_frame modelId modelConfig reports st :
  let st2 := downloadModel_progresses modelId modelConfig reports st in
  modelDir st2 = modelDir st
  /\ downloadQueue st2 = downloadQueue st
  /\ activeDownloads st2 = activeDownloads st
  /\ progressiveOptions st2 = progressiveOptions st
  /\ suspended st2 = suspended st
  /\ clock st2 = clock st.
Proof.
  cbv zeta. revert st. induction reports as [|res reports IH]; intros st.
  - repeat split.
  - cbn [downloadModel_progresses fold_left].
    apply (IH (downloadModel_progress modelId modelConfig res st)).
Qed.

Lemma downloadModel_progresses_options modelId modelConfig reports o st :
  downloadModel_progresses modelId modelConfig reports
    (set_progressiveOptions o st)
  = set_progressiveOptions o
      (downloadModel_progresses modelId modelConfig reports st).
Proof.
  revert st. induction reports as [|res reports IH]; intros st;
    [reflexivity|].
  cbn [downloadModel_progresses fold_left].
  apply (IH (downloadModel_progress modelId modelConfig res st)).
Qed.

Lemma downloadModel_end_options modelId call fs o st :
  fst (downloadModel_end modelId call fs (set_progressiveOptions o st))
  = fst (downloadModel_end modelId call fs st).
Proof.
  unfold downloadModel_end. destruct call; try reflexivity.
  rewrite downloadModel_progresses_options.
  cbn [modelDir set_progressiveOptions clock].
  destruct (exists_reply fs) as [[|]|]; try reflexivity.
  - destruct (downloadFile_reply fs); reflexivity.
  - destruct (mkdir_reply fs); [|reflexivity].
    destruct (downloadFile_reply fs); reflexivity.
Qed.

Lemma requestModel_urgent_options modelId fs st options :
  fst (requestModel modelId true fs
         (configureProgressiveDownloading options st))
  = fst (requestModel modelId true fs st).
Proof.
  unfold requestModel, configureProgressiveDownloading.
  cbn [models set_progressiveOptions].
  destruct (map_get (models st) modelId) as [model|]; [|reflexivity].
  destruct (Model.isDownloaded model); [reflexivity|].
  unfold downloadModel.
  match goal with
  | |- fst (downloadModel_end _ _ _ (set_models ?m (tick ?s))) = _ =>
      change (set_models m (tick s))
        with (set_progressiveOptions
                (merge_options (progressiveOptions st) options)
                (set_models m (tick st)))
  end.
  rewrite downloadModel_end_options. reflexivity.
Qed.

(** C2, amended. An urgent request for a configured model that is not
    downloaded goes to the file system at once: no storage check is made
    (the usage of the storage is not even read).  The request settles as
    the download does: when it succeeds the file has been fetched and the
    model is recorded as downloaded, and when it fails the error is the
    one the file system threw. *)
Theorem urgent_request_downloads_at_once
  (modelId : string) (fs : FsReply) (st : ModelManager) (model : ModelInfo) :
  map_get (models st) modelId = Some model ->
  Model.isDownloaded model = false ->
  let modelDir' := modelDir st +:+ "/" +:+ modelId in
  let '(result, calls, st') := requestModel modelId true fs st in
  hd_error calls = Some (FsExists modelDir')
  /\ match result with
     | Ok m =>
         Model.isDownloaded m = true
         /\ In (FsDownloadFile (Model.url model) (modelDir' +:+ "/model.json"))
              calls
         /\ map_get (models st') modelId = Some m
     | Throw e =>
         exists_reply fs = Throw e \/ mkdir_reply fs = Throw e
         \/ downloadFile_reply fs = Throw e
     end
  /\ forall options,
       fst (requestModel modelId true fs
              (configureProgressiveDownloading options st))
       = (result, calls).
Proof.
  intros Hm Hd modelDir'. subst modelDir'.
  pose proof (requestModel_urgent_options modelId fs st) as Hopt.
  unfold requestModel in *. rewrite Hm, Hd in *.
  unfold downloadModel, downloadModel_begin in *.
  cbn [models set_models tick] in *.
  rewrite map_get_set_eq in *. cbn [Model.isDownloaded] in *.
  unfold downloadModel_end in *.
  cbn [modelDir set_models tick Model.url] in *.
  destruct (exists_reply fs) as [[|]|e] eqn:Ex.
  - destruct (downloadFile_reply fs) as [[]|e] eqn:Ed; cbn in *.
    + split; [reflexivity|]. split; [|exact Hopt].
      repeat split; [auto|]. apply map_get_set_eq.
    + split; [reflexivity|]. split; [auto|exact Hopt].
  - destruct (mkdir_reply fs) as [[]|e] eqn:Em.
    + destruct (downloadFile_reply fs) as [[]|e] eqn:Ed; cbn in *.
      * split; [reflexivity|]. split; [|exact Hopt].
        repeat split; [auto|]. apply map_get_set_eq.
      * split; [reflexivity|]. split; [auto|exact Hopt].
    + cbn in *. split; [reflexivity|]. split; [auto|exact Hopt].
  - cbn in *. split; [reflexivity|]. split; [auto|exact Hopt].
Qed.

Lemma urgent_request_downloads_at_once_witness :
  exists model,
    map_get (models (started fresh_install)) "en2tr-small" = Some model
    /\ Model.isDownloaded model = false
    /\ let modelDir' := modelDir (started fresh_install) +:+ "/" +:+ "en2tr-small" in
       let '(result, calls, st') :=
         requestModel "en2tr-small" true fs_ok (started fresh_install) in
       hd_error calls = Some (FsExists modelDir')
       /\ match result with
          | Ok m =>
              Model.isDownloaded m = true
              /\ In (FsDownloadFile (Model.url model)
                       (modelDir' +:+ "/model.json")) calls
              /\ map_get (models st') "en2tr-small" = Some m
          | Throw e =>
              exists_reply fs_ok = Throw e \/ mkdir_reply fs_ok = Throw e
              \/ downloadFile_reply fs_ok = Throw e
          end
       /\ forall options,
            fst (requestModel "en2tr-small" true fs_ok
                   (configureProgressiveDownloading options
                      (started fresh_install)))
            = (result, calls).
Proof.
  eexists. split; [vm_compute; reflexivity|]. split; [reflexivity|].
  apply urgent_request_downloads_at_once; [vm_compute; reflexivity|reflexivity].
Defined.

End Manager.

(** *** Admission from the queue *)

Section Admission.
Import Js ModelManager.

Lemma processDownloadQueue_loop_active maxC st :
  activeDownloads (processDownloadQueue_loop maxC st) = activeDownloads st.
Proof.
  unfold processDownloadQueue_loop.
  destruct (_ <? _); [|reflexivity]. now destruct (downloadQueue st).
Qed.

Lemma processDownloadQueue_loop_queue maxC st :
  exists k,
    downloadQueue (processDownloadQueue_loop maxC st)
    = drop k (downloadQueue st).
Proof.
  unfold processDownloadQueue_loop.
  destruct (_ <? _); [|now exists 0%nat].
  destruct (downloadQueue st) eqn:E.
  - exists 0%nat. now rewrite E.
  - now exists 1%nat.
Qed.

Lemma processDownloadQueue_loop_suspended maxC st t :
  t ∈ suspended (processDownloadQueue_loop maxC st) ->
  t ∈ suspended st \/ exists item, t = AwaitStorageCheck maxC item.
Proof.
  unfold processDownloadQueue_loop.
  destruct (_ <? _); [|auto]. destruct (downloadQueue st); [auto|].
  cbn. rewrite elem_of_app, list_elem_of_singleton. intros [?| ->]; eauto.
Qed.

Lemma processDownloadQueue_loop_keeps maxC st t :
  t ∈ suspended st -> t ∈ suspended (processDownloadQueue_loop maxC st).
Proof.
  unfold processDownloadQueue_loop.
  destruct (_ <? _); [|auto]. destruct (downloadQueue st); [auto|].
  cbn. rewrite elem_of_app. auto.
Qed.

Lemma addToDownloadQueue_active modelId priority estimatedSize st :
  activeDownloads (addToDownloadQueue modelId priority estimatedSize st)
  = activeDownloads st.
Proof.
  unfold addToDownloadQueue. destruct (_ || _); [reflexivity|].
  unfold processDownloadQueue. now rewrite processDownloadQueue_loop_active.
Qed.

Lemma fold_addToDownloadQueue_active (l : list ModelInfo) : forall st,
  activeDownloads
    (fold_left
       (fun st model =>
          addToDownloadQueue (Model.id model)
            (or_default (Model.priority model) 1)
            (or_default (Model.downloadSize model) (15 * 1024 * 1024)) st)
       l st)
  = activeDownloads st.
Proof.
  induction l as [|m l IH]; intros st; simpl; [reflexivity|].
  rewrite IH. apply addToDownloadQueue_active.
Qed.

Lemma startProgressiveDownloading_active st :
  activeDownloads (startProgressiveDownloading st) = activeDownloads st.
Proof.
  unfold startProgressiveDownloading, processDownloadQueue.
  rewrite processDownloadQueue_loop_active.
  apply fold_addToDownloadQueue_active.
Qed.

Lemma downloadModel_end_frame modelId call fs st :
  let st2 := snd (downloadModel_end modelId call fs st) in
  downloadQueue st2 = downloadQueue st /\ clock st <= clock st2
  /\ activeDownloads st2 = activeDownloads st
  /\ suspended st2 = suspended st
  /\ progressiveOptions st2 = progressiveOptions st.
Proof.
  unfold downloadModel_end.
  destruct call as [e|m|modelConfig]; cbn; [repeat split; lia..|].
  destruct (downloadModel_progresses_frame modelId modelConfig
              (downloadFile_progress fs) st) as (_ & Hq & Ha & Ho & Hs & Hc).
  set (st1 := downloadModel_progresses _ _ _ _) in *.
  destruct (exists_reply fs) as [[|]|]; cbn; [| |repeat split; lia].
  - destruct (downloadFile_reply fs); cbn; rewrite ?Hq, ?Ha, ?Ho, ?Hs, ?Hc;
      repeat split; lia.
  - destruct (mkdir_reply fs); cbn; [|repeat split; lia].
    destruct (downloadFile_reply fs); cbn; rewrite ?Hq, ?Ha, ?Ho, ?Hs, ?Hc;
      repeat split; lia.
Qed.

Lemma requestModel_active modelId urgent fs st :
  activeDownloads (snd (requestModel modelId urgent fs st))
  = activeDownloads st.
Proof.
  unfold requestModel.
  destruct (map_get (models st) modelId) as [model|]; [|reflexivity].
  destruct (Model.isDownloaded model); [reflexivity|].
  destruct urgent.
  - unfold downloadModel.
    match goal with |- context [downloadModel_end ?i ?c ?f ?s] =>
      destruct (downloadModel_end_frame i c f s) as (_ & _ & -> & _) end.
    reflexivity.
  - cbn. now rewrite addToDownloadQueue_active.
Qed.

Lemma deleteModel_active modelId reply st :
  activeDownloads (snd (deleteModel modelId reply st)) = activeDownloads st.
Proof.
  unfold deleteModel.
  destruct (map_get (models st) modelId) as [m|]; [|reflexivity].
  destruct (_ || _); [reflexivity|]. now destruct reply.
Qed.

Lemma downloadModelProgressively_end_active modelId call fs st :
  activeDownloads (downloadModelProgressively_end modelId call fs st)
  = activeDownloads st ∖ {[modelId]}.
Proof.
  unfold downloadModelProgressively_end.
  pose proof (downloadModel_end_frame modelId call fs st) as (_ & _ & Ha & _).
  destruct (downloadModel_end modelId call fs st) as [[r c] st2].
  unfold processDownloadQueue. rewrite processDownloadQueue_loop_active.
  cbn in *. now rewrite Ha.
Qed.

(** C4. An entry taken off the queue is started only if it fits the
    storage budget.  When [processDownloadQueue] resumes with the usage
    read from the file system and usage plus estimated size exceeds the
    budget, the entry is dropped: the active set is unchanged, no
    download is suspended for it, nothing is put back on the queue, and
    the loop goes on to the next entry.  Otherwise the model joins the
    active set and its download is under way.  And no step of the
    manager adds a model to the active set in any other way. *)
Theorem admission_respects_storage_budget (st : ModelManager) :
  (forall i maxC nextItem stat,
      suspended st !! i = Some (AwaitStorageCheck maxC nextItem) ->
      exists st',
        step st (StorageChecked i stat) = Some st'
        /\ if getCurrentStorageUsage stat + Item.estimatedSize nextItem
              >? maxStorageBytes st
           then
             st' = processDownloadQueue_loop maxC
                     (set_suspended (delete i (suspended st)) st)
             /\ activeDownloads st' = activeDownloads st
             /\ (exists k, downloadQueue st' = drop k (downloadQueue st))
             /\ (forall modelId call,
                    AwaitDownload modelId call ∈ suspended st' ->
                    AwaitDownload modelId call ∈ delete i (suspended st))
           else
             Item.modelId nextItem ∈ activeDownloads st'
             /\ AwaitDownload (Item.modelId nextItem)
                  (downloadModel_begin (Item.modelId nextItem) st)
                ∈ suspended st')
  /\ (forall ev st' modelId,
         step st ev = Some st' ->
         modelId ∈ activeDownloads st' ->
         modelId ∉ activeDownloads st ->
         exists i maxC nextItem stat,
           ev = StorageChecked i stat
           /\ suspended st !! i = Some (AwaitStorageCheck maxC nextItem)
           /\ Item.modelId nextItem = modelId
           /\ getCurrentStorageUsage stat + Item.estimatedSize nextItem
              <= maxStorageBytes st).
Proof.
  split.
  - intros i maxC nextItem stat Hi.
    unfold step. rewrite Hi. eexists. split; [reflexivity|].
    unfold processDownloadQueue_resume, wouldExceedStorageLimit,
      maxStorageBytes.
    cbn [progressiveOptions set_suspended].
    destruct (_ >? _).
    + split; [reflexivity|].
      split; [now rewrite processDownloadQueue_loop_active|].
      split; [apply (processDownloadQueue_loop_queue maxC
                       (set_suspended (delete i (suspended st)) st))|].
      intros modelId call Hin.
      apply processDownloadQueue_loop_suspended in Hin as [Hin|[item Hin]];
        [exact Hin|discriminate].
    + split.
      * rewrite processDownloadQueue_loop_active. cbn. set_solver.
      * apply processDownloadQueue_loop_keeps. cbn.
        rewrite elem_of_app, list_elem_of_singleton. right. reflexivity.
  - intros ev st' modelId Hstep Hin Hnot.
    destruct ev; cbn in Hstep.
    + inversion Hstep; subst. rewrite addToDownloadQueue_active in Hin.
      contradiction.
    + inversion Hstep; subst. rewrite startProgressiveDownloading_active in Hin.
      contradiction.
    + inversion Hstep; subst. contradiction.
    + inversion Hstep; subst.
      unfold resumeProgressiveDownloading in Hin.
      rewrite startProgressiveDownloading_active in Hin. contradiction.
    + inversion Hstep; subst. contradiction.
    + inversion Hstep; subst. rewrite requestModel_active in Hin.
      contradiction.
    + inversion Hstep; subst. rewrite deleteModel_active in Hin.
      contradiction.
    + destruct (suspended st !! i) as [[maxC nextItem|]|] eqn:Hi;
        inversion Hstep; subst; clear Hstep.
      exists i, maxC, nextItem, stat. split; [reflexivity|].
      split; [exact Hi|].
      unfold processDownloadQueue_resume, wouldExceedStorageLimit in Hin.
      unfold maxStorageBytes.
      cbn [progressiveOptions set_suspended] in Hin.
      destruct (Z.gtb_spec
                  (getCurrentStorageUsage stat + Item.estimatedSize nextItem)
                  (or_default (maxStorageUsage (progressiveOptions st))
                     (500 * 1024 * 1024))) as [Hgt|Hle];
        rewrite processDownloadQueue_loop_active in Hin; cbn in Hin.
      * contradiction.
      * split; [|lia].
        apply elem_of_union in Hin as [Hin|Hin]; [|contradiction].
        apply elem_of_singleton in Hin. now symmetry.
    + destruct (suspended st !! i) as [[|id [| |modelConfig]]|] eqn:Hi;
        inversion Hstep; subst; clear Hstep.
      cbn in Hin. contradiction.
    + destruct (suspended st !! i) as [[|id call]|] eqn:Hi;
        inversion Hstep; subst; clear Hstep.
      rewrite downloadModelProgressively_end_active in Hin. cbn in Hin.
      apply elem_of_difference in Hin as [Hin _]. contradiction.
Qed.

Lemma admission_respects_storage_budget_witness :
  exists maxC nextItem,
    suspended (started fresh_install) !! 0%nat
    = Some (AwaitStorageCheck maxC nextItem)
    /\ Item.modelId nextItem = "en2tr-small"
    /\ exists st',
         step (started fresh_install) (StorageChecked 0 (Ok (Some 0)))
         = Some st'
         /\ if getCurrentStorageUsage (Ok (Some 0))
               + Item.estimatedSize nextItem
               >? maxStorageBytes (started fresh_install)
            then
              st' = processDownloadQueue_loop maxC
                      (set_suspended
                         (delete 0%nat (suspended (started fresh_install)))
                         (started fresh_install))
              /\ activeDownloads st' = activeDownloads (started fresh_install)
              /\ (exists k,
                     downloadQueue st'
                     = drop k (downloadQueue (started fresh_install)))
              /\ (forall modelId call,
                     AwaitDownload modelId call ∈ suspended st' ->
                     AwaitDownload modelId call
                     ∈ delete 0%nat (suspended (started fresh_install)))
            else
              Item.modelId nextItem ∈ activeDownloads st'
              /\ AwaitDownload (Item.modelId nextItem)
                   (downloadModel_begin (Item.modelId nextItem)
                      (started fresh_install))
                 ∈ suspended st'.
Proof.
  do 2 eexists. split; [vm_compute; reflexivity|]. split; [reflexivity|].
  apply (proj1 (admission_respects_storage_budget (started fresh_install))).
  vm_compute. reflexivity.
Defined.

(** C5. On a first start the three catalog models are enqueued one
    after the other; each call of [processDownloadQueue] takes its entry
    off the queue while the active set is still empty and waits for the
    storage check.  When the three checks have answered, three downloads
    are active although the bound is two. *)
Theorem startup_exceeds_maxConcurrentDownloads :
  exists st,
    activeDownloads (started fresh_install) = ∅
    /\ downloadQueue (started fresh_install) = []
    /\ length (suspended (started fresh_install)) = 3%nat
    /\ run (started fresh_install) three_checks = Some st
    /\ maxConcurrent st = 2
    /\ elements (activeDownloads st)
       ≡ₚ ["en2tr-small"; "tr2en-small"; "opus-mt-en2tr-base"]
    /\ size (activeDownloads st) = 3%nat.
Proof.
  eexists.
  split; [vm_compute; reflexivity|]. split; [vm_compute; reflexivity|].
  split; [vm_compute; reflexivity|]. split; [vm_compute; reflexivity|].
  split; [reflexivity|]. split; [|vm_compute; reflexivity].
  vm_compute. apply Permutation_cons_append.
Qed.

End Admission.

(** *** The order of the queue *)

Section QueueOrder.
Import Js ModelManager.

Lemma sort_insert_ordered a l :
  queue_ordered l -> Forall (later_if_equal a) l ->
  queue_ordered (sort_insert by_priority a l).
Proof.
  unfold queue_ordered. induction 1 as [|b l Hl IH Hb]; intros Ha; simpl.
  - repeat constructor.
  - inversion Ha as [|? ? Hab Hal]; subst. unfold by_priority at 1.
    destruct (Z.ltb_spec (Item.priority a) (Item.priority b)) as [Hlt|Hge].
    + constructor; [auto|]. apply Forall_sort_insert; [|exact Hb].
      split; lia.
    + constructor; [now constructor|].
      constructor.
      * split; [lia|exact Hab].
      * rewrite Forall_forall in *. intros y Hy.
        destruct (Hb y Hy) as [Hby _]. split; [lia|]. apply Hal, Hy.
Qed.

Lemma sort_ordered l :
  StronglySorted later_if_equal l -> queue_ordered (sort by_priority l).
Proof.
  induction 1 as [|a l Hl IH Ha]; simpl; [constructor|].
  apply sort_insert_ordered; [exact IH|]. now apply Forall_sort.
Qed.

Lemma queue_inv_mono q c c' : queue_inv q c -> c <= c' -> queue_inv q c'.
Proof.
  intros [Ho Hc] Hle. split; [exact Ho|].
  eapply Forall_impl; [exact Hc|]. simpl. intros; lia.
Qed.

Lemma queue_inv_tail a q c : queue_inv (a :: q) c -> queue_inv q c.
Proof.
  intros [Ho Hc]. inversion Ho; inversion Hc; subst. now split.
Qed.

Lemma queue_inv_nil c : queue_inv [] c.
Proof. split; constructor. Qed.

Lemma queue_inv_enqueue q c modelId priority estimatedSize :
  queue_inv q c ->
  queue_inv
    (sort by_priority
       (q ++ [{| Item.modelId := modelId; Item.priority := priority;
                 Item.estimatedSize := estimatedSize; Item.addedAt := c |}]))
    (c + 1).
Proof.
  intros [Ho Hc]. split.
  - apply sort_ordered. apply StronglySorted_snoc.
    + eapply StronglySorted_weaken; [|exact Ho]. intros a b [_ H]. exact H.
    + eapply Forall_impl; [exact Hc|]. intros y Hy _. exact Hy.
  - apply Forall_sort. apply Forall_app. split.
    + eapply Forall_impl; [exact Hc|]. simpl. intros; lia.
    + constructor; [simpl; lia|constructor].
Qed.

Lemma inv_loop maxC st : inv st -> inv (processDownloadQueue_loop maxC st).
Proof.
  unfold inv, processDownloadQueue_loop. intros H.
  destruct (_ <? _); [|exact H].
  destruct (downloadQueue st) eqn:E; [now rewrite E|].
  cbn. eapply queue_inv_tail, H.
Qed.

Lemma inv_processDownloadQueue st : inv st -> inv (processDownloadQueue st).
Proof. apply inv_loop. Qed.

Lemma inv_addToDownloadQueue modelId priority estimatedSize st :
  inv st -> inv (addToDownloadQueue modelId priority estimatedSize st).
Proof.
  intros H. unfold addToDownloadQueue.
  destruct (_ || _); [exact H|].
  apply inv_processDownloadQueue. unfold inv. cbn.
  apply queue_inv_enqueue, H.
Qed.

Lemma inv_fold_addToDownloadQueue (l : list ModelInfo) : forall st,
  inv st ->
  inv (fold_left
         (fun st model =>
            addToDownloadQueue (Model.id model)
              (or_default (Model.priority model) 1)
              (or_default (Model.downloadSize model) (15 * 1024 * 1024)) st)
         l st).
Proof.
  induction l as [|m l IH]; intros st H; simpl; [exact H|].
  apply IH. now apply inv_addToDownloadQueue.
Qed.

Lemma inv_startProgressiveDownloading st :
  inv st -> inv (startProgressiveDownloading st).
Proof.
  intros H. unfold startProgressiveDownloading.
  apply inv_processDownloadQueue. now apply inv_fold_addToDownloadQueue.
Qed.

Lemma inv_frame st st2 :
  downloadQueue st2 = downloadQueue st -> clock st <= clock st2 ->
  inv st -> inv st2.
Proof.
  unfold inv. intros -> Hc H. eapply queue_inv_mono; eauto.
Qed.

Lemma inv_requestModel modelId urgent fs st :
  inv st -> inv (snd (requestModel modelId urgent fs st)).
Proof.
  intros H. unfold requestModel.
  destruct (map_get (models st) modelId) as [model|]; [|exact H].
  set (st1 := set_models _ (tick st)).
  assert (H1 : inv st1) by (eapply inv_frame; [| |exact H]; cbn; [reflexivity|lia]).
  destruct (Model.isDownloaded model); [exact H1|].
  destruct urgent.
  - unfold downloadModel.
    destruct (downloadModel_end_frame modelId (downloadModel_begin modelId st1) fs st1)
      as (Hq & Hc & _).
    eapply inv_frame; eauto.
  - cbn. now apply inv_addToDownloadQueue.
Qed.

Lemma inv_deleteModel modelId reply st :
  inv st -> inv (snd (deleteModel modelId reply st)).
Proof.
  intros H. unfold deleteModel.
  destruct (map_get (models st) modelId) as [m|]; [|exact H].
  destruct (_ || _); [exact H|]. destruct reply; exact H.
Qed.

Lemma inv_step st ev st2 : inv st -> step st ev = Some st2 -> inv st2.
Proof.
  intros H. destruct ev; cbn; intros E.
  - inversion E; subst. now apply inv_addToDownloadQueue.
  - inversion E; subst. now apply inv_startProgressiveDownloading.
  - inversion E; subst. apply queue_inv_nil.
  - inversion E; subst. now apply inv_startProgressiveDownloading.
  - inversion E; subst. exact H.
  - inversion E; subst. now apply inv_requestModel.
  - inversion E; subst. now apply inv_deleteModel.
  - destruct (suspended st !! i) as [[maxC item|]|]; inversion E; subst.
    unfold processDownloadQueue_resume.
    destruct (wouldExceedStorageLimit _ _ _); apply inv_loop; exact H.
  - destruct (suspended st !! i) as [[|modelId [| |modelConfig]]|];
      inversion E; subst. exact H.
  - destruct (suspended st !! i) as [[|modelId call]|]; inversion E; subst.
    unfold downloadModelProgressively_end.
    set (st1 := set_suspended _ st).
    pose proof (downloadModel_end_frame modelId call fs st1) as (Hq & Hc & _).
    destruct (downloadModel_end modelId call fs st1) as [[r c] st3].
    apply inv_processDownloadQueue. cbn in *.
    eapply inv_frame; [| |exact H]; cbn; auto.
Qed.

Lemma inv_run evs : forall st st2, inv st -> run st evs = Some st2 -> inv st2.
Proof.
  induction evs as [|ev evs IH]; simpl; intros st st2 H E.
  - now inversion E; subst.
  - destruct (step st ev) as [st1|] eqn:Es; [|discriminate].
    eapply IH; [|exact E]. eapply inv_step; eauto.
Qed.

Lemma loadConfigs_frame fs configs : forall st,
  downloadQueue (fst (loadConfigs fs configs st)) = downloadQueue st
  /\ clock (fst (loadConfigs fs configs st)) = clock st.
Proof.
  induction configs as [|config configs IH]; intros st; simpl; [auto|].
  destruct (modelJson_exists fs _); [|auto].
  match goal with |- context [loadConfigs fs configs ?s] =>
    destruct (IH s) as [-> ->] end. auto.
Qed.

Lemma inv_initializeModelConfigs fs st :
  inv st -> inv (initializeModelConfigs fs st).
Proof.
  intros H. unfold initializeModelConfigs.
  assert (L : inv (match loadConfigs fs Catalog.MODEL_CONFIGS st with
                   | (st, true) => startProgressiveDownloading st
                   | (st, false) => st end)).
  { pose proof (loadConfigs_frame fs Catalog.MODEL_CONFIGS st) as [Hq Hc].
    destruct (loadConfigs fs Catalog.MODEL_CONFIGS st) as [st1 []]; cbn in *.
    - apply inv_startProgressiveDownloading. eapply inv_frame; [exact Hq|lia|exact H].
    - eapply inv_frame; [exact Hq|lia|exact H]. }
  destruct (modelDir_exists fs) as [[|]|]; [exact L| |exact H].
  destruct (modelDir_mkdir fs); [exact L|exact H].
Qed.

(** C6. In every state the manager reaches from its start, and so after
    every call of [addToDownloadQueue], the queue is in order: the
    priorities do not increase along the queue, and of two entries with
    the same priority the one that was enqueued first comes first. *)
Theorem download_queue_ordered
  (fs : InitFs) (documentDirectoryPath : string) (evs : list event)
  (st : ModelManager) :
  run (initializeModelConfigs fs (new_ModelManager documentDirectoryPath)) evs
  = Some st ->
  queue_ordered (downloadQueue st)
  /\ forall modelId priority estimatedSize,
       queue_ordered
         (downloadQueue (addToDownloadQueue modelId priority estimatedSize st)).
Proof.
  intros Hrun.
  assert (H : inv st).
  { eapply inv_run; [|exact Hrun]. apply inv_initializeModelConfigs.
    apply queue_inv_nil. }
  split; [apply H|]. intros. now apply inv_addToDownloadQueue.
Qed.

Lemma download_queue_ordered_witness :
  exists st,
    run (initializeModelConfigs fresh_install (new_ModelManager "/documents"))
      enqueue_with_tie = Some st
    /\ map (fun item => (Item.modelId item, Item.priority item))
         (downloadQueue st)
       = [("de2en", 7); ("fr2en", 5); ("es2en", 5)]
    /\ queue_ordered (downloadQueue st)
    /\ forall modelId priority estimatedSize,
         queue_ordered
           (downloadQueue
              (addToDownloadQueue modelId priority estimatedSize st)).
Proof.
  eexists. split; [vm_compute; reflexivity|].
  split; [vm_compute; reflexivity|].
  apply (download_queue_ordered fresh_install "/documents" enqueue_with_tie).
  vm_compute. reflexivity.
Defined.

End QueueOrder.

(** ** Language detection *)

Section Detection.
Import Js LanguageDetection.

(** C9. For a text whose trimmed length is below ten, the empty text
    included, [detectLanguage] returns the default result and calls
    neither detector, whatever the detectors would have answered: the
    confidence is 0.3, there are no alternatives, and the language is the
    English entry of [LANGUAGES].  The length is the one the code
    tests: that of the text without the white space and the line
    terminators at its ends, in UTF-16 code units. *)
Theorem detectLanguage_short_text
  (LANGUAGES_0 : Language) (LANGUAGES_rest : list Language)
  (d : Detectors) (text : string) :
  (length_utf16 (trim text) < minTextLength)%nat ->
  detectLanguage LANGUAGES_0 LANGUAGES_rest d text
  = (createDefaultResult LANGUAGES_0 LANGUAGES_rest, [])
  /\ confidence (createDefaultResult LANGUAGES_0 LANGUAGES_rest) = 0.3%float
  /\ alternativeLanguages (createDefaultResult LANGUAGES_0 LANGUAGES_rest) = []
  /\ (forall english,
         find_language LANGUAGES_0 LANGUAGES_rest "en" = Some english ->
         detectedLanguage (createDefaultResult LANGUAGES_0 LANGUAGES_rest)
         = english
         /\ code english = "en").
Proof.
  intros Hshort. split; [|split; [reflexivity|split; [reflexivity|]]].
  - unfold detectLanguage.
    apply Nat.ltb_lt in Hshort. rewrite Hshort, orb_true_r. reflexivity.
  - intros english Hfind. unfold createDefaultResult.
    rewrite Hfind. split; [reflexivity|].
    unfold find_language, Js.find in Hfind.
    apply List.find_some in Hfind as [_ Hc].
    now apply String.eqb_eq in Hc.
Qed.

Lemma detectLanguage_short_text_witness :
  (length_utf16 (trim gunaydin) < minTextLength)%nat
  /\ String.length gunaydin = 18%nat
  /\ length_utf16 (trim gunaydin) = 8%nat
  /\ detectLanguage english [turkish] undetermined gunaydin
     = (createDefaultResult english [turkish], [])
  /\ createDefaultResult english [turkish]
     = {| detectedLanguage := english; confidence := 0.3%float;
          alternativeLanguages := [] |}.
Proof.
  split; [vm_compute; lia|]. split; [reflexivity|]. split; [reflexivity|].
  split; [|vm_compute; reflexivity].
  apply (detectLanguage_short_text english [turkish] undetermined gunaydin).
  vm_compute; lia.
Defined.

End Detection.

(** ** The translation service *)

Section Translation.
Import Js TranslationService.
Import LanguageDetection (Language, code, name).

(** C1, as stated, fails: on a first start, [translate("hello", null,
    tr)] finds the model of the pair in the catalog, not downloaded, and
    answers "merhaba", but the result it returns carries the model id
    "mock", not "mock_model_unavailable". *)
Lemma translate_returns_plain_mock :
  exists result effects svc',
    Catalog.getModelIdForLanguagePair "en" "tr" = Some "en2tr-small"
    /\ resident (new_TranslationService first_start) "en2tr-small" = false
    /\ translate first_start "hello" None LanguageDetection.turkish no_options
         (new_TranslationService first_start)
       = (Ok result, effects, svc')
    /\ MlService.translatedText result = "merhaba"
    /\ MlService.modelId result = "mock"
    /\ MlService.modelId result <> "mock_model_unavailable".
Proof.
  do 3 eexists. split; [reflexivity|]. split; [reflexivity|].
  split; [vm_compute; reflexivity|].
  split; [reflexivity|]. split; [reflexivity|]. discriminate.
Qed.

(** C1, amended. When the catalog has a model for the pair and the
    service does not hold it as downloaded, [translate] returns the mock
    result, whose model id is "mock" and whose confidence is 0.1; the
    tag "mock_model_unavailable" goes to the history record.  A download
    of the model is set off first unless one is under way already or the
    options ask for offline use only. *)
Theorem translate_model_not_downloaded
  (env : Services) (text : string) (sourceLanguageInput : option Language)
  (targetLanguage : Language) (options : TranslationOptions)
  (svc : TranslationService) (modelId : string) :
  let sourceLanguage := fst (resolveSourceLanguage env text sourceLanguageInput) in
  let detectionConfidence :=
    snd (resolveSourceLanguage env text sourceLanguageInput) in
  let mockResult := mockTranslate text sourceLanguage targetLanguage in
  Catalog.getModelIdForLanguagePair (code sourceLanguage) (code targetLanguage)
  = Some modelId ->
  resident (ready env svc) modelId = false ->
  exists started svc',
    translate env text sourceLanguageInput targetLanguage options svc
    = (Ok mockResult,
       started ++ [history text mockResult sourceLanguage targetLanguage
                     "mock_model_unavailable" detectionConfidence],
       svc')
    /\ MlService.modelId mockResult = "mock"
    /\ MlService.confidence mockResult = Some 0.1%float
    /\ started
       = (if negb (downloading (ready env svc) modelId)
             && negb (offlineOnly options)
          then [DownloadModel modelId] else []).
Proof.
  intros sourceLanguage detectionConfidence mockResult Hid Hres.
  unfold translate.
  destruct (resolveSourceLanguage env text sourceLanguageInput)
    as [src conf] eqn:Hsrc.
  cbn in sourceLanguage, detectionConfidence. subst sourceLanguage detectionConfidence.
  rewrite Hid. unfold resident in Hres. rewrite Hres. cbn [negb].
  unfold downloading, offlineOnly.
  destruct (negb _ && negb _).
  - unfold downloadModel_begin. rewrite Hid.
    do 2 eexists. split; [reflexivity|]. repeat split.
  - do 2 eexists. split; [reflexivity|]. repeat split.
Qed.

Lemma translate_model_not_downloaded_witness :
  let env := first_start in
  let svc := new_TranslationService first_start in
  let target := LanguageDetection.turkish in
  let sourceLanguage := fst (resolveSourceLanguage env "hello" None) in
  let detectionConfidence := snd (resolveSourceLanguage env "hello" None) in
  let mockResult := mockTranslate "hello" sourceLanguage target in
  Catalog.getModelIdForLanguagePair (code sourceLanguage) (code target)
  = Some "en2tr-small"
  /\ resident (ready env svc) "en2tr-small" = false
  /\ MlService.translatedText mockResult = "merhaba"
  /\ exists started svc',
       translate env "hello" None target no_options svc
       = (Ok mockResult,
          started ++ [history "hello" mockResult sourceLanguage target
                        "mock_model_unavailable" detectionConfidence],
          svc')
       /\ MlService.modelId mockResult = "mock"
       /\ MlService.confidence mockResult = Some 0.1%float
       /\ started
          = (if negb (downloading (ready env svc) "en2tr-small")
                && negb (offlineOnly no_options)
             then [DownloadModel "en2tr-small"] else []).
Proof.
  cbv zeta. split; [vm_compute; reflexivity|].
  split; [vm_compute; reflexivity|]. split; [vm_compute; reflexivity|].
  apply (translate_model_not_downloaded first_start "hello" None
           LanguageDetection.turkish no_options
           (new_TranslationService first_start) "en2tr-small");
    vm_compute; reflexivity.
Defined.

(** C8. With the fallback switched on, as the service is built,
    [translate] always returns a result and never throws; and when the
    model is held as downloaded and [translateText] throws (at the model
    load, the tokenizer or the inference), what it returns is the mock
    result, recorded in the history under the id "mock".  A download is
    only set off, never awaited, so its failure cannot reach the
    caller. *)
Theorem translate_never_throws
  (env : Services) (text : string) (sourceLanguageInput : option Language)
  (targetLanguage : Language) (options : TranslationOptions)
  (svc : TranslationService) :
  fallbackToMock svc = true ->
  let sourceLanguage := fst (resolveSourceLanguage env text sourceLanguageInput) in
  let detectionConfidence :=
    snd (resolveSourceLanguage env text sourceLanguageInput) in
  let mockResult := mockTranslate text sourceLanguage targetLanguage in
  (exists result effects svc',
      translate env text sourceLanguageInput targetLanguage options svc
      = (Ok result, effects, svc')
      /\ fallbackToMock svc' = true)
  /\ (forall modelId e,
         Catalog.getModelIdForLanguagePair (code sourceLanguage)
           (code targetLanguage) = Some modelId ->
         resident (ready env svc) modelId = true ->
         translateText env text (code sourceLanguage) (code targetLanguage)
           modelId = Throw e ->
         translate env text sourceLanguageInput targetLanguage options svc
         = (Ok mockResult,
            [history text mockResult sourceLanguage targetLanguage "mock"
               detectionConfidence],
            ready env svc)).
Proof.
  intros Hfb sourceLanguage detectionConfidence mockResult.
  assert (Hready : fallbackToMock (ready env svc) = true).
  { unfold ready. destruct (initialized svc); [exact Hfb|exact Hfb]. }
  unfold translate.
  destruct (resolveSourceLanguage env text sourceLanguageInput)
    as [src conf] eqn:Hsrc.
  cbn in sourceLanguage, detectionConfidence.
  subst sourceLanguage detectionConfidence mockResult.
  split.
  - destruct (Catalog.getModelIdForLanguagePair (code src) (code targetLanguage))
      as [modelId|] eqn:Hid.
    + destruct (negb _) eqn:Hres.
      * destruct (negb _ && negb _).
        -- unfold downloadModel_begin. rewrite Hid.
           do 3 eexists. split; [reflexivity|exact Hready].
        -- do 3 eexists. split; [reflexivity|exact Hready].
      * destruct (translateText env text (code src) (code targetLanguage) modelId).
        -- do 3 eexists. split; [reflexivity|exact Hready].
        -- rewrite Hready. do 3 eexists. split; [reflexivity|exact Hready].
    + do 3 eexists. split; [reflexivity|exact Hready].
  - intros modelId e Hid Hres Hthrow.
    rewrite Hid. unfold resident in Hres. rewrite Hres. cbn [negb].
    rewrite Hthrow, Hready. reflexivity.
Qed.

Lemma translate_never_throws_witness :
  let env := failing_inference in
  let svc := new_TranslationService failing_inference in
  let source := LanguageDetection.english in
  let target := LanguageDetection.turkish in
  let text := "Good morning" in
  let sourceLanguage := fst (resolveSourceLanguage env text (Some source)) in
  let detectionConfidence :=
    snd (resolveSourceLanguage env text (Some source)) in
  let mockResult := mockTranslate text sourceLanguage target in
  fallbackToMock svc = true
  /\ Catalog.getModelIdForLanguagePair (code sourceLanguage) (code target)
     = Some "en2tr-small"
  /\ resident (ready env svc) "en2tr-small" = true
  /\ translateText env text (code sourceLanguage) (code target) "en2tr-small"
     = Throw (ModelManager.JsError "Error during model inference")
  /\ MlService.translatedText mockResult = "[Turkish] Good morning"
  /\ translate env text (Some source) target no_options svc
     = (Ok mockResult,
        [history text mockResult sourceLanguage target "mock"
           detectionConfidence],
        ready env svc).
Proof.
  cbv zeta. split; [vm_compute; reflexivity|].
  split; [vm_compute; reflexivity|]. split; [vm_compute; reflexivity|].
  split; [vm_compute; reflexivity|]. split; [vm_compute; reflexivity|].
  apply (proj2 (translate_never_throws failing_inference "Good morning"
                  (Some LanguageDetection.english) LanguageDetection.turkish
                  no_options (new_TranslationService failing_inference)
                  eq_refl)
           "en2tr-small" (ModelManager.JsError "Error during model inference"));
    vm_compute; reflexivity.
Defined.

End Translation.

(** ** The model map *)

Section ModelMap.
Import Js ModelManager ModelAccess.

Lemma map_get_In {V} (m : list (string * V)) k v :
  map_get m k = Some v -> In k (map fst m).
Proof.
  induction m as [|[k' v'] m IH]; simpl; [discriminate|].
  destruct (String.eqb_spec k' k) as [->|Hne]; auto.
Qed.

Lemma map_get_In_entry {V} (m : list (string * V)) k v :
  map_get m k = Some v -> In (k, v) m.
Proof.
  induction m as [|[k' v'] m IH]; simpl; [discriminate|].
  destruct (String.eqb_spec k' k) as [->|Hne].
  - intros [= ->]. auto.
  - auto.
Qed.

Lemma map_set_keys {V} (m : list (string * V)) k v :
  In k (map fst m) -> map fst (map_set m k v) = map fst m.
Proof.
  induction m as [|[k' v'] m IH]; simpl; [tauto|].
  destruct (String.eqb_spec k' k) as [->|Hne]; simpl; [reflexivity|].
  intros [E|Hin]; [congruence|]. now rewrite IH.
Qed.

Lemma map_set_keys_new {V} (m : list (string * V)) k v :
  ~ In k (map fst m) -> map fst (map_set m k v) = map fst m ++ [k].
Proof.
  induction m as [|[k' v'] m IH]; simpl; [reflexivity|].
  destruct (String.eqb_spec k' k) as [->|Hne]; simpl; [tauto|].
  intros Hn. rewrite IH; tauto.
Qed.

Lemma map_set_Forall {V} (P : string * V -> Prop) (m : list (string * V)) k v :
  Forall P m -> P (k, v) -> Forall P (map_set m k v).
Proof.
  intros Hm Hv. induction Hm as [|[k' v'] m Hx Hm IH]; simpl.
  - now constructor.
  - destruct (String.eqb k' k); constructor; auto.
Qed.

Lemma map_get_set_ne {V} (m : list (string * V)) k k' v :
  k <> k' -> map_get (map_set m k v) k' = map_get m k'.
Proof.
  intros Hne. induction m as [|[k0 v0] m IH]; simpl.
  - destruct (String.eqb_spec k k'); [contradiction|reflexivity].
  - destruct (String.eqb_spec k0 k) as [->|Hk]; simpl.
    + destruct (String.eqb_spec k k'); [contradiction|reflexivity].
    + destruct (String.eqb k0 k'); [reflexivity|exact IH].
Qed.

End ModelMap.

(** ** What the operations of the manager leave alone *)

Section Frames.
Import Js ModelManager ModelAccess.

Lemma queue_step_refl st : queue_step st st.
Proof.
  repeat split. exists []. split; [now rewrite app_nil_r|constructor].
Qed.

Lemma queue_step_trans st st2 st3 :
  queue_step st st2 -> queue_step st2 st3 -> queue_step st st3.
Proof.
  intros (Hm & Hd & Ha & Ho & l & Hs & Hl) (Hm2 & Hd2 & Ha2 & Ho2 & l2 & Hs2 & Hl2).
  repeat split; try congruence.
  exists (l ++ l2). split; [rewrite Hs2, Hs; now rewrite app_assoc|].
  apply Forall_app; auto.
Qed.

Lemma queue_step_loop maxC st :
  queue_step st (processDownloadQueue_loop maxC st).
Proof.
  unfold processDownloadQueue_loop.
  destruct (_ <? _); [|apply queue_step_refl].
  destruct (downloadQueue st); [apply queue_step_refl|].
  repeat split. eexists. split; [reflexivity|]. repeat constructor.
Qed.

Lemma queue_step_addToDownloadQueue modelId priority estimatedSize st :
  queue_step st (addToDownloadQueue modelId priority estimatedSize st).
Proof.
  unfold addToDownloadQueue. destruct (_ || _); [apply queue_step_refl|].
  eapply queue_step_trans; [|apply queue_step_loop].
  repeat split. exists []. split; [now rewrite app_nil_r|constructor].
Qed.

Lemma queue_step_fold (l : list ModelInfo) : forall st,
  queue_step st
    (fold_left
       (fun st model =>
          addToDownloadQueue (Model.id model)
            (or_default (Model.priority model) 1)
            (or_default (Model.downloadSize model) (15 * 1024 * 1024)) st)
       l st).
Proof.
  induction l as [|m l IH]; intros st; simpl; [apply queue_step_refl|].
  eapply queue_step_trans; [apply queue_step_addToDownloadQueue|apply IH].
Qed.

Lemma queue_step_startProgressiveDownloading st :
  queue_step st (startProgressiveDownloading st).
Proof.
  unfold startProgressiveDownloading.
  eapply queue_step_trans; [|apply queue_step_loop].
  assert (E : models st = models st) by reflexivity. revert E.
  generalize (models st) at 2 3. intros ms _.
  apply queue_step_fold.
Qed.

Lemma map_set_set {V} (m : list (string * V)) k v v' :
  map_set (map_set m k v) k v' = map_set m k v'.
Proof.
  induction m as [|[k0 v0] m IH]; simpl.
  - now rewrite String.eqb_refl.
  - destruct (String.eqb k0 k) eqn:E; simpl.
    + now rewrite String.eqb_refl.
    + now rewrite E, IH.
Qed.

(** The calls of the progress callback leave the entry of the last
    report, if there was one. *)
Lemma downloadModel_progresses_models modelId modelConfig reports st :
  models (downloadModel_progresses modelId modelConfig reports st)
  = match last reports with
    | Some res =>
        map_set (models st) modelId
          (progressed modelConfig (fst res / snd res)%float)
    | None => models st
    end.
Proof.
  revert st. induction reports as [|res reports IH]; intros st;
    [reflexivity|].
  cbn [downloadModel_progresses fold_left].
  change (fold_left _ reports ?s)
    with (downloadModel_progresses modelId modelConfig reports s).
  rewrite IH. cbn [models downloadModel_progress set_models].
  destruct reports as [|res2 reports]; [reflexivity|].
  change (last (res :: res2 :: reports)) with (last (res2 :: reports)).
  destruct (last (res2 :: reports)) as [r|] eqn:El.
  - apply map_set_set.
  - exfalso. clear -El. revert res2 El.
    induction reports as [|r reports IHr]; intros res2 El; [discriminate|].
    apply (IHr r). exact El.
Qed.

(** [downloadModel_end] touches the model map and the clock only, and
    the map only at the model's id: to file the downloaded entry, or,
    when the download fails after having reported progress, the entry
    of the last report. *)
Lemma downloadModel_end_models modelId call fs st :
  let st2 := snd (downloadModel_end modelId call fs st) in
  modelDir st2 = modelDir st
  /\ (models st2 = models st
      \/ exists modelConfig entry,
           call = Fetching modelConfig
           /\ models st2 = map_set (models st) modelId entry
           /\ ((fst (fst (downloadModel_end modelId call fs st)) = Ok entry
                /\ Model.id entry = modelId
                /\ Model.isDownloaded entry = true)
               \/ exists progress, entry = progressed modelConfig progress)).
Proof.
  unfold downloadModel_end. destruct call as [e|m|modelConfig]; cbn; auto.
  destruct (downloadModel_progresses_frame modelId modelConfig
              (downloadFile_progress fs) st) as (Hd & _).
  pose proof (downloadModel_progresses_models modelId modelConfig
                (downloadFile_progress fs) st) as Hm.
  set (st1 := downloadModel_progresses _ _ _ _) in *.
  assert (Hfail :
    modelDir st1 = modelDir st
    /\ (models st1 = models st
        \/ exists modelConfig0 entry,
             Fetching modelConfig = Fetching modelConfig0
             /\ models st1 = map_set (models st) modelId entry
             /\ ((@Throw exn ModelInfo (JsError "") = Ok entry
                  /\ Model.id entry = modelId
                  /\ Model.isDownloaded entry = true)
                 \/ exists progress, entry = progressed modelConfig0 progress))).
  { split; [exact Hd|].
    destruct (last (downloadFile_progress fs)) as [res|];
      [|now left].
    right. do 2 eexists. split; [reflexivity|]. split; [exact Hm|].
    right. eauto. }
  assert (Hok : forall entry,
    Model.id entry = modelId -> Model.isDownloaded entry = true ->
    modelDir st1 = modelDir st
    /\ (map_set (models st1) modelId entry = models st
        \/ exists modelConfig0 entry0,
             Fetching modelConfig = Fetching modelConfig0
             /\ map_set (models st1) modelId entry
                = map_set (models st) modelId entry0
             /\ ((@Ok exn ModelInfo entry = Ok entry0
                  /\ Model.id entry0 = modelId
                  /\ Model.isDownloaded entry0 = true)
                 \/ exists progress,
                      entry0 = progressed modelConfig0 progress))).
  { intros entry Hid Hdl. split; [exact Hd|]. right.
    exists modelConfig, entry. split; [reflexivity|]. split.
    - rewrite Hm.
      destruct (last (downloadFile_progress fs));
        [apply map_set_set|reflexivity].
    - left. auto. }
  destruct Hfail as (_ & Hfail).
  destruct (exists_reply fs) as [[|]|]; cbn; auto.
  - destruct (downloadFile_reply fs); cbn.
    + apply Hok; reflexivity.
    + split; [exact Hd|].
      destruct Hfail as [Hfail|(c0 & entry & E0 & Hs & [(E & _)|Hp])];
        [now left|discriminate|].
      right. exists c0, entry. auto.
  - destruct (mkdir_reply fs); cbn; auto.
    destruct (downloadFile_reply fs); cbn.
    + apply Hok; reflexivity.
    + split; [exact Hd|].
      destruct Hfail as [Hfail|(c0 & entry & E0 & Hs & [(E & _)|Hp])];
        [now left|discriminate|].
      right. exists c0, entry. auto.
Qed.

End Frames.

(** ** The models the manager knows *)

Section KnownModels.
Import Js ModelManager ModelAccess.

Lemma models_inv_queue_step known st st2 :
  queue_step st st2 -> models_inv known st -> models_inv known st2.
Proof.
  intros (Hm & _ & _ & _ & l & Hs & Hl) (Hk & Hf & Ht).
  unfold models_inv, keys. rewrite Hm, Hs. repeat split; auto.
  apply Forall_app. split; [exact Ht|].
  eapply Forall_impl; [exact Hl|]. intros [] Hc; [exact I|destruct Hc].
Qed.

Lemma models_inv_set known st modelId entry :
  In modelId known -> Model.id entry = modelId ->
  models_inv known st ->
  models_inv known (set_models (map_set (models st) modelId entry) st).
Proof.
  intros Hin Hid (Hk & Hf & Ht). unfold models_inv, keys in *. cbn.
  repeat split; auto.
  - rewrite map_set_keys; [exact Hk|now rewrite Hk].
  - apply map_set_Forall; [exact Hf|exact Hid].
Qed.

Lemma models_inv_tick known st : models_inv known st -> models_inv known (tick st).
Proof. intros H. exact H. Qed.

Lemma models_inv_set_suspended known st l :
  Forall (task_known known) l ->
  models_inv known st -> models_inv known (set_suspended l st).
Proof. intros Hl (Hk & Hf & _). repeat split; auto. Qed.

Lemma models_inv_downloadModel_end known modelId call fs st :
  task_known known (AwaitDownload modelId call) ->
  models_inv known st ->
  models_inv known (snd (downloadModel_end modelId call fs st)).
Proof.
  intros Hc H.
  pose proof (downloadModel_end_frame modelId call fs st) as (_ & _ & _ & Hs & _).
  pose proof (downloadModel_end_models modelId call fs st) as (_ & Hm).
  destruct H as (Hk & Hf & Ht). unfold models_inv, keys in *.
  cbv zeta in *. rewrite Hs.
  destruct Hm as [Hm|(modelConfig & entry & -> & Hm & Hentry)]; rewrite Hm.
  - repeat split; auto.
  - cbn in Hc. destruct Hc as [Hin Hcid].
    assert (Hid : Model.id entry = modelId).
    { destruct Hentry as [(_ & Hid & _)|[progress ->]]; [exact Hid|exact Hcid]. }
    repeat split; auto.
    + rewrite map_set_keys; [exact Hk|now rewrite Hk].
    + apply map_set_Forall; [exact Hf|exact Hid].
Qed.

Lemma task_known_begin known modelId st :
  keys st = known -> Forall filed (models st) ->
  task_known known (AwaitDownload modelId (downloadModel_begin modelId st)).
Proof.
  intros Hk Hf. unfold downloadModel_begin.
  destruct (map_get (models st) modelId) as [m|] eqn:E; cbn; [|exact I].
  destruct (Model.isDownloaded m); cbn; [exact I|]. split.
  - rewrite <- Hk. eapply map_get_In, E.
  - rewrite List.Forall_forall in Hf.
    apply (Hf (modelId, m)). eapply map_get_In_entry, E.
Qed.

Lemma models_inv_requestModel known modelId urgent fs st :
  models_inv known st ->
  models_inv known (snd (requestModel modelId urgent fs st)).
Proof.
  intros H. unfold requestModel.
  destruct (map_get (models st) modelId) as [model|] eqn:E; [|exact H].
  assert (Hin : In modelId known).
  { destruct H as (Hk & _). rewrite <- Hk. eapply map_get_In, E. }
  assert (Hid : Model.id model = modelId).
  { destruct H as (_ & Hf & _). rewrite Forall_forall in Hf.
    apply (Hf (modelId, model)). apply list_elem_of_In.
    eapply map_get_In_entry, E. }
  match goal with |- context [set_models ?ms (tick st)] =>
    set (st1 := set_models ms (tick st)) end.
  assert (H1 : models_inv known st1).
  { apply (models_inv_set known (tick st)); auto. }
  destruct (Model.isDownloaded model); [exact H1|].
  destruct urgent.
  - unfold downloadModel. apply models_inv_downloadModel_end; [|exact H1].
    apply task_known_begin; apply H1.
  - cbn. eapply models_inv_queue_step; [apply queue_step_addToDownloadQueue|].
    exact H1.
Qed.

Lemma models_inv_deleteModel known modelId reply st :
  models_inv known st ->
  models_inv known (snd (deleteModel modelId reply st)).
Proof.
  intros H. unfold deleteModel.
  destruct (map_get (models st) modelId) as [m|] eqn:E; [|exact H].
  destruct (_ || _); [exact H|]. destruct reply; [|exact H]. cbn.
  apply models_inv_set; auto.
  destruct H as (Hk & _). rewrite <- Hk. eapply map_get_In, E.
Qed.

Lemma Forall_delete_task {A} (P : A -> Prop) (l : list A) i :
  Forall P l -> Forall P (delete i l).
Proof.
  intros H. revert i. induction H as [|a l Ha Hl IH]; intros [|i]; simpl;
    auto.
Qed.

Lemma models_inv_step known st ev st2 :
  models_inv known st -> step st ev = Some st2 -> models_inv known st2.
Proof.
  intros H. destruct ev; cbn; intros E.
  - inversion E; subst.
    eapply models_inv_queue_step; [apply queue_step_addToDownloadQueue|auto].
  - inversion E; subst.
    eapply models_inv_queue_step;
      [apply queue_step_startProgressiveDownloading|auto].
  - inversion E; subst. exact H.
  - inversion E; subst.
    eapply models_inv_queue_step;
      [apply queue_step_startProgressiveDownloading|auto].
  - inversion E; subst. exact H.
  - inversion E; subst. now apply models_inv_requestModel.
  - inversion E; subst. now apply models_inv_deleteModel.
  - destruct (suspended st !! i) as [[maxC item|]|] eqn:Hi; inversion E; subst.
    assert (H1 : models_inv known (set_suspended (delete i (suspended st)) st)).
    { apply models_inv_set_suspended; [|exact H].
      apply Forall_delete_task, H. }
    unfold processDownloadQueue_resume.
    destruct (wouldExceedStorageLimit _ _ _);
      (eapply models_inv_queue_step; [apply queue_step_loop|]); [exact H1|].
    unfold downloadModelProgressively_begin.
    apply models_inv_set_suspended; [|exact H1].
    cbn. apply Forall_app. split; [apply Forall_delete_task, H|].
    constructor; [|constructor].
    apply (task_known_begin known (Item.modelId item) st); apply H.
  - destruct (suspended st !! i) as [[|modelId [| |modelConfig]]|] eqn:Hi;
      inversion E; subst.
    assert (Hc : task_known known
                   (AwaitDownload modelId (Fetching modelConfig))).
    { destruct H as (_ & _ & Ht). rewrite Forall_forall in Ht.
      apply Ht. eapply list_elem_of_lookup_2, Hi. }
    destruct Hc as [Hin Hid]. now apply models_inv_set.
  - destruct (suspended st !! i) as [[|modelId call]|] eqn:Hi;
      inversion E; subst.
    assert (Hc : task_known known (AwaitDownload modelId call)).
    { destruct H as (_ & _ & Ht). rewrite Forall_forall in Ht.
      apply Ht. eapply list_elem_of_lookup_2, Hi. }
    assert (H1 : models_inv known (set_suspended (delete i (suspended st)) st)).
    { apply models_inv_set_suspended; [|exact H].
      apply Forall_delete_task, H. }
    unfold downloadModelProgressively_end.
    pose proof (models_inv_downloadModel_end known modelId call fs _ Hc H1) as H2.
    destruct (downloadModel_end modelId call fs
                (set_suspended (delete i (suspended st)) st)) as [[r c] st3].
    cbn in H2.
    eapply models_inv_queue_step; [apply queue_step_loop|]. exact H2.
Qed.

Lemma models_inv_run known evs : forall st st2,
  models_inv known st -> run st evs = Some st2 -> models_inv known st2.
Proof.
  induction evs as [|ev evs IH]; simpl; intros st st2 H E.
  - now inversion E; subst.
  - destruct (step st ev) as [st1|] eqn:Es; [|discriminate].
    eapply IH; [|exact E]. eapply models_inv_step; eauto.
Qed.

End KnownModels.

Section KnownModelsFromStart.
Import Js ModelManager ModelAccess.

Lemma loadConfigs_filed fs configs : forall st,
  Forall filed (models st) ->
  Forall filed (models (fst (loadConfigs fs configs st))).
Proof.
  induction configs as [|config configs IH]; intros st H; simpl; [exact H|].
  destruct (modelJson_exists fs _); [|exact H].
  apply IH. cbn. apply map_set_Forall; [exact H|reflexivity].
Qed.

Lemma loadConfigs_suspended fs configs : forall st,
  suspended (fst (loadConfigs fs configs st)) = suspended st.
Proof.
  induction configs as [|config configs IH]; intros st; simpl; [reflexivity|].
  destruct (modelJson_exists fs _); [|reflexivity]. now rewrite IH.
Qed.

Lemma loadConfigs_keys fs documentDirectoryPath :
  exists n,
    keys (fst (loadConfigs fs Catalog.MODEL_CONFIGS
                 (new_ModelManager documentDirectoryPath)))
    = firstn n (map Catalog.id Catalog.MODEL_CONFIGS).
Proof.
  unfold Catalog.MODEL_CONFIGS, keys. cbn [loadConfigs].
  destruct (modelJson_exists fs _); [|now exists 0%nat].
  destruct (modelJson_exists fs _); [|now exists 1%nat].
  destruct (modelJson_exists fs _); [|now exists 2%nat].
  now exists 3%nat.
Qed.

Lemma initializeModelConfigs_cases fs st :
  initializeModelConfigs fs st = st
  \/ initializeModelConfigs fs st = fst (loadConfigs fs Catalog.MODEL_CONFIGS st)
  \/ initializeModelConfigs fs st
     = startProgressiveDownloading
         (fst (loadConfigs fs Catalog.MODEL_CONFIGS st)).
Proof.
  unfold initializeModelConfigs.
  destruct (loadConfigs fs Catalog.MODEL_CONFIGS st) as [st1 []];
    destruct (modelDir_exists fs) as [[|]|]; cbn; auto;
    destruct (modelDir_mkdir fs); cbn; auto.
Qed.

Lemma models_inv_start fs documentDirectoryPath :
  let st := initializeModelConfigs fs (new_ModelManager documentDirectoryPath) in
  models_inv (keys st) st
  /\ exists n, keys st = firstn n (map Catalog.id Catalog.MODEL_CONFIGS).
Proof.
  cbv zeta.
  set (st0 := new_ModelManager documentDirectoryPath).
  assert (H0 : models_inv (keys st0) st0)
    by (repeat split; constructor).
  assert (H1 : models_inv (keys (fst (loadConfigs fs Catalog.MODEL_CONFIGS st0)))
                 (fst (loadConfigs fs Catalog.MODEL_CONFIGS st0))).
  { repeat split.
    - apply loadConfigs_filed. constructor.
    - rewrite loadConfigs_suspended. constructor. }
  destruct (initializeModelConfigs_cases fs st0) as [E|[E|E]]; rewrite E.
  - split; [exact H0|]. now exists 0%nat.
  - split; [exact H1|]. apply loadConfigs_keys.
  - pose proof (queue_step_startProgressiveDownloading
                  (fst (loadConfigs fs Catalog.MODEL_CONFIGS st0))) as Hq.
    assert (Hk : keys (startProgressiveDownloading
                         (fst (loadConfigs fs Catalog.MODEL_CONFIGS st0)))
                 = keys (fst (loadConfigs fs Catalog.MODEL_CONFIGS st0))).
    { unfold keys. destruct Hq as (-> & _). reflexivity. }
    rewrite Hk. split; [|apply loadConfigs_keys].
    eapply models_inv_queue_step; [exact Hq|exact H1].
Qed.

(** X1. The models the manager knows are fixed once the configuration
    has been read: no step adds an entry to the map or removes one, the
    ids are a prefix of the catalog's, in its order, and every entry is
    filed under its own id. *)
Theorem known_models_fixed
  (fs : InitFs) (documentDirectoryPath : string) (evs : list event)
  (st : ModelManager) :
  run (initializeModelConfigs fs (new_ModelManager documentDirectoryPath)) evs
  = Some st ->
  keys st
  = keys (initializeModelConfigs fs (new_ModelManager documentDirectoryPath))
  /\ (exists n, keys st = firstn n (map Catalog.id Catalog.MODEL_CONFIGS))
  /\ Forall filed (models st).
Proof.
  intros Hrun.
  destruct (models_inv_start fs documentDirectoryPath) as [H0 Hn].
  pose proof (models_inv_run _ evs _ _ H0 Hrun) as (Hk & Hf & _).
  split; [exact Hk|]. split; [|exact Hf]. now rewrite Hk.
Qed.

Lemma known_models_fixed_witness :
  exists st,
    run (initializeModelConfigs fresh_install (new_ModelManager "/documents"))
      (enqueue_with_tie
       ++ [CallDeleteModel "en2tr-small" (Ok tt);
           DownloadSettled 0 fs_ok;
           CallRequestModel "tr2en-small" true fs_ok]) = Some st
    /\ keys st = ["en2tr-small"; "tr2en-small"; "opus-mt-en2tr-base"]
    /\ keys st
       = keys (initializeModelConfigs fresh_install
                 (new_ModelManager "/documents"))
    /\ (exists n, keys st = firstn n (map Catalog.id Catalog.MODEL_CONFIGS))
    /\ Forall filed (models st).
Proof.
  eexists. split; [vm_compute; reflexivity|].
  split; [vm_compute; reflexivity|].
  apply (known_models_fixed fresh_install "/documents"
           (enqueue_with_tie
            ++ [CallDeleteModel "en2tr-small" (Ok tt);
                DownloadSettled 0 fs_ok;
                CallRequestModel "tr2en-small" true fs_ok])).
  vm_compute. reflexivity.
Defined.

End KnownModelsFromStart.

(** ** The queue and the active set *)

Section SortPermutation.
Import Js.
Context {A : Type} (after : A -> A -> bool).

Lemma sort_insert_Permutation a l :
  Permutation (sort_insert after a l) (a :: l).
Proof.
  induction l as [|b l IH]; simpl; [reflexivity|].
  destruct (after a b); [|reflexivity].
  rewrite IH. apply perm_swap.
Qed.

Lemma sort_Permutation l : Permutation (sort after l) l.
Proof.
  induction l as [|a l IH]; simpl; [reflexivity|].
  rewrite sort_insert_Permutation. now constructor.
Qed.

End SortPermutation.

Section QueueIds.
Import Js ModelManager ModelAccess.

Lemma existsb_queued modelId q :
  existsb (fun item => String.eqb (Item.modelId item) modelId) q = false ->
  ~ In modelId (map Item.modelId q).
Proof.
  induction q as [|item q IH]; simpl; [tauto|].
  destruct (String.eqb_spec (Item.modelId item) modelId) as [E|Hne];
    [discriminate|].
  intros H [E'|Hin]; [contradiction|]. now apply IH.
Qed.

Lemma queued_loop maxC st :
  exists k, queued (processDownloadQueue_loop maxC st) = drop k (queued st).
Proof.
  destruct (processDownloadQueue_loop_queue maxC st) as [k Hk].
  exists k. unfold queued. rewrite Hk. symmetry. apply List.skipn_map.
Qed.

Lemma NoDup_drop {A} (l : list A) k : List.NoDup l -> List.NoDup (drop k l).
Proof.
  revert l. induction k as [|k IH]; intros [|a l] H; simpl; auto.
  inversion H; subst. auto.
Qed.

Lemma queue_unique_loop maxC st :
  queue_unique st -> queue_unique (processDownloadQueue_loop maxC st).
Proof.
  unfold queue_unique. intros H.
  destruct (queued_loop maxC st) as [k ->]. now apply NoDup_drop.
Qed.

Lemma queue_unique_addToDownloadQueue modelId priority estimatedSize st :
  queue_unique st ->
  queue_unique (addToDownloadQueue modelId priority estimatedSize st).
Proof.
  intros H. unfold addToDownloadQueue.
  destruct (existsb _ _) eqn:Eq; [exact H|].
  destruct (bool_decide _); [exact H|]. cbn [orb].
  apply queue_unique_loop. unfold queue_unique, queued in *. cbn.
  eapply Permutation_NoDup.
  - symmetry. apply Permutation_map, sort_Permutation.
  - rewrite map_app. cbn.
    eapply Permutation_NoDup; [apply Permutation_cons_append|].
    constructor; [|exact H]. now apply existsb_queued.
Qed.

Lemma queue_unique_fold (l : list ModelInfo) : forall st,
  queue_unique st ->
  queue_unique
    (fold_left
       (fun st model =>
          addToDownloadQueue (Model.id model)
            (or_default (Model.priority model) 1)
            (or_default (Model.downloadSize model) (15 * 1024 * 1024)) st)
       l st).
Proof.
  induction l as [|m l IH]; intros st H; simpl; [exact H|].
  apply IH. now apply queue_unique_addToDownloadQueue.
Qed.

Lemma queue_unique_startProgressiveDownloading st :
  queue_unique st -> queue_unique (startProgressiveDownloading st).
Proof.
  intros H. unfold startProgressiveDownloading.
  apply queue_unique_loop. now apply queue_unique_fold.
Qed.

Lemma queue_unique_frame st st2 :
  downloadQueue st2 = downloadQueue st -> queue_unique st -> queue_unique st2.
Proof. unfold queue_unique, queued. now intros ->. Qed.

Lemma queue_unique_requestModel modelId urgent fs st :
  queue_unique st -> queue_unique (snd (requestModel modelId urgent fs st)).
Proof.
  intros H. unfold requestModel.
  destruct (map_get (models st) modelId) as [model|]; [|exact H].
  destruct (Model.isDownloaded model); [exact H|].
  destruct urgent.
  - unfold downloadModel.
    match goal with |- context [downloadModel_end ?i ?c ?f ?s] =>
      destruct (downloadModel_end_frame i c f s) as (Hq & _) end.
    eapply queue_unique_frame; [exact Hq|exact H].
  - cbn. apply queue_unique_addToDownloadQueue. exact H.
Qed.

Lemma queue_unique_deleteModel modelId reply st :
  queue_unique st -> queue_unique (snd (deleteModel modelId reply st)).
Proof.
  intros H. unfold deleteModel.
  destruct (map_get (models st) modelId) as [m|]; [|exact H].
  destruct (_ || _); [exact H|]. destruct reply; exact H.
Qed.

Lemma queue_unique_step st ev st2 :
  queue_unique st -> step st ev = Some st2 -> queue_unique st2.
Proof.
  intros H. destruct ev; cbn; intros E.
  - inversion E; subst. now apply queue_unique_addToDownloadQueue.
  - inversion E; subst. now apply queue_unique_startProgressiveDownloading.
  - inversion E; subst. constructor.
  - inversion E; subst. now apply queue_unique_startProgressiveDownloading.
  - inversion E; subst. exact H.
  - inversion E; subst. now apply queue_unique_requestModel.
  - inversion E; subst. now apply queue_unique_deleteModel.
  - destruct (suspended st !! i) as [[maxC item|]|]; inversion E; subst.
    unfold processDownloadQueue_resume.
    destruct (wouldExceedStorageLimit _ _ _); apply queue_unique_loop; exact H.
  - destruct (suspended st !! i) as [[|modelId [| |modelConfig]]|];
      inversion E; subst. exact H.
  - destruct (suspended st !! i) as [[|modelId call]|]; inversion E; subst.
    unfold downloadModelProgressively_end.
    match goal with |- context [downloadModel_end ?i ?c ?f ?s] =>
      pose proof (downloadModel_end_frame i c f s) as (Hq & _);
      destruct (downloadModel_end i c f s) as [[r c0] st3] end.
    apply queue_unique_loop. cbn in *.
    eapply queue_unique_frame; [|exact H]. cbn. exact Hq.
Qed.

Lemma queue_unique_run evs : forall st st2,
  queue_unique st -> run st evs = Some st2 -> queue_unique st2.
Proof.
  induction evs as [|ev evs IH]; simpl; intros st st2 H E.
  - now inversion E; subst.
  - destruct (step st ev) as [st1|] eqn:Es; [|discriminate].
    eapply IH; [|exact E]. eapply queue_unique_step; eauto.
Qed.

Lemma queue_unique_start fs documentDirectoryPath :
  queue_unique
    (initializeModelConfigs fs (new_ModelManager documentDirectoryPath)).
Proof.
  set (st0 := new_ModelManager documentDirectoryPath).
  assert (H0 : queue_unique st0) by constructor.
  assert (H1 : queue_unique (fst (loadConfigs fs Catalog.MODEL_CONFIGS st0))).
  { eapply queue_unique_frame; [|exact H0]. apply loadConfigs_frame. }
  destruct (initializeModelConfigs_cases fs st0) as [E|[E|E]]; rewrite E; auto.
  now apply queue_unique_startProgressiveDownloading.
Qed.

(** X2. No model is in the download queue twice, in any state the
    manager reaches. *)
Theorem download_queue_without_duplicates
  (fs : InitFs) (documentDirectoryPath : string) (evs : list event)
  (st : ModelManager) :
  run (initializeModelConfigs fs (new_ModelManager documentDirectoryPath)) evs
  = Some st ->
  List.NoDup (queued st).
Proof.
  intros Hrun. eapply queue_unique_run; [|exact Hrun].
  apply queue_unique_start.
Qed.

Lemma download_queue_without_duplicates_witness :
  exists st,
    run (initializeModelConfigs fresh_install (new_ModelManager "/documents"))
      (enqueue_with_tie ++ [CallAddToDownloadQueue "fr2en" 90 1]) = Some st
    /\ queued st = ["de2en"; "fr2en"; "es2en"]
    /\ List.NoDup (queued st).
Proof.
  eexists. split; [vm_compute; reflexivity|].
  split; [vm_compute; reflexivity|].
  apply (download_queue_without_duplicates fresh_install "/documents"
           (enqueue_with_tie ++ [CallAddToDownloadQueue "fr2en" 90 1])).
  vm_compute. reflexivity.
Defined.

End QueueIds.

Section ActiveSet.
Import Js ModelManager ModelAccess.

Lemma sched_step_queue_step st st2 : queue_step st st2 -> sched_step st st2.
Proof. intros (_ & _ & Ha & _ & Hs). split; auto. Qed.

Lemma backed_sched_step st st2 : sched_step st st2 -> backed st -> backed st2.
Proof.
  intros (Ha & l & Hs & _) H modelId Hin. rewrite Ha in Hin.
  destruct (H modelId Hin) as [call Hc]. exists call.
  rewrite Hs. apply in_or_app. auto.
Qed.

Lemma sched_step_requestModel modelId urgent fs st :
  sched_step st (snd (requestModel modelId urgent fs st)).
Proof.
  split; [apply requestModel_active|].
  unfold requestModel.
  destruct (map_get (models st) modelId) as [model|];
    [|exists []; split; [now rewrite app_nil_r|constructor]].
  destruct (Model.isDownloaded model);
    [exists []; split; [now rewrite app_nil_r|constructor]|].
  destruct urgent.
  - unfold downloadModel.
    match goal with |- context [downloadModel_end ?i ?c ?f ?s] =>
      destruct (downloadModel_end_frame i c f s) as (_ & _ & _ & Hs & _) end.
    exists []. split; [|constructor]. rewrite Hs. cbn. now rewrite app_nil_r.
  - cbn.
    match goal with |- context [addToDownloadQueue ?i ?p ?e ?s] =>
      destruct (queue_step_addToDownloadQueue i p e s)
        as (_ & _ & _ & _ & l & Hs & Hl) end.
    exists l. split; [exact Hs|exact Hl].
Qed.

Lemma sched_step_deleteModel modelId reply st :
  sched_step st (snd (deleteModel modelId reply st)).
Proof.
  split; [apply deleteModel_active|].
  exists []. split; [|constructor]. rewrite app_nil_r.
  unfold deleteModel.
  destruct (map_get (models st) modelId) as [m|]; [|reflexivity].
  destruct (_ || _); [reflexivity|]. destruct reply; reflexivity.
Qed.

Lemma In_delete_other {A} (l : list A) i a b :
  l !! i = Some b -> a <> b -> In a l -> In a (delete i l).
Proof.
  revert i. induction l as [|x l IH]; intros [|i]; simpl; try tauto.
  - intros [= ->] Hne [E|Hin]; [congruence|exact Hin].
  - intros Hi Hne [E|Hin]; [auto|]. right. eapply IH; eauto.
Qed.

Lemma In_delete {A} (l : list A) i a : In a (delete i l) -> In a l.
Proof.
  revert i. induction l as [|x l IH]; intros [|i]; simpl; try tauto.
  intros [E|Hin]; [auto|]. right. eapply IH; eauto.
Qed.

Lemma backed_step st ev st2 : backed st -> step st ev = Some st2 -> backed st2.
Proof.
  intros H. destruct ev; cbn; intros E.
  - inversion E; subst. eapply backed_sched_step; [|exact H].
    apply sched_step_queue_step, queue_step_addToDownloadQueue.
  - inversion E; subst. eapply backed_sched_step; [|exact H].
    apply sched_step_queue_step, queue_step_startProgressiveDownloading.
  - inversion E; subst. exact H.
  - inversion E; subst. eapply backed_sched_step; [|exact H].
    apply sched_step_queue_step, queue_step_startProgressiveDownloading.
  - inversion E; subst. exact H.
  - inversion E; subst. eapply backed_sched_step; [|exact H].
    apply sched_step_requestModel.
  - inversion E; subst. eapply backed_sched_step; [|exact H].
    apply sched_step_deleteModel.
  - destruct (suspended st !! i) as [[maxC item|]|] eqn:Hi; inversion E; subst.
    assert (H1 : backed (set_suspended (delete i (suspended st)) st)).
    { intros modelId Hin. destruct (H modelId Hin) as [call Hc].
      exists call. cbn. eapply In_delete_other; [exact Hi|discriminate|exact Hc]. }
    unfold processDownloadQueue_resume.
    destruct (wouldExceedStorageLimit _ _ _);
      (eapply backed_sched_step;
       [apply sched_step_queue_step, queue_step_loop|]); [exact H1|].
    intros modelId Hin. cbn in Hin. cbn.
    apply elem_of_union in Hin as [Hin|Hin].
    + apply elem_of_singleton in Hin. subst. eexists.
      apply in_or_app. right. left. reflexivity.
    + destruct (H1 modelId Hin) as [call Hc]. exists call.
      apply in_or_app. left. exact Hc.
  - destruct (suspended st !! i) as [[|modelId [| |modelConfig]]|] eqn:Hi;
      inversion E; subst. exact H.
  - destruct (suspended st !! i) as [[|modelId call]|] eqn:Hi;
      inversion E; subst.
    unfold downloadModelProgressively_end.
    match goal with |- context [downloadModel_end ?i ?c ?f ?s] =>
      pose proof (downloadModel_end_frame i c f s) as (_ & _ & Ha & Hs & _);
      destruct (downloadModel_end i c f s) as [[r c0] st3] end.
    cbn in Ha, Hs.
    eapply backed_sched_step;
      [apply sched_step_queue_step, queue_step_loop|].
    intros id Hin. cbn in Hin. rewrite Ha in Hin.
    apply elem_of_difference in Hin as [Hin Hne].
    destruct (H id Hin) as [call' Hc]. exists call'. cbn. rewrite Hs.
    eapply In_delete_other; [exact Hi| |exact Hc].
    intros [= -> _]. apply Hne. now apply elem_of_singleton.
Qed.

Lemma backed_run evs : forall st st2,
  backed st -> run st evs = Some st2 -> backed st2.
Proof.
  induction evs as [|ev evs IH]; simpl; intros st st2 H E.
  - now inversion E; subst.
  - destruct (step st ev) as [st1|] eqn:Es; [|discriminate].
    eapply IH; [|exact E]. eapply backed_step; eauto.
Qed.

Lemma backed_start fs documentDirectoryPath :
  backed (initializeModelConfigs fs (new_ModelManager documentDirectoryPath)).
Proof.
  set (st0 := new_ModelManager documentDirectoryPath).
  assert (H0 : backed st0).
  { intros modelId Hin. cbn in Hin. now apply not_elem_of_empty in Hin. }
  assert (Hl : forall configs st,
             activeDownloads (fst (loadConfigs fs configs st))
             = activeDownloads st).
  { induction configs as [|config configs IH]; intros st; simpl; [reflexivity|].
    destruct (modelJson_exists fs _); [|reflexivity]. now rewrite IH. }
  assert (H1 : backed (fst (loadConfigs fs Catalog.MODEL_CONFIGS st0))).
  { intros modelId Hin. rewrite Hl in Hin. cbn in Hin.
    now apply not_elem_of_empty in Hin. }
  destruct (initializeModelConfigs_cases fs st0) as [E|[E|E]]; rewrite E; auto.
  eapply backed_sched_step; [|exact H1].
  apply sched_step_queue_step, queue_step_startProgressiveDownloading.
Qed.

(** X3. A model is in the active set only while an invocation of
    [downloadModelProgressively] for it is suspended, which takes it out
    again when the download settles: no slot of the active set is held
    by a download that is not running. *)
Theorem active_downloads_are_running
  (fs : InitFs) (documentDirectoryPath : string) (evs : list event)
  (st : ModelManager) :
  run (initializeModelConfigs fs (new_ModelManager documentDirectoryPath)) evs
  = Some st ->
  forall modelId,
    modelId ∈ activeDownloads st ->
    exists call, In (AwaitDownload modelId call) (suspended st).
Proof.
  intros Hrun. eapply backed_run; [|exact Hrun]. apply backed_start.
Qed.

End ActiveSet.

Section ActiveSetWitness.
Import Js ModelManager ModelAccess.

Lemma active_downloads_are_running_witness :
  exists st,
    run (initializeModelConfigs fresh_install (new_ModelManager "/documents"))
      three_checks = Some st
    /\ size (activeDownloads st) = 3%nat
    /\ forall modelId,
         modelId ∈ activeDownloads st ->
         exists call, In (AwaitDownload modelId call) (suspended st).
Proof.
  eexists. split; [vm_compute; reflexivity|].
  split; [vm_compute; reflexivity|].
  apply (active_downloads_are_running fresh_install "/documents" three_checks).
  vm_compute. reflexivity.
Defined.

End ActiveSetWitness.

Section Pause.
Import Js ModelManager ModelAccess.

Lemma lookup_In' {A} (l : list A) i a : l !! i = Some a -> In a l.
Proof.
  revert i. induction l as [|b l IH]; intros [|i]; cbn; try discriminate.
  - intros [= ->]. now left.
  - intros H. right. eapply IH. exact H.
Qed.

Lemma processDownloadQueue_loop_empty maxC st :
  downloadQueue st = [] -> processDownloadQueue_loop maxC st = st.
Proof.
  intros E. unfold processDownloadQueue_loop. rewrite E.
  now destruct (_ <? _).
Qed.

Lemma paused_from_step st0 st ev st2 :
  is_resumption ev -> paused_from st0 st -> step st ev = Some st2 ->
  paused_from st0 st2.
Proof.
  intros Hev (Hq & Hc & Ha). destruct ev; try destruct Hev; cbn; intros E.
  - destruct (suspended st !! i) as [[maxC item|]|] eqn:Hi; inversion E; subst.
    assert (Hitem : In (AwaitStorageCheck maxC item) (suspended st0)).
    { apply Hc. eapply lookup_In'. exact Hi. }
    unfold processDownloadQueue_resume.
    destruct (wouldExceedStorageLimit _ _ _);
      rewrite processDownloadQueue_loop_empty by exact Hq.
    + split; [exact Hq|]. split; [|exact Ha].
      intros m it Hin. cbn in Hin. apply Hc. eapply In_delete, Hin.
    + split; [exact Hq|]. split.
      * intros m it Hin. cbn in Hin.
        apply in_app_or in Hin as [Hin|[Hin|[]]]; [|discriminate].
        apply Hc. eapply In_delete, Hin.
      * intros id Hin. cbn in Hin.
        apply elem_of_union in Hin as [Hin|Hin]; [|now apply Ha].
        apply elem_of_singleton in Hin. subst id.
        right. exists maxC, item. auto.
  - destruct (suspended st !! i) as [[|modelId [| |modelConfig]]|] eqn:Hi;
      inversion E; subst.
    split; [exact Hq|]. split; [exact Hc|exact Ha].
  - destruct (suspended st !! i) as [[|modelId call]|] eqn:Hi;
      inversion E; subst.
    unfold downloadModelProgressively_end.
    match goal with |- context [downloadModel_end ?i ?c ?f ?s] =>
      pose proof (downloadModel_end_frame i c f s)
        as (Hq2 & _ & Ha2 & Hs & _);
      destruct (downloadModel_end i c f s) as [[r c0] st3] end.
    cbn in Hq2, Hs, Ha2. unfold processDownloadQueue.
    rewrite processDownloadQueue_loop_empty by (cbn; congruence).
    split; [cbn; congruence|]. split.
    + intros m it Hin. cbn in Hin.
      rewrite Hs in Hin. apply Hc. eapply In_delete, Hin.
    + intros id Hin. cbn in Hin. rewrite Ha2 in Hin.
      apply elem_of_difference in Hin as [Hin _]. now apply Ha.
Qed.

(** X4. [pauseProgressiveDownloading] empties the queue and nothing
    else: the downloads under way go on, and so do the storage checks
    of the entries that had been taken off the queue.  As long as
    suspended invocations only resume afterwards (storage checks
    answer, downloads report progress and settle), the queue stays
    empty and no storage check is started, so every model that becomes
    active was active at the pause or waited for its storage check
    then; and such a check, answered with a usage that leaves room,
    does start the download of its model, pause or not. *)
Theorem pause_empties_queue_only
  (st : ModelManager) (evs : list event) (st2 : ModelManager) :
  Forall is_resumption evs ->
  run (pauseProgressiveDownloading st) evs = Some st2 ->
  activeDownloads (pauseProgressiveDownloading st) = activeDownloads st
  /\ suspended (pauseProgressiveDownloading st) = suspended st
  /\ downloadQueue st2 = []
  /\ (forall maxC item,
        In (AwaitStorageCheck maxC item) (suspended st2) ->
        In (AwaitStorageCheck maxC item) (suspended st))
  /\ (forall modelId,
        modelId ∈ activeDownloads st2 ->
        modelId ∈ activeDownloads st \/ pending_check modelId st)
  /\ (forall i maxC item stat,
        suspended st !! i = Some (AwaitStorageCheck maxC item) ->
        wouldExceedStorageLimit stat (Item.estimatedSize item) st = false ->
        exists st',
          step (pauseProgressiveDownloading st) (StorageChecked i stat)
          = Some st'
          /\ Item.modelId item ∈ activeDownloads st').
Proof.
  intros Hevs Hrun. split; [reflexivity|]. split; [reflexivity|].
  assert (H0 : paused_from st (pauseProgressiveDownloading st))
    by (split; [reflexivity|split; auto]).
  assert (Hpaused : paused_from st st2).
  { revert Hrun H0. generalize (pauseProgressiveDownloading st).
    induction Hevs as [|ev evs Hev Hevs IH]; simpl; intros st1 Hrun H0.
    - inversion Hrun; subst. exact H0.
    - destruct (step st1 ev) as [st3|] eqn:Es; [|discriminate].
      eapply IH; [exact Hrun|]. eapply paused_from_step; eauto. }
  destruct Hpaused as (Hq & Hc & Ha).
  split; [exact Hq|]. split; [exact Hc|]. split; [exact Ha|].
  intros i maxC item stat Hi Hroom.
  unfold step, pauseProgressiveDownloading.
  cbn [suspended set_downloadQueue]. rewrite Hi.
  eexists. split; [reflexivity|].
  unfold processDownloadQueue_resume, wouldExceedStorageLimit in *.
  cbn [progressiveOptions set_suspended set_downloadQueue].
  rewrite Hroom. rewrite processDownloadQueue_loop_active.
  cbn. apply elem_of_union. left. now apply elem_of_singleton.
Qed.

End Pause.

Section Requests.
Import Js ModelManager ModelAccess.

Lemma scheduled_with_loop modelId priority maxC st :
  (exists item,
      In item (downloadQueue st)
      /\ Item.modelId item = modelId /\ Item.priority item = priority) ->
  scheduled_with modelId priority (processDownloadQueue_loop maxC st).
Proof.
  intros (item & Hin & Hid & Hp). unfold processDownloadQueue_loop.
  destruct (_ <? _); [|left; eauto].
  destruct (downloadQueue st) as [|nextItem rest] eqn:E; [destruct Hin|].
  destruct Hin as [->|Hin].
  - right. exists maxC, item. cbn. split; [|auto].
    apply in_or_app. right. left. reflexivity.
  - left. exists item. cbn. auto.
Qed.

Lemma addToDownloadQueue_new modelId priority estimatedSize st :
  ~ In modelId (queued st) -> modelId ∉ activeDownloads st ->
  scheduled_with modelId priority
    (addToDownloadQueue modelId priority estimatedSize st).
Proof.
  intros Hq Ha. unfold addToDownloadQueue.
  destruct (existsb _ _) eqn:Eq.
  { exfalso. apply Hq. apply existsb_exists in Eq as (item & Hin & E).
    apply String.eqb_eq in E. subst. apply in_map. exact Hin. }
  rewrite bool_decide_eq_false_2 by exact Ha. cbn [orb].
  apply scheduled_with_loop.
  exists {| Item.modelId := modelId; Item.priority := priority;
            Item.estimatedSize := estimatedSize; Item.addedAt := clock st |}.
  split; [|split; reflexivity].
  cbn. eapply Permutation_in; [symmetry; apply sort_Permutation|].
  apply in_or_app. right. left. reflexivity.
Qed.

Lemma addToDownloadQueue_present modelId priority estimatedSize st :
  In modelId (queued st) \/ modelId ∈ activeDownloads st ->
  addToDownloadQueue modelId priority estimatedSize st = st.
Proof.
  intros H. unfold addToDownloadQueue.
  destruct (existsb _ _) eqn:Eq; [reflexivity|].
  destruct H as [H|H].
  - exfalso. eapply existsb_queued; eauto.
  - now rewrite bool_decide_eq_true_2.
Qed.

Lemma scheduled_with_scheduled modelId priority st :
  scheduled_with modelId priority st -> scheduled modelId st.
Proof.
  intros [(item & Hin & Hid & _)|(maxC & item & Hin & Hid & _)].
  - left. unfold queued. rewrite <- Hid. now apply in_map.
  - right. right. eauto.
Qed.

(** X5. A request that is not urgent, for a model that is known and
    not downloaded, returns at once with the entry, one use added, and
    without a call to the file system.  Afterwards the model is on its
    way: if it was neither queued nor active it has been enqueued with
    its priority raised by 50 (and may have been taken off the queue for
    its storage check already); if it was, nothing about the queue has
    changed, and the entry that was queued keeps the priority it had. *)
Theorem request_schedules_download
  (modelId : string) (fs : FsReply) (st : ModelManager) (model : ModelInfo) :
  map_get (models st) modelId = Some model ->
  Model.isDownloaded model = false ->
  let st2 := snd (requestModel modelId false fs st) in
  fst (requestModel modelId false fs st) = (Ok (used model (clock st)), [])
  /\ map_get (models st2) modelId = Some (used model (clock st))
  /\ scheduled modelId st2
  /\ (~ In modelId (queued st) -> modelId ∉ activeDownloads st ->
      scheduled_with modelId (or_default (Model.priority model) 1 + 50) st2)
  /\ (In modelId (queued st) \/ modelId ∈ activeDownloads st ->
      downloadQueue st2 = downloadQueue st
      /\ suspended st2 = suspended st).
Proof.
  intros Hm Hd. cbv zeta. unfold requestModel. rewrite Hm.
  fold (used model (clock st)). rewrite Hd. cbn [fst snd].
  set (st1 := set_models _ (tick st)).
  set (p := or_default (Model.priority model) 1 + 50).
  set (sz := or_default (Model.downloadSize model) (15 * 1024 * 1024)).
  assert (Hnew : ~ In modelId (queued st) -> modelId ∉ activeDownloads st ->
                 scheduled_with modelId p (addToDownloadQueue modelId p sz st1)).
  { intros Hq Ha. apply addToDownloadQueue_new; assumption. }
  assert (Hold : In modelId (queued st) \/ modelId ∈ activeDownloads st ->
                 addToDownloadQueue modelId p sz st1 = st1).
  { intros H. apply addToDownloadQueue_present. exact H. }
  split; [reflexivity|]. split; [|split; [|split]].
  - destruct (queue_step_addToDownloadQueue modelId p sz st1) as (-> & _).
    subst st1. cbn. apply map_get_set_eq.
  - destruct (in_dec string_dec modelId (queued st)) as [Hq|Hq].
    + rewrite Hold by auto. left. exact Hq.
    + destruct (decide (modelId ∈ activeDownloads st)) as [Ha|Ha].
      * rewrite Hold by auto. right. left. exact Ha.
      * eapply scheduled_with_scheduled, Hnew; assumption.
  - exact Hnew.
  - intros H. rewrite Hold by exact H. split; reflexivity.
Qed.

End Requests.

(** ** Downloading, deleting and looking up a model *)

Section Downloads.
Import Js ModelManager ModelAccess.

Lemma downloadModel_progresses_reported modelId modelConfig reports st :
  downloadModel_progresses modelId modelConfig reports st
  = reported modelId modelConfig reports st.
Proof.
  assert (E : forall reports st,
    downloadModel_progresses modelId modelConfig reports st
    = set_models
        (models (downloadModel_progresses modelId modelConfig reports st)) st).
  { clear. intros reports.
    induction reports as [|res reports IH]; intros st;
      [now destruct st|].
    cbn [downloadModel_progresses fold_left].
    change (fold_left _ reports ?s)
      with (downloadModel_progresses modelId modelConfig reports s).
    rewrite IH at 1. reflexivity. }
  rewrite E, downloadModel_progresses_models. unfold reported.
  destruct (last reports); [reflexivity|now destruct st].
Qed.

Lemma reported_downloaded modelId modelConfig reports st entry :
  set_models
    (map_set (models (reported modelId modelConfig reports st)) modelId entry)
    (tick (reported modelId modelConfig reports st))
  = set_models (map_set (models st) modelId entry) (tick st).
Proof.
  unfold reported. destruct (last reports); [|reflexivity].
  cbn [models set_models]. rewrite map_set_set. reflexivity.
Qed.

Lemma reported_frame modelId modelConfig reports st :
  let st2 := reported modelId modelConfig reports st in
  modelDir st2 = modelDir st
  /\ downloadQueue st2 = downloadQueue st
  /\ activeDownloads st2 = activeDownloads st
  /\ progressiveOptions st2 = progressiveOptions st
  /\ suspended st2 = suspended st
  /\ clock st2 = clock st.
Proof.
  unfold reported. destruct (last reports); repeat split.
Qed.

Lemma downloadModel_end_fetching modelId modelConfig fs st :
  downloadModel_end modelId (Fetching modelConfig) fs st
  = if fetch_succeeds fs
    then (Ok (downloaded modelId modelConfig (modelDir st) (clock st)),
          snd (fst (downloadModel_end modelId (Fetching modelConfig) fs st)),
          set_models
            (map_set (models st) modelId
               (downloaded modelId modelConfig (modelDir st) (clock st)))
            (tick st))
    else (fst (fst (downloadModel_end modelId (Fetching modelConfig) fs st)),
          snd (fst (downloadModel_end modelId (Fetching modelConfig) fs st)),
          reported modelId modelConfig (fetch_reports fs) st).
Proof.
  unfold downloadModel_end, fetch_succeeds, fetch_reports, downloaded.
  rewrite downloadModel_progresses_reported.
  destruct (reported_frame modelId modelConfig (downloadFile_progress fs) st)
    as (_ & _ & _ & _ & _ & Hc).
  destruct (exists_reply fs) as [[|]|]; cbn [fst snd]; [| |reflexivity].
  - destruct (downloadFile_reply fs); [|reflexivity].
    rewrite reported_downloaded, Hc. reflexivity.
  - destruct (mkdir_reply fs); [|reflexivity].
    destruct (downloadFile_reply fs); [|reflexivity].
    rewrite reported_downloaded, Hc. reflexivity.
Qed.

Lemma downloadModel_end_fails modelId modelConfig fs st :
  fetch_succeeds fs = false ->
  exists e,
    fst (fst (downloadModel_end modelId (Fetching modelConfig) fs st))
    = Throw e.
Proof.
  unfold downloadModel_end, fetch_succeeds.
  destruct (exists_reply fs) as [[|]|]; cbn; [| |eauto].
  - destruct (downloadFile_reply fs); [discriminate|eauto].
  - destruct (mkdir_reply fs); [|eauto].
    destruct (downloadFile_reply fs); [discriminate|eauto].
Qed.

Lemma downloadModel_files_entry
  (modelId : string) (fs : FsReply) (st : ModelManager) (model : ModelInfo) :
  map_get (models st) modelId = Some model ->
  Model.isDownloaded model = false ->
  if fetch_succeeds fs
  then map_get (models (snd (downloadModel modelId fs st))) modelId
       = Some (downloaded modelId model (modelDir st) (clock st))
  else snd (downloadModel modelId fs st)
       = reported modelId model (fetch_reports fs) st.
Proof.
  intros Hm Hd.
  assert (E : downloadModel modelId fs st
              = downloadModel_end modelId (Fetching model) fs st).
  { unfold downloadModel, downloadModel_begin. now rewrite Hm, Hd. }
  rewrite E, downloadModel_end_fetching.
  destruct (fetch_succeeds fs); cbn [snd]; [apply map_get_set_eq|reflexivity].
Qed.

(** X6. [downloadModel] for a model that is known and not downloaded:
    when the file system lets the download through, the entry is filed
    as downloaded, with the path of its [model.json] under the model
    directory, whatever progress was reported on the way; from then on
    [downloadModel] and [getModel] (forced or not) return that entry,
    and [getModelPath] its path, without a call to the file system and
    without a change.  When the file system throws, the error is thrown
    on, and the manager is as the progress callback left it: as it was
    when [exists] or [mkdir] threw or [downloadFile] reported no
    progress, and otherwise with the entry of the model replaced by the
    entry the call found, carrying the progress of the last report, and
    still not filed as downloaded. *)
Theorem downloadModel_once
  (modelId : string) (fs : FsReply) (st : ModelManager) (model : ModelInfo) :
  map_get (models st) modelId = Some model ->
  Model.isDownloaded model = false ->
  let entry := downloaded modelId model (modelDir st) (clock st) in
  let st2 := snd (downloadModel modelId fs st) in
  if fetch_succeeds fs
  then
    fst (fst (downloadModel modelId fs st)) = Ok entry
    /\ map_get (models st2) modelId = Some entry
    /\ forall fs2 forceDownload,
         downloadModel modelId fs2 st2 = (Ok entry, [], st2)
         /\ getModel modelId forceDownload fs2 st2 = (Ok entry, [], st2)
         /\ getModelPath modelId fs2 st2
            = (Ok ((modelDir st +:+ "/" +:+ modelId) +:+ "/model.json"), [],
               st2)
  else
    (exists e, fst (fst (downloadModel modelId fs st)) = Throw e)
    /\ match last (fetch_reports fs) with
       | None => st2 = st
       | Some res =>
           st2 = set_models
                   (map_set (models st) modelId
                      (progressed model (fst res / snd res)%float)) st
           /\ map_get (models st2) modelId
              = Some (progressed model (fst res / snd res)%float)
           /\ Model.isDownloaded (progressed model (fst res / snd res)%float)
              = false
       end.
Proof.
  intros Hm Hd. cbv zeta.
  assert (E : downloadModel modelId fs st
              = downloadModel_end modelId (Fetching model) fs st).
  { unfold downloadModel, downloadModel_begin. now rewrite Hm, Hd. }
  rewrite E, downloadModel_end_fetching.
  pose proof (downloadModel_end_fails modelId model fs st) as Hfail.
  destruct (fetch_succeeds fs) eqn:Hf; cbn [fst snd].
  - set (entry := downloaded modelId model (modelDir st) (clock st)).
    set (st2 := set_models _ (tick st)).
    assert (Hget : map_get (models st2) modelId = Some entry)
      by apply map_get_set_eq.
    split; [reflexivity|]. split; [exact Hget|].
    intros fs2 forceDownload.
    assert (Hdl : downloadModel modelId fs2 st2 = (Ok entry, [], st2)).
    { unfold downloadModel, downloadModel_begin. rewrite Hget. reflexivity. }
    split; [exact Hdl|].
    assert (Hgm : forall force, getModel modelId force fs2 st2
                                = (Ok entry, [], st2)).
    { intros force. unfold getModel. rewrite Hget.
      destruct force; [exact Hdl|reflexivity]. }
    split; [apply Hgm|].
    unfold getModelPath. rewrite Hgm. cbn.
    destruct (String.eqb_spec
                ((modelDir st +:+ "/" +:+ modelId) +:+ "/model.json") "")
      as [Hempty|_]; [|reflexivity].
    exfalso. revert Hempty. destruct (modelDir st); cbn; discriminate.
  - split; [apply Hfail; reflexivity|].
    unfold reported. destruct (last (fetch_reports fs)) as [res|];
      [|reflexivity].
    split; [reflexivity|]. split; [apply map_get_set_eq|exact Hd].
Qed.

(** X7. [getModel] does not use [forceDownload]: forced or not, the
    call makes the same calls to the file system, returns the same and
    leaves the same state.  A model filed as downloaded is returned as
    it is filed, without a call to the file system, even when the
    download is forced; one that is not is downloaded; an unknown id
    throws. *)
Theorem getModel_ignores_forceDownload
  (modelId : string) (fs : FsReply) (st : ModelManager) :
  getModel modelId true fs st = getModel modelId false fs st
  /\ match map_get (models st) modelId with
     | Some model =>
         if Model.isDownloaded model
         then getModel modelId true fs st = (Ok model, [], st)
         else getModel modelId true fs st = downloadModel modelId fs st
     | None => getModel modelId true fs st = (Throw (not_found modelId), [], st)
     end.
Proof.
  unfold getModel. destruct (map_get (models st) modelId) as [model|] eqn:Hm;
    [|split; reflexivity].
  destruct (Model.isDownloaded model) eqn:Hd; cbn [negb orb];
    [|split; reflexivity].
  assert (E : downloadModel modelId fs st = (Ok model, [], st)).
  { unfold downloadModel, downloadModel_begin. rewrite Hm, Hd. reflexivity. }
  rewrite E. split; reflexivity.
Qed.

End Downloads.

Section RoundTrips.
Import Js ModelManager ModelAccess.

Lemma deleteModel_downloaded modelId st m :
  map_get (models st) modelId = Some m ->
  Model.isDownloaded m = true ->
  truthy_string (Model.localPath m) = true ->
  deleteModel modelId (Ok tt) st
  = (Ok tt, [FsUnlink (modelDir st +:+ "/" +:+ modelId)],
     set_models (map_set (models st) modelId (deleted modelId m)) st).
Proof.
  intros Hm Hd Hp. unfold deleteModel. rewrite Hm, Hd, Hp. reflexivity.
Qed.

(** X8. A model downloaded and then deleted is filed as not
    downloaded again, without path and progress, and with its name, url,
    version, priority, size and usage as before the download; the
    removal is asked of the file system once, a second [deleteModel]
    does nothing, and the next [downloadModel] goes to the file system
    again. *)
Theorem download_then_delete
  (modelId : string) (fs : FsReply) (st : ModelManager) (model : ModelInfo) :
  map_get (models st) modelId = Some model ->
  Model.isDownloaded model = false ->
  fetch_succeeds fs = true ->
  let st1 := snd (downloadModel modelId fs st) in
  let st2 := snd (deleteModel modelId (Ok tt) st1) in
  let entry :=
    {| Model.id := modelId;
       Model.name := Model.name model;
       Model.url := Model.url model;
       Model.version := Model.version model;
       Model.localPath := None;
       Model.isDownloaded := false;
       Model.downloadProgress := None;
       Model.downloadJobId := Model.downloadJobId model;
       Model.lastChecked := Some (clock st);
       Model.priority := Model.priority model;
       Model.downloadSize := Model.downloadSize model;
       Model.usageCount := Model.usageCount model;
       Model.lastUsed := Model.lastUsed model |} in
  fst (deleteModel modelId (Ok tt) st1)
  = (Ok tt, [FsUnlink (modelDir st +:+ "/" +:+ modelId)])
  /\ map_get (models st2) modelId = Some entry
  /\ (forall reply, deleteModel modelId reply st2 = (Ok tt, [], st2))
  /\ downloadModel_begin modelId st2 = Fetching entry.
Proof.
  intros Hm Hd Hf. cbv zeta.
  pose proof (downloadModel_files_entry modelId fs st model Hm Hd) as Hget.
  rewrite Hf in Hget.
  set (st1 := snd (downloadModel modelId fs st)) in *.
  set (d := downloaded modelId model (modelDir st) (clock st)) in *.
  assert (Hdir : modelDir st1 = modelDir st).
  { subst st1. unfold downloadModel.
    apply (downloadModel_end_models modelId _ fs st). }
  assert (Hpath : truthy_string (Model.localPath d) = true).
  { cbn. destruct (modelDir st); reflexivity. }
  rewrite (deleteModel_downloaded modelId st1 d Hget eq_refl Hpath).
  cbn [fst snd]. rewrite Hdir.
  change (deleted modelId d) with
    {| Model.id := modelId;
       Model.name := Model.name model;
       Model.url := Model.url model;
       Model.version := Model.version model;
       Model.localPath := None;
       Model.isDownloaded := false;
       Model.downloadProgress := None;
       Model.downloadJobId := Model.downloadJobId model;
       Model.lastChecked := Some (clock st);
       Model.priority := Model.priority model;
       Model.downloadSize := Model.downloadSize model;
       Model.usageCount := Model.usageCount model;
       Model.lastUsed := Model.lastUsed model |}.
  match goal with |- context [map_set (models st1) modelId ?e] =>
    set (entry := e);
    assert (Hget2 : map_get
                      (models (set_models (map_set (models st1) modelId entry)
                                 st1)) modelId = Some entry)
      by (apply map_get_set_eq)
  end.
  split; [reflexivity|]. split; [exact Hget2|]. split.
  - intros reply. unfold deleteModel. rewrite Hget2. reflexivity.
  - unfold downloadModel_begin. rewrite Hget2. reflexivity.
Qed.


(** X10. When a download started from the queue settles, the model
    leaves the active set, whatever the outcome, and the error of a
    failed download is dropped: the step always goes through.  After a
    success the entry filed is built from the entry as it was when the
    download began, so what was written to the entry in between (a use
    counted by [requestModel], a date set by [checkForUpdates]) is
    overwritten.  After a failure the model map is as the progress
    callback left it: unchanged when [exists] or [mkdir] threw or
    nothing was reported while the download was settling, and otherwise
    with the entry of the model set back to the entry captured at the
    start, carrying the progress of the last report.  A report that
    comes while the download is pending does the same: it files the
    captured entry with the progress reported, under the id of the
    download, and leaves the other entries, the queue, the active set
    and the pending work as they are. *)
Theorem progressive_download_settles
  (st : ModelManager) (i : nat) (modelId : string) (modelConfig : ModelInfo)
  (fs : FsReply) :
  suspended st !! i = Some (AwaitDownload modelId (Fetching modelConfig)) ->
  (exists st2,
     step st (DownloadSettled i fs) = Some st2
     /\ (modelId ∉ activeDownloads st2)
     /\ if fetch_succeeds fs
        then map_get (models st2) modelId
             = Some (downloaded modelId modelConfig (modelDir st) (clock st))
        else match last (fetch_reports fs) with
             | None => models st2 = models st
             | Some res =>
                 models st2
                 = map_set (models st) modelId
                     (progressed modelConfig (fst res / snd res)%float)
             end)
  /\ forall res,
       exists st3,
         step st (DownloadProgressed i res) = Some st3
         /\ models st3
            = map_set (models st) modelId
                (progressed modelConfig (fst res / snd res)%float)
         /\ map_get (models st3) modelId
            = Some (progressed modelConfig (fst res / snd res)%float)
         /\ (forall other, other <> modelId ->
                map_get (models st3) other = map_get (models st) other)
         /\ downloadQueue st3 = downloadQueue st
         /\ activeDownloads st3 = activeDownloads st
         /\ suspended st3 = suspended st.
Proof.
  intros Hi. split.
  - unfold step. rewrite Hi. eexists. split; [reflexivity|].
    split.
    + rewrite downloadModelProgressively_end_active.
      intros Hin. apply elem_of_difference in Hin as [_ Hne].
      apply Hne. now apply elem_of_singleton.
    + unfold downloadModelProgressively_end.
      rewrite downloadModel_end_fetching.
      destruct (fetch_succeeds fs).
      * match goal with |- context [processDownloadQueue ?s] =>
          destruct (queue_step_loop (maxConcurrent s) s) as (Hmod & _) end.
        unfold processDownloadQueue. unfold maxConcurrent in Hmod.
        rewrite Hmod. cbn. apply map_get_set_eq.
      * match goal with |- context [processDownloadQueue ?s] =>
          destruct (queue_step_loop (maxConcurrent s) s) as (Hmod & _) end.
        unfold processDownloadQueue. unfold maxConcurrent in Hmod.
        rewrite Hmod. unfold reported.
        destruct (last (fetch_reports fs)); reflexivity.
  - intros res. unfold step. rewrite Hi. eexists. split; [reflexivity|].
    split; [reflexivity|]. split; [apply map_get_set_eq|].
    split; [|repeat split].
    intros other Hne. apply map_get_set_ne. congruence.
Qed.

End RoundTrips.

Section Updates.
Import Js ModelManager ModelAccess.

Lemma map_set_middle {V} (done rest : list (string * V)) k v v' :
  ~ In k (map fst done) ->
  map_set (done ++ (k, v) :: rest) k v' = done ++ (k, v') :: rest.
Proof.
  induction done as [|[k0 v0] done IH]; simpl; intros Hn.
  - now rewrite String.eqb_refl.
  - destruct (String.eqb_spec k0 k) as [->|Hne]; [tauto|].
    rewrite IH; tauto.
Qed.

Lemma stamped_keys now entries :
  map fst (stamped now entries) = map fst entries.
Proof.
  revert now. induction entries as [|[k m] entries IH]; intros now; simpl;
    [reflexivity|]. now rewrite IH.
Qed.

Lemma checkForUpdates_loop_spec entries : forall done st,
  models st = done ++ entries ->
  List.NoDup (map fst (done ++ entries)) ->
  models (checkForUpdates_loop entries st)
  = done ++ stamped (clock st) entries
  /\ clock (checkForUpdates_loop entries st)
     = clock st + Z.of_nat (length entries)
  /\ modelDir (checkForUpdates_loop entries st) = modelDir st
  /\ downloadQueue (checkForUpdates_loop entries st) = downloadQueue st
  /\ activeDownloads (checkForUpdates_loop entries st) = activeDownloads st
  /\ progressiveOptions (checkForUpdates_loop entries st)
     = progressiveOptions st
  /\ suspended (checkForUpdates_loop entries st) = suspended st.
Proof.
  induction entries as [|[k m] entries IH]; intros done st Hm Hnd.
  - cbn. rewrite Hm. repeat split; lia.
  - cbn [checkForUpdates_loop stamped].
    assert (Hk : ~ In k (map fst done)).
    { rewrite map_app in Hnd. cbn in Hnd.
      apply NoDup_remove_2 in Hnd. intros Hin. apply Hnd.
      apply in_or_app. auto. }
    match goal with |- context [checkForUpdates_loop entries ?s] =>
      destruct (IH (done ++ [(k, checked k m (clock st))]) s)
        as (H1 & H2 & H3 & H4 & H5 & H6 & H7)
    end.
    + cbn. rewrite Hm, map_set_middle by exact Hk.
      now rewrite <- app_assoc.
    + rewrite <- app_assoc. cbn. rewrite map_app in *. exact Hnd.
    + rewrite H1, H2, H3, H4, H5, H6, H7. cbn.
      rewrite <- app_assoc. cbn. repeat split. lia.
Qed.

(** X11. [checkForUpdates] dates every entry of the model map, in the
    order of the map and one reading of the clock after the other, and
    changes nothing else: the entries keep their place and all their
    other fields (for an entry filed under its id), and the queue, the
    active set and the suspended downloads are untouched. *)
Theorem checkForUpdates_dates_entries (st : ModelManager) :
  List.NoDup (keys st) ->
  models (checkForUpdates st) = stamped (clock st) (models st)
  /\ keys (checkForUpdates st) = keys st
  /\ clock (checkForUpdates st) = clock st + Z.of_nat (length (models st))
  /\ downloadQueue (checkForUpdates st) = downloadQueue st
  /\ activeDownloads (checkForUpdates st) = activeDownloads st
  /\ suspended (checkForUpdates st) = suspended st
  /\ forall modelId model,
       map_get (models st) modelId = Some model ->
       exists now,
         map_get (models (checkForUpdates st)) modelId
         = Some (checked modelId model now)
         /\ clock st <= now < clock (checkForUpdates st).
Proof.
  intros Hnd. unfold checkForUpdates.
  destruct (checkForUpdates_loop_spec (models st) [] st eq_refl Hnd)
    as (H1 & H2 & _ & H4 & H5 & _ & H7).
  cbn [app] in H1. unfold keys. rewrite H1, H2, stamped_keys.
  repeat split; auto.
  clear H1 H2 H4 H5 H7.
  generalize (clock st). revert Hnd. unfold keys.
  induction (models st) as [|[k m] entries IH]; intros Hnd now modelId model;
    simpl; [discriminate|].
  destruct (String.eqb_spec k modelId) as [->|Hne].
  - intros [= ->]. exists now. split; [reflexivity|lia].
  - intros Hget. inversion Hnd; subst.
    destruct (IH H2 (now + 1) modelId model Hget) as (t & Ht & Hr).
    exists t. split; [exact Ht|lia].
Qed.

End Updates.

Section ManagerWitnesses.
Import Js ModelManager ModelAccess.

Lemma request_schedules_download_witness :
  exists model,
    map_get (models (started fresh_install)) "en2tr-small" = Some model
    /\ Model.isDownloaded model = false
    /\ let st2 :=
         snd (requestModel "en2tr-small" false fs_ok (started fresh_install)) in
       fst (requestModel "en2tr-small" false fs_ok (started fresh_install))
       = (Ok (used model (clock (started fresh_install))), [])
       /\ map_get (models st2) "en2tr-small"
          = Some (used model (clock (started fresh_install)))
       /\ scheduled "en2tr-small" st2
       /\ (~ In "en2tr-small" (queued (started fresh_install)) ->
           "en2tr-small" ∉ activeDownloads (started fresh_install) ->
           scheduled_with "en2tr-small"
             (or_default (Model.priority model) 1 + 50) st2)
       /\ (In "en2tr-small" (queued (started fresh_install))
           \/ "en2tr-small" ∈ activeDownloads (started fresh_install) ->
           downloadQueue st2 = downloadQueue (started fresh_install)
           /\ suspended st2 = suspended (started fresh_install)).
Proof.
  eexists. split; [vm_compute; reflexivity|]. split; [reflexivity|].
  apply request_schedules_download; [vm_compute; reflexivity|reflexivity].
Defined.

Lemma downloadModel_once_witness :
  exists model,
    map_get (models (started fresh_install)) "en2tr-small" = Some model
    /\ Model.isDownloaded model = false
    /\ fetch_succeeds fs_interrupted = false
    /\ last (fetch_reports fs_interrupted) = Some (524288, 1048576)%float
    /\ let entry :=
         downloaded "en2tr-small" model (modelDir (started fresh_install))
           (clock (started fresh_install)) in
       let st2 :=
         snd (downloadModel "en2tr-small" fs_interrupted
                (started fresh_install)) in
       if fetch_succeeds fs_interrupted
       then
         fst (fst (downloadModel "en2tr-small" fs_interrupted
                     (started fresh_install)))
         = Ok entry
         /\ map_get (models st2) "en2tr-small" = Some entry
         /\ forall fs2 forceDownload,
              downloadModel "en2tr-small" fs2 st2 = (Ok entry, [], st2)
              /\ getModel "en2tr-small" forceDownload fs2 st2
                 = (Ok entry, [], st2)
              /\ getModelPath "en2tr-small" fs2 st2
                 = (Ok ((modelDir (started fresh_install) +:+ "/"
                         +:+ "en2tr-small") +:+ "/model.json"), [], st2)
       else
         (exists e,
             fst (fst (downloadModel "en2tr-small" fs_interrupted
                         (started fresh_install))) = Throw e)
         /\ match last (fetch_reports fs_interrupted) with
            | None => st2 = started fresh_install
            | Some res =>
                st2 = set_models
                        (map_set (models (started fresh_install))
                           "en2tr-small"
                           (progressed model (fst res / snd res)%float))
                        (started fresh_install)
                /\ map_get (models st2) "en2tr-small"
                   = Some (progressed model (fst res / snd res)%float)
                /\ Model.isDownloaded
                     (progressed model (fst res / snd res)%float)
                   = false
            end.
Proof.
  eexists. split; [vm_compute; reflexivity|]. split; [reflexivity|].
  split; [reflexivity|]. split; [reflexivity|].
  apply downloadModel_once; [vm_compute; reflexivity|reflexivity].
Defined.

Lemma download_then_delete_witness :
  exists model,
    map_get (models (started fresh_install)) "tr2en-small" = Some model
    /\ Model.isDownloaded model = false
    /\ fetch_succeeds fs_ok = true
    /\ let st1 := snd (downloadModel "tr2en-small" fs_ok (started fresh_install)) in
       let st2 := snd (deleteModel "tr2en-small" (Ok tt) st1) in
       let entry :=
         {| Model.id := "tr2en-small";
            Model.name := Model.name model;
            Model.url := Model.url model;
            Model.version := Model.version model;
            Model.localPath := None;
            Model.isDownloaded := false;
            Model.downloadProgress := None;
            Model.downloadJobId := Model.downloadJobId model;
            Model.lastChecked := Some (clock (started fresh_install));
            Model.priority := Model.priority model;
            Model.downloadSize := Model.downloadSize model;
            Model.usageCount := Model.usageCount model;
            Model.lastUsed := Model.lastUsed model |} in
       fst (deleteModel "tr2en-small" (Ok tt) st1)
       = (Ok tt,
          [FsUnlink (modelDir (started fresh_install) +:+ "/" +:+ "tr2en-small")])
       /\ map_get (models st2) "tr2en-small" = Some entry
       /\ (forall reply, deleteModel "tr2en-small" reply st2 = (Ok tt, [], st2))
       /\ downloadModel_begin "tr2en-small" st2 = Fetching entry.
Proof.
  eexists. split; [vm_compute; reflexivity|]. split; [reflexivity|].
  split; [reflexivity|].
  apply download_then_delete;
    [vm_compute; reflexivity|reflexivity|reflexivity].
Defined.

Lemma progressive_download_settles_witness :
  exists st modelConfig,
    run (started fresh_install) three_checks = Some st
    /\ suspended st !! 0%nat
       = Some (AwaitDownload "en2tr-small" (Fetching modelConfig))
    /\ fetch_succeeds fs_interrupted = false
    /\ (exists st2,
          step st (DownloadSettled 0 fs_interrupted) = Some st2
          /\ ("en2tr-small" ∉ activeDownloads st2)
          /\ if fetch_succeeds fs_interrupted
             then map_get (models st2) "en2tr-small"
                  = Some (downloaded "en2tr-small" modelConfig (modelDir st)
                            (clock st))
             else match last (fetch_reports fs_interrupted) with
                  | None => models st2 = models st
                  | Some res =>
                      models st2
                      = map_set (models st) "en2tr-small"
                          (progressed modelConfig (fst res / snd res)%float)
                  end)
    /\ forall res,
         exists st3,
           step st (DownloadProgressed 0 res) = Some st3
           /\ models st3
              = map_set (models st) "en2tr-small"
                  (progressed modelConfig (fst res / snd res)%float)
           /\ map_get (models st3) "en2tr-small"
              = Some (progressed modelConfig (fst res / snd res)%float)
           /\ (forall other, other <> "en2tr-small" ->
                  map_get (models st3) other = map_get (models st) other)
           /\ downloadQueue st3 = downloadQueue st
           /\ activeDownloads st3 = activeDownloads st
           /\ suspended st3 = suspended st.
Proof.
  do 2 eexists. split; [vm_compute; reflexivity|].
  split; [vm_compute; reflexivity|]. split; [reflexivity|].
  apply progressive_download_settles. vm_compute. reflexivity.
Defined.

Lemma checkForUpdates_dates_entries_witness :
  List.NoDup (keys (started all_installed))
  /\ models (checkForUpdates (started all_installed))
     = stamped (clock (started all_installed)) (models (started all_installed))
  /\ keys (checkForUpdates (started all_installed))
     = keys (started all_installed)
  /\ clock (checkForUpdates (started all_installed))
     = clock (started all_installed)
       + Z.of_nat (length (models (started all_installed)))
  /\ downloadQueue (checkForUpdates (started all_installed))
     = downloadQueue (started all_installed)
  /\ activeDownloads (checkForUpdates (started all_installed))
     = activeDownloads (started all_installed)
  /\ suspended (checkForUpdates (started all_installed))
     = suspended (started all_installed)
  /\ forall modelId model,
       map_get (models (started all_installed)) modelId = Some model ->
       exists now,
         map_get (models (checkForUpdates (started all_installed))) modelId
         = Some (checked modelId model now)
         /\ clock (started all_installed) <= now
            < clock (checkForUpdates (started all_installed)).
Proof.
  assert (H : List.NoDup (keys (started all_installed))).
  { vm_compute. repeat constructor; simpl; intuition discriminate. }
  split; [exact H|]. apply checkForUpdates_dates_entries. exact H.
Defined.

Lemma pause_empties_queue_only_witness :
  exists st2,
    Forall is_resumption three_checks
    /\ run (pauseProgressiveDownloading (started fresh_install)) three_checks
       = Some st2
    /\ size (activeDownloads (started fresh_install)) = 0%nat
    /\ length (suspended (started fresh_install)) = 3%nat
    /\ size (activeDownloads st2) = 3%nat
    /\ activeDownloads (pauseProgressiveDownloading (started fresh_install))
       = activeDownloads (started fresh_install)
    /\ suspended (pauseProgressiveDownloading (started fresh_install))
       = suspended (started fresh_install)
    /\ downloadQueue st2 = []
    /\ (forall maxC item,
          In (AwaitStorageCheck maxC item) (suspended st2) ->
          In (AwaitStorageCheck maxC item) (suspended (started fresh_install)))
    /\ (forall modelId,
          modelId ∈ activeDownloads st2 ->
          modelId ∈ activeDownloads (started fresh_install)
          \/ pending_check modelId (started fresh_install))
    /\ (forall i maxC item stat,
          suspended (started fresh_install) !! i
          = Some (AwaitStorageCheck maxC item) ->
          wouldExceedStorageLimit stat (Item.estimatedSize item)
            (started fresh_install) = false ->
          exists st',
            step (pauseProgressiveDownloading (started fresh_install))
              (StorageChecked i stat) = Some st'
            /\ Item.modelId item ∈ activeDownloads st').
Proof.
  eexists.
  assert (H : Forall is_resumption three_checks) by (repeat constructor).
  split; [exact H|]. split; [vm_compute; reflexivity|].
  split; [vm_compute; reflexivity|]. split; [vm_compute; reflexivity|].
  split; [vm_compute; reflexivity|].
  eapply pause_empties_queue_only; [exact H|]. vm_compute. reflexivity.
Defined.

End ManagerWitnesses.

(** ** Confidence and alternatives of a translation *)

Section FloatOrder.
Local Open Scope float_scope.

Lemma ltb_leb (x y : float) : (x <? y) = true -> (x <=? y) = true.
Proof.
  rewrite FloatAxioms.ltb_spec, FloatAxioms.leb_spec.
  unfold SpecFloat.SFltb, SpecFloat.SFleb.
  destruct (SpecFloat.SFcompare _ _) as [[]|]; auto.
Qed.

Lemma is_nan_spec (x : float) :
  is_nan x = false -> FloatOps.Prim2SF x <> SpecFloat.S754_nan.
Proof.
  unfold is_nan. rewrite FloatAxioms.eqb_spec. intros H E. rewrite E in H.
  discriminate.
Qed.

Lemma SFcompare_total x y :
  x <> SpecFloat.S754_nan -> y <> SpecFloat.S754_nan ->
  SpecFloat.SFltb y x = false -> SpecFloat.SFleb x y = true.
Proof.
  unfold SpecFloat.SFltb, SpecFloat.SFleb.
  destruct x as [sx|sx| |sx mx ex], y as [sy|sy| |sy my ey]; cbn;
    try congruence;
    try (destruct sx; cbn; congruence);
    try (destruct sy; cbn; congruence);
    try (destruct sx, sy; cbn; congruence).
  change (Pos.compare_cont Eq mx my) with (Pos.compare mx my).
  change (Pos.compare_cont Eq my mx) with (Pos.compare my mx).
  rewrite (Z.compare_antisym ey ex), (Pos.compare_antisym my mx).
  destruct sx, sy; cbn; try congruence;
    destruct (ey ?= ex)%Z; cbn; try congruence;
    destruct (my ?= mx)%positive; cbn; congruence.
Qed.

Lemma not_ltb_leb (x y : float) :
  is_nan x = false -> is_nan y = false ->
  (y <? x) = false -> (x <=? y) = true.
Proof.
  intros Hx Hy. rewrite FloatAxioms.ltb_spec, FloatAxioms.leb_spec.
  apply SFcompare_total; now apply is_nan_spec.
Qed.

(** [Math.min(c, x)] is NaN or at most [c]; [Math.max(c, x)] is NaN or
    at least [c]. *)
Lemma Math_min2_le (c x : float) :
  (c <=? c) = true ->
  is_nan (MlService.Math_min2 c x) = true
  \/ (is_nan (MlService.Math_min2 c x) = false
      /\ (MlService.Math_min2 c x <=? c) = true).
Proof.
  intros Hc.
  assert (Hn : is_nan c = false).
  { unfold is_nan. rewrite FloatAxioms.eqb_spec.
    rewrite FloatAxioms.leb_spec in Hc.
    unfold SpecFloat.SFleb, SpecFloat.SFeqb in *.
    destruct (FloatOps.Prim2SF c) as [s|s| |s m e]; cbn in *;
      try discriminate; try (destruct s; reflexivity); try reflexivity.
    change (Pos.compare_cont Eq m m) with (Pos.compare m m) in *.
    rewrite Z.compare_refl, Pos.compare_refl in *. now destruct s. }
  unfold MlService.Math_min2. rewrite Hn. cbn [orb].
  destruct (is_nan x) eqn:Hx; [left; reflexivity|].
  destruct (c <? x) eqn:E1; [right; auto|].
  destruct (x <? c) eqn:E2; [right; split; [exact Hx|now apply ltb_leb]|].
  destruct (get_sign c); [right; auto|].
  right. split; [exact Hx|]. now apply not_ltb_leb.
Qed.

Lemma Math_max2_ge (c x : float) :
  (c <=? c) = true ->
  is_nan (MlService.Math_max2 c x) = true
  \/ (is_nan (MlService.Math_max2 c x) = false
      /\ (c <=? MlService.Math_max2 c x) = true).
Proof.
  intros Hc.
  assert (Hn : is_nan c = false).
  { unfold is_nan. rewrite FloatAxioms.eqb_spec.
    rewrite FloatAxioms.leb_spec in Hc.
    unfold SpecFloat.SFleb, SpecFloat.SFeqb in *.
    destruct (FloatOps.Prim2SF c) as [s|s| |s m e]; cbn in *;
      try discriminate; try (destruct s; reflexivity); try reflexivity.
    change (Pos.compare_cont Eq m m) with (Pos.compare m m) in *.
    rewrite Z.compare_refl, Pos.compare_refl in *. now destruct s. }
  unfold MlService.Math_max2. rewrite Hn. cbn [orb].
  destruct (is_nan x) eqn:Hx; [left; reflexivity|].
  destruct (c <? x) eqn:E1; [right; split; [exact Hx|now apply ltb_leb]|].
  destruct (x <? c) eqn:E2; [right; auto|].
  destruct (get_sign c); [|right; auto].
  right. split; [exact Hx|]. now apply not_ltb_leb.
Qed.

Lemma clamp_unit (x : float) :
  let c := MlService.Math_max2 0 (MlService.Math_min2 1 x) in
  is_nan c = true \/ ((0 <=? c) = true /\ (c <=? 1) = true).
Proof.
  cbv zeta.
  destruct (Math_min2_le 1 x eq_refl) as [Hm|[Hm Hle]].
  - left. unfold MlService.Math_max2. rewrite Hm. reflexivity.
  - set (m := MlService.Math_min2 1 x) in *.
    unfold MlService.Math_max2. rewrite Hm. cbn [is_nan orb].
    change (is_nan 0) with false. cbn [orb].
    destruct (0 <? m) eqn:E1.
    + right. split; [now apply ltb_leb|exact Hle].
    + destruct (m <? 0) eqn:E2; right; split; reflexivity.
Qed.

End FloatOrder.

Section Inferred.
Import Js MlService.
Context `{JsMath}.
Local Open Scope float_scope.

Lemma confidence_bounded (predictions : option (list float)) :
  let c := calculateTranslationConfidence predictions in
  is_nan c = true \/ ((0 <=? c) = true /\ (c <=? 1) = true).
Proof.
  cbv zeta.
  destruct predictions as [[|p predictions]|];
    try (right; split; reflexivity).
  unfold calculateTranslationConfidence. apply clamp_unit.
Qed.

(** X12.  [calculateTranslationConfidence] returns NaN or a number of
    the unit interval, whatever the predictions and whatever the
    runtime's [Math.exp], [Math.log] and [Math.pow] compute; and it
    returns 0 for a missing or empty prediction. *)
Theorem calculateTranslationConfidence_unit_interval
  (predictions : option (list float)) :
  let c := calculateTranslationConfidence predictions in
  (is_nan c = true \/ ((0 <=? c) = true /\ (c <=? 1) = true))
  /\ (predictions = None \/ predictions = Some [] -> c = 0).
Proof.
  cbv zeta. split.
  - apply confidence_bounded.
  - intros [->| ->]; reflexivity.
Qed.

Lemma flat_map_length_le {A B} (f : A -> list B) (l : list A) :
  (forall a, length (f a) <= 1)%nat ->
  (length (flat_map f l) <= length l)%nat.
Proof.
  intros Hf. induction l as [|a l IH]; cbn; [lia|].
  rewrite length_app. specialize (Hf a). lia.
Qed.

Lemma with_index_length {A} (l : list A) start :
  length (with_index start l) = length l.
Proof.
  revert start. induction l as [|a l IH]; intros start; cbn; [reflexivity|].
  now rewrite IH.
Qed.

Lemma with_index_bound {A} (l : list A) start :
  Forall (fun p => (start <= snd p < start + length l)%nat)
    (with_index start l).
Proof.
  revert start. induction l as [|a l IH]; intros start; cbn; constructor.
  - cbn. lia.
  - eapply List.Forall_impl; [|apply (IH (S start))]. cbn. intros p. lia.
Qed.

Lemma softmax_length (logits : list float) :
  length (softmax logits) = length logits.
Proof. unfold softmax. now rewrite !length_map. Qed.

Lemma sort_insert_length {A} (after : A -> A -> bool) x l :
  length (sort_insert after x l) = S (length l).
Proof.
  induction l as [|y l IH]; cbn; [reflexivity|].
  destruct (after x y); cbn; [now rewrite IH|reflexivity].
Qed.

Lemma sort_length {A} (after : A -> A -> bool) l :
  length (sort after l) = length l.
Proof.
  unfold sort. induction l as [|x l IH]; cbn [fold_right]; [reflexivity|].
  now rewrite sort_insert_length, IH.
Qed.

Lemma scale_at_length index values :
  length (scale_at index values) = length values.
Proof.
  revert index. induction values as [|v values IH]; intros [|index]; cbn;
    try reflexivity. now rewrite IH.
Qed.

Lemma Forall_tl {A} (P : A -> Prop) l : Forall P l -> Forall P (tl l).
Proof. intros [|]; cbn; auto. Qed.

Lemma Forall_firstn' {A} (P : A -> Prop) n l :
  Forall P l -> Forall P (firstn n l).
Proof.
  intros Hl. revert n. induction Hl as [|x l Hx Hl IH]; intros [|n]; cbn;
    constructor; auto.
Qed.

Lemma alternatives_at_most_three (predictions : list float) :
  (length (generateAlternativeTranslations predictions) <= 3)%nat.
Proof.
  unfold generateAlternativeTranslations.
  etransitivity; [apply flat_map_length_le|].
  - intros a. destruct (fst a <? 0.1); cbn; lia.
  - rewrite List.length_firstn. apply Nat.le_min_l.
Qed.

(** X13.  [generateAlternativeTranslations] returns at most three
    alternatives; each one carries a probability that is not below 0.1
    and the decoding of the predictions with one position, inside the
    array, scaled by 1.1; and fewer than two predictions give none. *)
Theorem generateAlternativeTranslations_top_three
  (predictions : list float) :
  let alternatives := generateAlternativeTranslations predictions in
  (length alternatives <= 3)%nat
  /\ (length alternatives <= length predictions - 1)%nat
  /\ Forall
       (fun alt =>
          exists index prob,
            (index < length predictions)%nat
            /\ text alt = decode (scale_at index predictions)
            /\ alt_confidence alt = Some prob
            /\ (prob <? 0.1) = false)
       alternatives.
Proof.
  cbv zeta. unfold generateAlternativeTranslations.
  set (sortedProbs := sort _ _).
  set (f := fun altProb : float * nat => _).
  assert (Hf : forall a, (length (f a) <= 1)%nat).
  { intros a. unfold f. destruct (fst a <? 0.1); cbn; lia. }
  assert (Hlen : length sortedProbs = length predictions).
  { unfold sortedProbs.
    now rewrite sort_length, with_index_length, softmax_length. }
  split; [|split].
  - apply alternatives_at_most_three.
  - etransitivity; [apply flat_map_length_le, Hf|].
    rewrite List.length_firstn.
    etransitivity; [apply Nat.le_min_r|].
    rewrite <- Hlen. destruct sortedProbs; cbn; lia.
  - assert (Hb : Forall (fun p => (snd p < length predictions)%nat)
                   (firstn 3 (tl sortedProbs))).
    { apply Forall_firstn', Forall_tl. unfold sortedProbs.
      apply Forall_sort.
      eapply List.Forall_impl; [|apply with_index_bound].
      cbn. intros p. rewrite softmax_length. lia. }
    induction Hb as [|p l Hp Hl IH]; cbn; [constructor|].
    apply Forall_app. split; [|exact IH].
    unfold f at 1. destruct (fst p <? 0.1) eqn:E; constructor; [|constructor].
    exists (snd p), (fst p). cbn. auto.
Qed.

(** X14.  What [mlService.translateText] settles with.  A result names
    the requested model, which is one of the catalogue, carries the
    measured time, a confidence that is NaN or in the unit interval,
    and at most three alternatives; an error is the missing
    configuration of an unknown model id, or the very error of the
    model load, of the tokenisation or of the inference. *)
Theorem translateText_settles (rt : Runtime)
  (text sourceLanguage targetLanguage modelId : string) :
  match translateText rt text sourceLanguage targetLanguage modelId with
  | Ok result =>
      In modelId (map Catalog.id Catalog.MODEL_CONFIGS)
      /\ MlService.modelId result = modelId
      /\ timeTaken result = Some (elapsed rt)
      /\ (exists c, confidence result = Some c
            /\ (is_nan c = true \/ ((0 <=? c) = true /\ (c <=? 1) = true)))
      /\ (exists alts, alternatives result = Some alts
            /\ (length alts <= 3)%nat)
      /\ loadModel_reply rt modelId = Ok tt
      /\ tokenize_reply rt text = Ok tt
      /\ exists output, runInference_reply rt text = Ok output
           /\ (output = [] ->
               translatedText result = "[Error during detokenization]"
               /\ confidence result = Some 0
               /\ alternatives result = Some [])
  | Throw e =>
      (~ In modelId (map Catalog.id Catalog.MODEL_CONFIGS)
       /\ e = ModelManager.JsError
                ("No model configuration found for modelId: " +:+ modelId))
      \/ loadModel_reply rt modelId = Throw e
      \/ (loadModel_reply rt modelId = Ok tt
          /\ tokenize_reply rt text = Throw e)
      \/ (loadModel_reply rt modelId = Ok tt
          /\ tokenize_reply rt text = Ok tt
          /\ runInference_reply rt text = Throw e)
  end.
Proof.
  unfold translateText.
  destruct (Js.find _ Catalog.MODEL_CONFIGS) as [modelConfig|] eqn:Hfind.
  - assert (Hid : Catalog.id modelConfig = modelId /\
                  In modelId (map Catalog.id Catalog.MODEL_CONFIGS)).
    { unfold Js.find in Hfind. apply List.find_some in Hfind as [Hin Heq].
      apply String.eqb_eq in Heq. split; [exact Heq|].
      rewrite <- Heq. now apply List.in_map. }
    destruct Hid as [Hid Hin]. rewrite Hid.
    destruct (loadModel_reply rt modelId) as [[]|e] eqn:Hl; [|auto].
    destruct (tokenize_reply rt text) as [[]|e] eqn:Ht; [|auto].
    destruct (runInference_reply rt text) as [output|e] eqn:Hr;
      [|right; right; right; auto].
    cbn. repeat split; auto.
    + destruct output as [|firstBatchItem output]; cbn.
      * exists 0. split; [reflexivity|]. right. split; reflexivity.
      * eexists. split; [reflexivity|].
        apply (confidence_bounded (Some firstBatchItem)).
    + destruct output as [|firstBatchItem output]; cbn.
      * exists []. split; [reflexivity|]. cbn. lia.
      * eexists. split; [reflexivity|].
        apply alternatives_at_most_three.
    + exists output. split; [reflexivity|]. intros ->. cbn. auto.
  - left. split; [|reflexivity].
    intros Hin. apply List.in_map_iff in Hin as (config & Heq & Hin).
    unfold Js.find in Hfind.
    eapply List.find_none in Hfind; [|exact Hin]. cbn in Hfind.
    apply String.eqb_neq in Hfind. contradiction.
Qed.

End Inferred.

Section LoadedModels.
Import Js ModelLoader.
Context {GraphModel : Type}.

Lemma loadModel_cached (modelId : string) (found : loaded GraphModel)
  (r : LoaderReply GraphModel) (st : MlState GraphModel) :
  isTfReady st = true -> activeModels_get st modelId = Some found ->
  loadModel modelId false r st = Some (Ok found, [], st).
Proof.
  intros Hr Hm. unfold loadModel, ensureTfReady. rewrite Hr, Hm. reflexivity.
Qed.

Lemma initializeTf_cases (r : LoaderReply GraphModel)
  (st : MlState GraphModel) :
  let ready := {| isTfReady := true; activeModels := activeModels st |} in
  match initializeTf r st with
  | (Ok _, calls, st1) =>
      st1 = ready /\ calls = [TfReady; GetRegisteredBackends; GetBackend]
  | (Throw e, calls, st1) =>
      e = failed_to_initialize
      /\ match tf_ready_reply r with
         | Throw _ => st1 = st /\ calls = [TfReady]
         | Ok _ =>
             st1 = ready
             /\ (calls = [TfReady; GetRegisteredBackends]
                 \/ calls = [TfReady; GetRegisteredBackends; GetBackend])
         end
  end.
Proof.
  unfold initializeTf.
  destruct (tf_ready_reply r); [|auto].
  destruct (getRegisteredBackends_reply r); [|auto].
  destruct (getBackend_reply r) as [[]|]; auto.
Qed.

(** X15.  [loadModel] keeps what it loaded.  After a load that
    succeeded, a later load under the same id that does not force a
    reload returns the same object without calling the runtime or the
    model manager.  A load fails with the initialisation error or with
    [Failed to load model <id>].  With the initialisation error nothing
    has been loaded; the state is as it was when [tf.ready] failed, but
    when [tf.ready] resolved and the reading of the backends threw, the
    service is marked ready all the same, and the next load does not
    initialise again.  With the other error the set of loaded models is
    unchanged, unless the failure came when the shapes of the model just
    loaded were read: then the model has been stored all the same and
    later loads return it.  The object returned by a load that is not
    forced is the model stored under the id, or, when none is stored and
    the id names a member of [Object.prototype], that member: no model
    is loaded then.  The one case not followed is a model coming back
    from the runtime for the id [__proto__]. *)
Theorem loadModel_keeps_loaded_model (modelId : string) (forceReload : bool)
  (r : LoaderReply GraphModel) (st : MlState GraphModel) :
  match loadModel modelId forceReload r st with
  | Some (Ok found, calls, st1) =>
      isTfReady st1 = true
      /\ activeModels_get st1 modelId = Some found
      /\ (forall r2, loadModel modelId false r2 st1 = Some (Ok found, [], st1))
      /\ (forall name, found = Member name ->
            name = modelId /\ inherited modelId = true
            /\ forceReload = false
            /\ activeModels st !! modelId = None
            /\ activeModels st1 = activeModels st)
  | Some (Throw e, calls, st1) =>
      (e = failed_to_initialize
       /\ isTfReady st = false
       /\ activeModels st1 = activeModels st
       /\ match tf_ready_reply r with
          | Throw _ => st1 = st /\ calls = [TfReady]
          | Ok _ =>
              isTfReady st1 = true
              /\ (calls = [TfReady; GetRegisteredBackends]
                  \/ calls = [TfReady; GetRegisteredBackends; GetBackend])
              /\ forall r2,
                   loadModel modelId forceReload r2 st1
                   = match activeModels_get st1 modelId with
                     | Some found =>
                         if negb forceReload then Some (Ok found, [], st1)
                         else loadModel_try modelId r2 [] st1
                     | None => loadModel_try modelId r2 [] st1
                     end
          end)
      \/ (e = failed_to_load modelId
          /\ isTfReady st1 = true
          /\ (activeModels st1 = activeModels st
              \/ exists model,
                   loadGraphModel_reply r = Ok model
                   /\ activeModels st1 = <[modelId := model]> (activeModels st)
                   /\ forall r2,
                        loadModel modelId false r2 st1
                        = Some (Ok (Model model), [], st1)))
  | None =>
      modelId = "__proto__"
      /\ exists model, loadGraphModel_reply r = Ok model
  end.
Proof.
  unfold loadModel at 1. unfold ensureTfReady.
  assert (Hload : forall calls st0,
    isTfReady st0 = true -> activeModels st0 = activeModels st ->
    match loadModel_try modelId r calls st0 with
    | Some (Ok found, calls, st1) =>
        isTfReady st1 = true
        /\ activeModels_get st1 modelId = Some found
        /\ (forall r2,
              loadModel modelId false r2 st1 = Some (Ok found, [], st1))
        /\ (forall name, found = Member name -> False)
    | Some (Throw e, calls, st1) =>
        e = failed_to_load modelId
        /\ isTfReady st1 = true
        /\ (activeModels st1 = activeModels st
            \/ exists model,
                 loadGraphModel_reply r = Ok model
                 /\ activeModels st1 = <[modelId := model]> (activeModels st)
                 /\ forall r2,
                      loadModel modelId false r2 st1
                      = Some (Ok (Model model), [], st1))
    | None =>
        modelId = "__proto__"
        /\ exists model, loadGraphModel_reply r = Ok model
    end).
  { intros calls st0 Hr0 Ha0. unfold loadModel_try.
    destruct (getModel_reply r) as [modelInfo|]; [|auto].
    destruct (ModelManager.Model.localPath modelInfo) as [localPath|]; [|auto].
    destruct (truthy_string (Some localPath)); [|auto].
    cbv zeta.
    destruct (loadGraphModel_reply r) as [model|]; [|auto].
    destruct (String.eqb_spec modelId "__proto__") as [Hp|_]; [eauto|].
    set (st1 := {| isTfReady := isTfReady st0;
                   activeModels := <[modelId := model]> (activeModels st0) |}).
    assert (Hget : activeModels_get st1 modelId = Some (Model model)).
    { unfold activeModels_get. cbn. now rewrite lookup_insert_eq. }
    assert (Hc : forall r2,
      loadModel modelId false r2 st1 = Some (Ok (Model model), [], st1)).
    { intros r2. apply loadModel_cached; [exact Hr0|exact Hget]. }
    destruct (shapes_reply r).
    - split; [exact Hr0|]. split; [exact Hget|]. split; [exact Hc|].
      intros name Hn. discriminate.
    - split; [reflexivity|]. split; [exact Hr0|]. right. exists model.
      split; [reflexivity|]. split; [cbn; now rewrite Ha0|exact Hc]. }
  assert (Hrest : forall calls st0,
    isTfReady st0 = true -> activeModels st0 = activeModels st ->
    match
      match activeModels_get st0 modelId with
      | Some found =>
          if negb forceReload then Some (Ok found, calls, st0)
          else loadModel_try modelId r calls st0
      | None => loadModel_try modelId r calls st0
      end
    with
    | Some (Ok found, calls, st1) =>
        isTfReady st1 = true
        /\ activeModels_get st1 modelId = Some found
        /\ (forall r2,
              loadModel modelId false r2 st1 = Some (Ok found, [], st1))
        /\ (forall name, found = Member name ->
              name = modelId /\ inherited modelId = true
              /\ forceReload = false
              /\ activeModels st !! modelId = None
              /\ activeModels st1 = activeModels st)
    | Some (Throw e, calls, st1) =>
        e = failed_to_load modelId
        /\ isTfReady st1 = true
        /\ (activeModels st1 = activeModels st
            \/ exists model,
                 loadGraphModel_reply r = Ok model
                 /\ activeModels st1 = <[modelId := model]> (activeModels st)
                 /\ forall r2,
                      loadModel modelId false r2 st1
                      = Some (Ok (Model model), [], st1))
    | None =>
        modelId = "__proto__"
        /\ exists model, loadGraphModel_reply r = Ok model
    end).
  { intros calls st0 Hr0 Ha0.
    pose proof (Hload calls st0 Hr0 Ha0) as H.
    assert (Htry :
      match loadModel_try modelId r calls st0 with
      | Some (Ok found, calls, st1) =>
          isTfReady st1 = true
          /\ activeModels_get st1 modelId = Some found
          /\ (forall r2,
                loadModel modelId false r2 st1 = Some (Ok found, [], st1))
          /\ (forall name, found = Member name ->
                name = modelId /\ inherited modelId = true
                /\ forceReload = false
                /\ activeModels st !! modelId = None
                /\ activeModels st1 = activeModels st)
      | Some (Throw e, calls, st1) =>
          e = failed_to_load modelId
          /\ isTfReady st1 = true
          /\ (activeModels st1 = activeModels st
              \/ exists model,
                   loadGraphModel_reply r = Ok model
                   /\ activeModels st1
                      = <[modelId := model]> (activeModels st)
                   /\ forall r2,
                        loadModel modelId false r2 st1
                        = Some (Ok (Model model), [], st1))
      | None =>
          modelId = "__proto__"
          /\ exists model, loadGraphModel_reply r = Ok model
      end).
    { destruct (loadModel_try modelId r calls st0) as [[[[found|e] c] s]|];
        [|exact H|exact H].
      destruct H as (H1 & H2 & H3 & H4).
      split; [exact H1|]. split; [exact H2|]. split; [exact H3|].
      intros name Hn. destruct (H4 name Hn). }
    destruct (activeModels_get st0 modelId) as [found|] eqn:Hm; [|exact Htry].
    destruct forceReload; cbn [negb]; [exact Htry|].
    split; [exact Hr0|]. split; [exact Hm|].
    split; [intros r2; now apply loadModel_cached|].
    intros name ->. unfold activeModels_get in Hm. rewrite Ha0 in Hm.
    destruct (activeModels st !! modelId); [discriminate|].
    destruct (inherited modelId) eqn:Hi; [|discriminate].
    inversion Hm; subst. auto. }
  destruct (isTfReady st) eqn:Hr.
  - pose proof (Hrest [] st Hr eq_refl) as H.
    destruct (match activeModels_get st modelId with
              | Some found =>
                  if negb forceReload then Some (Ok found, [], st)
                  else loadModel_try modelId r [] st
              | None => loadModel_try modelId r [] st
              end) as [[[[found|e] c] s]|]; [exact H|right; exact H|exact H].
  - pose proof (initializeTf_cases r st) as Hinit. cbv zeta in Hinit.
    destruct (initializeTf r st) as [[[[]|e] calls] st0].
    + destruct Hinit as [-> ->].
      pose proof (Hrest [TfReady; GetRegisteredBackends; GetBackend]
                    {| isTfReady := true; activeModels := activeModels st |}
                    eq_refl eq_refl) as H.
      match goal with |- match ?X with _ => _ end =>
        destruct X as [[[[found|e] c] s]|] end;
        [exact H|right; exact H|exact H].
    + destruct Hinit as [-> Hinit]. left.
      split; [reflexivity|]. split; [reflexivity|].
      destruct (tf_ready_reply r).
      * destruct Hinit as [-> Hcalls].
        split; [reflexivity|]. split; [reflexivity|].
        split; [exact Hcalls|]. intros r2. reflexivity.
      * destruct Hinit as [-> ->]. auto.
Qed.

End LoadedModels.

(** ** The language detector *)

Section Detected.
Import Js LanguageDetection.
Context (LANGUAGES_0 : Language) (LANGUAGES_rest : list Language).
Local Open Scope float_scope.

#[local] Abbreviation LANGUAGES :=
  (LANGUAGES LANGUAGES_0 LANGUAGES_rest).
#[local] Abbreviation find_language :=
  (find_language LANGUAGES_0 LANGUAGES_rest).
#[local] Abbreviation getLangdetectCode :=
  (getLangdetectCode LANGUAGES_0 LANGUAGES_rest).
#[local] Abbreviation createDefaultResult :=
  (createDefaultResult LANGUAGES_0 LANGUAGES_rest).
#[local] Abbreviation alternatives_loop :=
  (alternatives_loop LANGUAGES_0 LANGUAGES_rest).
#[local] Abbreviation getAlternativeLanguages :=
  (getAlternativeLanguages LANGUAGES_0 LANGUAGES_rest).
#[local] Abbreviation detectLanguage :=
  (detectLanguage LANGUAGES_0 LANGUAGES_rest).
#[local] Abbreviation manualLanguageOverride :=
  (manualLanguageOverride LANGUAGES_0 LANGUAGES_rest).

Lemma find_language_Some c lang :
  find_language c = Some lang -> In lang LANGUAGES /\ code lang = c.
Proof.
  unfold LanguageDetection.find_language, Js.find. intros Hf.
  apply List.find_some in Hf as [Hin Heq]. apply String.eqb_eq in Heq. auto.
Qed.

Lemma LANGUAGES_0_In : In LANGUAGES_0 LANGUAGES.
Proof. left. reflexivity. Qed.

Lemma fallback_In c :
  In match find_language c with
     | Some lang => lang
     | None => LANGUAGES_0
     end LANGUAGES.
Proof.
  destruct (find_language c) eqn:Hf; [|apply LANGUAGES_0_In].
  now apply find_language_Some in Hf.
Qed.

Lemma createDefaultResult_In :
  In (detectedLanguage createDefaultResult) LANGUAGES.
Proof. apply fallback_In. Qed.

#[local] Abbreviation alternative_of_ :=
  (DetectedLanguages.alternative_of LANGUAGES).

Lemma alternatives_loop_spec results primaryCode alternatives :
  (length alternatives <= 2)%nat ->
  Forall (alternative_of_ primaryCode) alternatives ->
  (length (alternatives_loop results primaryCode alternatives) <= 3)%nat
  /\ Forall (alternative_of_ primaryCode)
       (alternatives_loop results primaryCode alternatives).
Proof.
  revert alternatives.
  induction results as [|[lang prob] results IH]; intros alternatives Hlen Hall;
    cbn [LanguageDetection.alternatives_loop].
  - split; [lia|exact Hall].
  - destruct (String.eqb (getLangdetectCode lang) primaryCode) eqn:Hp;
      [now apply IH|].
    apply String.eqb_neq in Hp.
    set (alternatives' :=
           match find_language (getLangdetectCode lang) with
           | Some language =>
               alternatives ++ [(language, MlService.Math_min2 0.9 prob)]
           | None => alternatives
           end).
    assert (H' : (length alternatives' <= 3)%nat
                 /\ Forall (alternative_of_ primaryCode) alternatives').
    { unfold alternatives'.
      destruct (find_language (getLangdetectCode lang)) as [language|] eqn:Hf.
      - rewrite length_app. cbn [length]. split; [lia|].
        apply Forall_app. split; [exact Hall|]. constructor; [|constructor].
        apply find_language_Some in Hf as [Hin Hc].
        split; [exact Hin|]. split; [cbn; congruence|]. cbn [snd].
        destruct (Math_min2_le 0.9 prob eq_refl) as [Hn|[_ Hle]]; auto.
      - split; [lia|exact Hall]. }
    destruct H' as [Hlen' Hall'].
    destruct (Nat.leb 3 (length alternatives')) eqn:H3.
    + auto.
    + apply Nat.leb_gt in H3. apply IH; [lia|exact Hall'].
Qed.

Lemma getAlternativeLanguages_spec langdetectResults primaryCode :
  (length (getAlternativeLanguages langdetectResults primaryCode) <= 3)%nat
  /\ Forall (alternative_of_ primaryCode)
       (getAlternativeLanguages langdetectResults primaryCode).
Proof.
  unfold LanguageDetection.getAlternativeLanguages.
  destruct langdetectResults as [results|]; [|split; [cbn; lia|constructor]].
  destruct (Nat.leb (length results) 1); [split; [cbn; lia|constructor]|].
  apply alternatives_loop_spec; [cbn; lia|constructor].
Qed.

(** X16.  Every result of the detector names a language of the
    application's list: the detected one, and each alternative; there
    are at most three alternatives and none of them has the code of the
    detected language.  This holds for every text, whatever the two
    detectors answer or throw, and for the manual override, which
    returns the language asked for when it is in the list. *)
Theorem detection_names_supported_languages (d : Detectors)
  (text manualLanguageCode : string) :
  let result := fst (detectLanguage d text) in
  let manual := manualLanguageOverride text manualLanguageCode in
  In (detectedLanguage result) LANGUAGES
  /\ (length (alternativeLanguages result) <= 3)%nat
  /\ Forall
       (fun alt =>
          In (fst alt) LANGUAGES
          /\ code (fst alt) <> code (detectedLanguage result))
       (alternativeLanguages result)
  /\ In (detectedLanguage manual) LANGUAGES
  /\ alternativeLanguages manual = []
  /\ (In manualLanguageCode (map code LANGUAGES) ->
      code (detectedLanguage manual) = manualLanguageCode
      /\ confidence manual = 0.98).
Proof.
  cbv zeta.
  assert (Hdetect :
    In (detectedLanguage (fst (detectLanguage d text))) LANGUAGES
    /\ (length (alternativeLanguages (fst (detectLanguage d text))) <= 3)%nat
    /\ Forall
         (alternative_of_ (code (detectedLanguage (fst (detectLanguage d text)))))
         (alternativeLanguages (fst (detectLanguage d text)))).
  { unfold LanguageDetection.detectLanguage.
    destruct (_ || _);
      [cbn; split; [apply createDefaultResult_In|split; [lia|constructor]]|].
    destruct (franc d text) as [francResult|];
      [|cbn; split; [apply createDefaultResult_In|split; [lia|constructor]]].
    destruct (langdetectDetect d text) as [langdetectResults|];
      [|cbn; split; [apply createDefaultResult_In|split; [lia|constructor]]].
    cbn [fst detectedLanguage alternativeLanguages].
    split; [|apply getAlternativeLanguages_spec].
    destruct (iso6391 francResult) as [c|]; [|apply fallback_In].
    destruct (find_language c) as [lang|] eqn:Hf; [|apply fallback_In].
    now apply find_language_Some in Hf. }
  destruct Hdetect as (Hin & Hlen & Hall).
  split; [exact Hin|]. split; [exact Hlen|]. split.
  { eapply List.Forall_impl; [|exact Hall]. intros alt (H1 & H2 & _). auto. }
  unfold LanguageDetection.manualLanguageOverride.
  destruct (find_language manualLanguageCode) as [language|] eqn:Hf.
  - apply find_language_Some in Hf as [Hl Hc]. cbn. auto.
  - split; [apply createDefaultResult_In|]. split; [reflexivity|].
    intros Hcode. exfalso.
    apply List.in_map_iff in Hcode as (lang & Hc & Hl).
    unfold LanguageDetection.find_language, Js.find in Hf.
    eapply List.find_none in Hf; [|exact Hl]. cbn in Hf.
    apply String.eqb_neq in Hf. contradiction.
Qed.

(** X17.  The confidence of a detection is NaN or at most 0.95, and the
    confidence of each alternative is NaN or at most 0.9, whatever
    probabilities the second detector reports; without a first result
    of the second detector the confidence is 0.3 (no detection) or
    0.6. *)
Theorem detection_confidence_capped (d : Detectors) (text : string) :
  let result := fst (detectLanguage d text) in
  (is_nan (confidence result) = true \/ (confidence result <=? 0.95) = true)
  /\ Forall
       (fun alt => is_nan (snd alt) = true \/ (snd alt <=? 0.9) = true)
       (alternativeLanguages result)
  /\ (langdetectDetect d text = Ok None \/ langdetectDetect d text = Ok (Some []) ->
      alternativeLanguages result = []
      /\ (confidence result = 0.3 \/ confidence result = 0.6)).
Proof.
  cbv zeta. unfold LanguageDetection.detectLanguage.
  destruct (_ || _);
    [cbn; split; [right; reflexivity|split; [constructor|auto]]|].
  destruct (franc d text) as [francResult|];
    [|cbn; split; [right; reflexivity|split; [constructor|auto]]].
  destruct (langdetectDetect d text) as [langdetectResults|];
    [|cbn; split; [right; reflexivity|split; [constructor|auto]]].
  cbn [fst confidence alternativeLanguages]. split; [|split].
  - destruct langdetectResults as [[|[lang prob] results]|];
      try (right; reflexivity).
    destruct (iso6391 francResult) as [c|]; [|right; reflexivity].
    destruct (String.eqb _ c); [|right; reflexivity].
    destruct (Math_min2_le 0.95 (0.7 + prob) eq_refl) as [Hn|[_ Hle]]; auto.
  - match goal with
    | |- Forall _ (getAlternativeLanguages ?r ?c) =>
        destruct (getAlternativeLanguages_spec r c) as [_ Hall]
    end.
    eapply List.Forall_impl; [|exact Hall]. intros alt (_ & _ & H3). exact H3.
  - intros [E|E]; inversion E; subst; cbn; auto.
Qed.

Lemma before_dash_region (s region : string) :
  before_dash (s +:+ "-" +:+ region) = before_dash s.
Proof.
  induction s as [|c s IH]; [reflexivity|].
  change (String c s +:+ "-" +:+ region)
    with (String c (s +:+ "-" +:+ region)).
  cbn [before_dash].
  destruct (Ascii.eqb c "-"); [reflexivity|]. now rewrite IH.
Qed.

Lemma lower_idempotent (c : ascii) : lower (lower c) = lower c.
Proof. destruct c as [[] [] [] [] [] [] [] []]; reflexivity. Qed.

Lemma lower_dash (c : ascii) :
  Ascii.eqb (lower c) "-" = Ascii.eqb c "-".
Proof. destruct c as [[] [] [] [] [] [] [] []]; reflexivity. Qed.

Lemma toLowerCase_String c s :
  toLowerCase (String c s) = String (lower c) (toLowerCase s).
Proof. reflexivity. Qed.

Lemma toLowerCase_idempotent (s : string) :
  toLowerCase (toLowerCase s) = toLowerCase s.
Proof.
  induction s as [|c s IH]; [reflexivity|].
  rewrite !toLowerCase_String, lower_idempotent. now rewrite IH.
Qed.

Lemma before_dash_toLowerCase (s : string) :
  before_dash (toLowerCase s) = toLowerCase (before_dash s).
Proof.
  induction s as [|c s IH]; [reflexivity|].
  rewrite toLowerCase_String. cbn [before_dash]. rewrite lower_dash.
  destruct (Ascii.eqb c "-"); [reflexivity|].
  rewrite toLowerCase_String. now rewrite IH.
Qed.

Lemma before_dash_idempotent (s : string) :
  before_dash (before_dash s) = before_dash s.
Proof.
  induction s as [|c s IH]; [reflexivity|]. cbn [before_dash].
  destruct (Ascii.eqb c "-") eqn:E; [reflexivity|].
  cbn [before_dash]. rewrite E. now rewrite IH.
Qed.

(** X18.  [getLangdetectCode] normalises a code of the second detector:
    a regional suffix and the case of the letters do not matter, the
    result is [en] or the code of a language of the list, and
    normalising twice changes nothing when [en] is in the list. *)
Theorem getLangdetectCode_normalises (langdetectCode region : string) :
  getLangdetectCode (langdetectCode +:+ "-" +:+ region)
    = getLangdetectCode langdetectCode
  /\ getLangdetectCode (toLowerCase langdetectCode)
       = getLangdetectCode langdetectCode
  /\ (getLangdetectCode langdetectCode = "en"
      \/ In (getLangdetectCode langdetectCode) (map code LANGUAGES))
  /\ (In "en" (map code LANGUAGES) ->
      getLangdetectCode (getLangdetectCode langdetectCode)
        = getLangdetectCode langdetectCode).
Proof.
  unfold LanguageDetection.getLangdetectCode at 1 2 3 4 5 6.
  rewrite before_dash_region.
  rewrite before_dash_toLowerCase, toLowerCase_idempotent.
  set (baseLang := toLowerCase (before_dash langdetectCode)).
  assert (Hbase : toLowerCase (before_dash baseLang) = baseLang).
  { unfold baseLang.
    now rewrite before_dash_toLowerCase, before_dash_idempotent,
      toLowerCase_idempotent. }
  assert (Hex : forall c,
    existsb (fun lang => String.eqb (code lang) c) LANGUAGES = true
    <-> In c (map code LANGUAGES)).
  { intros c. rewrite List.existsb_exists, List.in_map_iff.
    split; intros (lang & H1 & H2).
    - apply String.eqb_eq in H2. eauto.
    - exists lang. split; [exact H2|]. now apply String.eqb_eq. }
  split; [reflexivity|]. split; [reflexivity|]. split.
  - destruct (existsb _ LANGUAGES) eqn:E; [right; now apply Hex|left; reflexivity].
  - intros Hen. unfold LanguageDetection.getLangdetectCode.
    fold baseLang.
    destruct (existsb (fun lang => String.eqb (code lang) baseLang) LANGUAGES)
      eqn:E.
    + rewrite Hbase, E. reflexivity.
    + change (toLowerCase (before_dash "en")) with "en".
      apply Hex in Hen. now rewrite Hen.
Qed.

End Detected.

(** ** Translating and the status of the models *)

Section Translated.
Import Js TranslationService ModelStatusTable.
Import LanguageDetection (Language, code, name).

Lemma ready_initialized env svc : initialized (ready env svc) = true.
Proof.
  unfold ready. destruct (initialized svc) eqn:E; [exact E|reflexivity].
Qed.

Lemma ready_fallbackToMock env svc :
  fallbackToMock (ready env svc) = fallbackToMock svc.
Proof. unfold ready. now destruct (initialized svc). Qed.

Lemma ready_idempotent env svc :
  initialized svc = true -> ready env svc = svc.
Proof. unfold ready. now intros ->. Qed.

Lemma downloadModel_begin_Some sourceCode targetCode modelId svc :
  Catalog.getModelIdForLanguagePair sourceCode targetCode = Some modelId ->
  downloadModel_begin sourceCode targetCode svc
  = (Ok [DownloadModel modelId],
     {| modelStatus :=
          <[modelId := {| isDownloaded := false; isDownloading := true;
                          downloadProgress := Some 0%float |}]> (modelStatus svc);
        fallbackToMock := fallbackToMock svc;
        initialized := initialized svc |}).
Proof. unfold downloadModel_begin. now intros ->. Qed.

(** X19.  Every translation that is returned is recorded once.  When
    [translate] returns a result, the last thing it set off is the
    history record of that very result: the text, the translated text
    and the confidence of the result, the target language, the source
    language that was given or detected, and the detection confidence
    exactly when the language was detected; before it there is at most
    the start of the download of the pair's model.  When [translate]
    throws, nothing was set off, the fallback is switched off and the
    error is the one of the translation model. *)
Theorem translate_records_result (env : Services) (text : string)
  (sourceLanguageInput : option Language) (targetLanguage : Language)
  (options : TranslationOptions) (svc : TranslationService) :
  let sourceLanguage :=
    fst (resolveSourceLanguage env text sourceLanguageInput) in
  let detectionConfidence :=
    snd (resolveSourceLanguage env text sourceLanguageInput) in
  match translate env text sourceLanguageInput targetLanguage options svc with
  | (Ok result, effects, _) =>
      exists started modelId,
        effects
        = started ++ [history text result sourceLanguage targetLanguage
                        modelId detectionConfidence]
        /\ (started = []
            \/ exists id,
                 started = [DownloadModel id]
                 /\ Catalog.getModelIdForLanguagePair (code sourceLanguage)
                      (code targetLanguage) = Some id)
  | (Throw error, effects, _) =>
      effects = []
      /\ fallbackToMock svc = false
      /\ exists id,
           Catalog.getModelIdForLanguagePair (code sourceLanguage)
             (code targetLanguage) = Some id
           /\ translateText env text (code sourceLanguage)
                (code targetLanguage) id = Throw error
  end
  /\ (detectionConfidence = None <-> sourceLanguageInput <> None).
Proof.
  cbv zeta. split.
  2:{ destruct sourceLanguageInput; cbn; split; congruence. }
  unfold translate.
  destruct (resolveSourceLanguage env text sourceLanguageInput)
    as [sourceLanguage detectionConfidence].
  cbn [fst snd].
  destruct (Catalog.getModelIdForLanguagePair (code sourceLanguage)
              (code targetLanguage)) as [modelId|] eqn:Hid.
  - destruct (negb match modelStatus (ready env svc) !! modelId with
                   | Some s => isDownloaded s
                   | None => false
                   end).
    + destruct (negb _ && negb _).
      * rewrite (downloadModel_begin_Some _ _ _ _ Hid).
        eexists [DownloadModel modelId], _. split; [reflexivity|].
        right. eauto.
      * eexists [], _. split; [reflexivity|]. now left.
    + destruct (translateText env text (code sourceLanguage)
                  (code targetLanguage) modelId) as [mlResult|error] eqn:Hml.
      * eexists [], _. split; [reflexivity|]. now left.
      * rewrite ready_fallbackToMock.
        destruct (fallbackToMock svc) eqn:Hfb.
        -- eexists [], _. split; [reflexivity|]. now left.
        -- split; [reflexivity|]. split; [reflexivity|]. eauto.
  - eexists [], _. split; [reflexivity|]. now left.
Qed.

Lemma translate_download_cases (env : Services) (text : string)
  (sourceLanguageInput : option Language) (targetLanguage : Language)
  (options : TranslationOptions) (svc : TranslationService) :
  let sourceLanguage :=
    fst (resolveSourceLanguage env text sourceLanguageInput) in
  let effects :=
    snd (fst (translate env text sourceLanguageInput targetLanguage options
                svc)) in
  let svc' :=
    snd (translate env text sourceLanguageInput targetLanguage options svc) in
  (exists id,
      Catalog.getModelIdForLanguagePair (code sourceLanguage)
        (code targetLanguage) = Some id
      /\ resident (ready env svc) id = false
      /\ downloading (ready env svc) id = false
      /\ offlineOnly options = false
      /\ In (DownloadModel id) effects
      /\ (forall id', In (DownloadModel id') effects -> id' = id)
      /\ svc'
         = {| modelStatus :=
                <[id := {| isDownloaded := false; isDownloading := true;
                           downloadProgress := Some 0%float |}]>
                  (modelStatus (ready env svc));
              fallbackToMock := fallbackToMock (ready env svc);
              initialized := initialized (ready env svc) |})
  \/ (svc' = ready env svc /\ forall id, ~ In (DownloadModel id) effects).
Proof.
  cbv zeta. unfold translate.
  destruct (resolveSourceLanguage env text sourceLanguageInput)
    as [sourceLanguage detectionConfidence].
  cbn [fst snd].
  destruct (Catalog.getModelIdForLanguagePair (code sourceLanguage)
              (code targetLanguage)) as [modelId|] eqn:Hid.
  - unfold resident, downloading, offlineOnly.
    destruct (modelStatus (ready env svc) !! modelId) as [status|] eqn:Hst.
    + destruct (isDownloaded status) eqn:Hd; cbn [negb].
      * right.
        destruct (translateText env text _ _ modelId);
          [|destruct (fallbackToMock (ready env svc))]; cbn;
          (split; [reflexivity|intros id Hin; intuition discriminate]).
      * destruct (isDownloading status) eqn:Hg; cbn [negb andb].
        -- right. cbn. split; [reflexivity|].
           intros id Hin; intuition discriminate.
        -- destruct (match useOfflineOnly options with
                     | Some b => b | None => false end) eqn:Ho; cbn [negb].
           ++ right. cbn. split; [reflexivity|].
              intros id Hin; intuition discriminate.
           ++ left. rewrite (downloadModel_begin_Some _ _ _ _ Hid). cbn.
              exists modelId. rewrite Hst, Hd, Hg.
              repeat split; [now left|].
              intros id' [E|[E|[]]]; [|discriminate].
              now inversion E.
    + cbn [negb andb].
      destruct (match useOfflineOnly options with
                | Some b => b | None => false end) eqn:Ho; cbn [negb].
      * right. cbn. split; [reflexivity|].
        intros id Hin; intuition discriminate.
      * left. rewrite (downloadModel_begin_Some _ _ _ _ Hid). cbn.
        exists modelId. rewrite Hst.
        repeat split; [now left|].
        intros id' [E|[E|[]]]; [|discriminate].
        now inversion E.
  - right. cbn. split; [reflexivity|].
    intros id Hin; intuition discriminate.
Qed.

(** X20.  [translate] touches the service only to start a download, and
    starts one only when it is needed and allowed.  A download is set
    off only for the model of the language pair, only when the service
    holds that model neither as downloaded nor as downloading, and
    never with [useOfflineOnly]; the model is then held as downloading.
    When no download is set off, the service is left as initialisation
    left it. *)
Theorem translate_starts_download_only_when_needed (env : Services)
  (text : string) (sourceLanguageInput : option Language)
  (targetLanguage : Language) (options : TranslationOptions)
  (svc : TranslationService) :
  let sourceLanguage :=
    fst (resolveSourceLanguage env text sourceLanguageInput) in
  let effects :=
    snd (fst (translate env text sourceLanguageInput targetLanguage options
                svc)) in
  let svc' :=
    snd (translate env text sourceLanguageInput targetLanguage options svc) in
  (forall id, In (DownloadModel id) effects ->
     Catalog.getModelIdForLanguagePair (code sourceLanguage)
       (code targetLanguage) = Some id
     /\ resident (ready env svc) id = false
     /\ downloading (ready env svc) id = false
     /\ offlineOnly options = false
     /\ resident svc' id = false
     /\ downloading svc' id = true)
  /\ ((forall id, ~ In (DownloadModel id) effects) -> svc' = ready env svc)
  /\ initialized svc' = true
  /\ fallbackToMock svc' = fallbackToMock svc.
Proof.
  cbv zeta.
  pose proof (ready_initialized env svc) as Hinit.
  pose proof (ready_fallbackToMock env svc) as Hfb.
  destruct (translate_download_cases env text sourceLanguageInput
              targetLanguage options svc)
    as [(id0 & Hid & Hres & Hdl & Hoff & Hstarted & Honly & Hsvc)
       |[Hsvc Hnone]].
  - rewrite Hsvc. cbn [initialized fallbackToMock].
    split; [|split; [|split; [exact Hinit|exact Hfb]]].
    + intros id Hin. apply Honly in Hin. subst id.
      unfold resident, downloading. cbn [modelStatus].
      rewrite lookup_insert_eq. cbn. auto 7.
    + intros Hno. exfalso. exact (Hno id0 Hstarted).
  - rewrite Hsvc. split; [|split; [|split; [exact Hinit|exact Hfb]]].
    + intros id Hin. exfalso. exact (Hnone id Hin).
    + reflexivity.
Qed.

(** X21.  A download is started once.  After a call of [translate] that
    set off the download of a model, every later call for the same pair
    of language codes, whatever its text and options and whatever the
    other services answer, returns the mock translation, records it
    under [mock_model_unavailable] and sets off nothing else, as long
    as the download has not settled. *)
Theorem download_started_once (env : Services) (text : string)
  (sourceLanguageInput : option Language) (targetLanguage : Language)
  (options : TranslationOptions) (svc : TranslationService)
  (modelId : string) :
  In (DownloadModel modelId)
    (snd (fst (translate env text sourceLanguageInput targetLanguage options
                 svc))) ->
  forall (env2 : Services) (text2 : string)
         (sourceLanguage2 targetLanguage2 : Language)
         (options2 : TranslationOptions),
    code sourceLanguage2
    = code (fst (resolveSourceLanguage env text sourceLanguageInput)) ->
    code targetLanguage2 = code targetLanguage ->
    let svc1 :=
      snd (translate env text sourceLanguageInput targetLanguage options svc) in
    translate env2 text2 (Some sourceLanguage2) targetLanguage2 options2 svc1
    = (Ok (mockTranslate text2 sourceLanguage2 targetLanguage2),
       [history text2 (mockTranslate text2 sourceLanguage2 targetLanguage2)
          sourceLanguage2 targetLanguage2 "mock_model_unavailable" None],
       svc1).
Proof.
  intros Hin env2 text2 sourceLanguage2 targetLanguage2 options2 Hs Ht.
  cbv zeta.
  pose proof (ready_initialized env svc) as Hready.
  destruct (translate_download_cases env text sourceLanguageInput
              targetLanguage options svc)
    as [(id0 & Hid & _ & _ & _ & _ & Honly & Hsvc)|[_ Hnone]];
    [|exfalso; exact (Hnone modelId Hin)].
  apply Honly in Hin. subst id0.
  assert (Hres : resident
                   (snd (translate env text sourceLanguageInput targetLanguage
                           options svc)) modelId = false).
  { rewrite Hsvc. unfold resident. cbn [modelStatus].
    now rewrite lookup_insert_eq. }
  assert (Hdl : downloading
                  (snd (translate env text sourceLanguageInput targetLanguage
                          options svc)) modelId = true).
  { rewrite Hsvc. unfold downloading. cbn [modelStatus].
    now rewrite lookup_insert_eq. }
  assert (Hinit : initialized
                    (snd (translate env text sourceLanguageInput
                            targetLanguage options svc)) = true).
  { rewrite Hsvc. exact Hready. }
  clear Hsvc Honly.
  set (svc1 := snd (translate env text sourceLanguageInput targetLanguage
                      options svc)) in *.
  unfold translate at 1. rewrite (ready_idempotent _ _ Hinit).
  cbn [resolveSourceLanguage]. rewrite Hs, Ht, Hid.
  unfold resident in Hres. unfold downloading in Hdl.
  destruct (modelStatus svc1 !! modelId) as [status|]; [|discriminate].
  rewrite Hres, Hdl. reflexivity.
Qed.

End Translated.

Section Settled.
Import Js TranslationService ModelStatusTable.
Import LanguageDetection (Language, code, name).

(** X22.  How a download of the translation service settles.  When
    the model manager delivers the model, the pair is reported as
    downloaded with progress 1, and from then on [translate] hands the
    text to the translation model and returns its result, or the mock
    translation when the model fails and the fallback is on.  When the
    model manager fails, the error is passed on, the pair is reported
    as neither downloaded nor downloading, and the next [translate]
    that may go online starts the download again. *)
Theorem downloadModel_settles (sourceLanguage targetLanguage : Language)
  (modelId : string)
  (reply : outcome ModelManager.exn ModelManager.Model.ModelInfo)
  (svc : TranslationService) :
  Catalog.getModelIdForLanguagePair (code sourceLanguage)
    (code targetLanguage) = Some modelId ->
  initialized svc = true ->
  let svc1 :=
    snd (downloadModel_begin (code sourceLanguage) (code targetLanguage) svc) in
  let svc2 := snd (downloadModel_end modelId reply svc1) in
  match reply with
  | Ok _ =>
      fst (downloadModel_end modelId reply svc1) = Ok tt
      /\ isModelDownloaded (code sourceLanguage) (code targetLanguage) svc2
         = true
      /\ getModelStatus (code sourceLanguage) (code targetLanguage) svc2
         = Some {| isDownloaded := true; isDownloading := false;
                   downloadProgress := Some 1%float |}
      /\ forall env text options,
           translate env text (Some sourceLanguage) targetLanguage options svc2
           = match translateText env text (code sourceLanguage)
                     (code targetLanguage) modelId with
             | Ok mlResult =>
                 (Ok mlResult,
                  [history text mlResult sourceLanguage targetLanguage
                     (MlService.modelId mlResult) None],
                  svc2)
             | Throw error =>
                 if fallbackToMock svc then
                   (Ok (mockTranslate text sourceLanguage targetLanguage),
                    [history text
                       (mockTranslate text sourceLanguage targetLanguage)
                       sourceLanguage targetLanguage "mock" None],
                    svc2)
                 else (Throw error, [], svc2)
             end
  | Throw error =>
      fst (downloadModel_end modelId reply svc1) = Throw error
      /\ isModelDownloaded (code sourceLanguage) (code targetLanguage) svc2
         = false
      /\ getModelStatus (code sourceLanguage) (code targetLanguage) svc2
         = Some {| isDownloaded := false; isDownloading := false;
                   downloadProgress := None |}
      /\ forall env text options,
           offlineOnly options = false ->
           snd (fst (translate env text (Some sourceLanguage) targetLanguage
                       options svc2))
           = [DownloadModel modelId;
              history text (mockTranslate text sourceLanguage targetLanguage)
                sourceLanguage targetLanguage "mock_model_unavailable" None]
  end.
Proof.
  intros Hid Hinit. cbv zeta.
  rewrite (downloadModel_begin_Some _ _ _ _ Hid). cbn [snd].
  unfold isModelDownloaded, getModelStatus. rewrite Hid.
  destruct reply as [modelInfo|error]; cbn [downloadModel_end fst snd modelStatus];
    rewrite lookup_insert_eq; cbn [isDownloaded orb].
  - split; [reflexivity|]. split; [reflexivity|]. split; [reflexivity|].
    intros env text options. unfold translate.
    rewrite ready_idempotent by exact Hinit.
    cbn [resolveSourceLanguage]. rewrite Hid.
    cbn [modelStatus fallbackToMock]. rewrite lookup_insert_eq.
    cbn [isDownloaded negb]. reflexivity.
  - split; [reflexivity|]. split; [reflexivity|]. split; [reflexivity|].
    intros env text options Hoff. unfold translate.
    rewrite ready_idempotent by exact Hinit.
    cbn [resolveSourceLanguage]. rewrite Hid.
    cbn [modelStatus]. rewrite lookup_insert_eq.
    cbn [isDownloaded isDownloading negb andb].
    unfold offlineOnly in Hoff. rewrite Hoff. cbn [negb].
    rewrite (downloadModel_begin_Some _ _ _ _ Hid). reflexivity.
Qed.

Lemma initialize_fold (models : list ModelManager.Model.ModelInfo)
  (status : gmap string ModelStatus) :
  List.NoDup (map ModelManager.Model.id models) ->
  let status' :=
    fold_left
      (fun status model =>
         <[ModelManager.Model.id model :=
             {| isDownloaded := ModelManager.Model.isDownloaded model;
                isDownloading := false;
                downloadProgress :=
                  ModelManager.Model.downloadProgress model |}]> status)
      models status in
  (forall model, In model models ->
     status' !! ModelManager.Model.id model
     = Some {| isDownloaded := ModelManager.Model.isDownloaded model;
               isDownloading := false;
               downloadProgress := ModelManager.Model.downloadProgress model |})
  /\ (forall modelId, ~ In modelId (map ModelManager.Model.id models) ->
        status' !! modelId = status !! modelId).
Proof.
  cbv zeta. revert status.
  induction models as [|m models IH]; intros status Hnd; cbn [fold_left].
  - split; [intros model []|reflexivity].
  - inversion Hnd as [|? ? Hnotin Hnd']; subst.
    destruct (IH (<[ModelManager.Model.id m :=
                      {| isDownloaded := ModelManager.Model.isDownloaded m;
                         isDownloading := false;
                         downloadProgress :=
                           ModelManager.Model.downloadProgress m |}]> status)
                 Hnd') as [IH1 IH2].
    split.
    + intros model [->|Hin]; [|now apply IH1].
      rewrite IH2 by exact Hnotin. apply lookup_insert_eq.
    + intros modelId Hnot. rewrite IH2.
      * apply lookup_insert_ne. intros E. apply Hnot. left. exact E.
      * intros Hin. apply Hnot. right. exact Hin.
Qed.

(** X23.  [initialize] mirrors the model manager.  When the models the
    manager lists have distinct ids, the service afterwards holds each
    of them as downloaded exactly when the manager does, with the
    manager's progress, and none as downloading; the status of any
    other id is untouched; and the service is initialised.  A new
    service holds no status but these. *)
Theorem initialize_mirrors_manager (env : Services)
  (svc : TranslationService) :
  List.NoDup (map ModelManager.Model.id (getAvailableModels env)) ->
  (forall model, In model (getAvailableModels env) ->
     modelStatus (initialize env svc) !! ModelManager.Model.id model
     = Some {| isDownloaded := ModelManager.Model.isDownloaded model;
               isDownloading := false;
               downloadProgress := ModelManager.Model.downloadProgress model |})
  /\ (forall modelId,
        ~ In modelId (map ModelManager.Model.id (getAvailableModels env)) ->
        modelStatus (initialize env svc) !! modelId = modelStatus svc !! modelId
        /\ modelStatus (new_TranslationService env) !! modelId = None)
  /\ initialized (initialize env svc) = true
  /\ fallbackToMock (initialize env svc) = fallbackToMock svc.
Proof.
  intros Hnd. unfold new_TranslationService, initialize.
  cbn [modelStatus initialized fallbackToMock].
  split; [|split; [|split; reflexivity]].
  - apply (initialize_fold _ (modelStatus svc) Hnd).
  - intros modelId Hnot. split.
    + now apply (initialize_fold _ (modelStatus svc) Hnd).
    + destruct (initialize_fold _ (∅ : gmap string ModelStatus) Hnd)
        as [_ H2].
      rewrite H2 by exact Hnot. apply lookup_empty.
Qed.

End Settled.

Section Catalogue.
Import Js Catalog.

Lemma popularity_bounds lang : 10 <= popularity lang <= 100.
Proof.
  unfold popularity, languagePopularity, table_get.
  repeat (destruct (String.eqb _ lang); [lia|]). lia.
Qed.

Lemma half_bounds (t : Z) :
  2 * ((t + 1) / 2) <= t + 1 < 2 * ((t + 1) / 2) + 2.
Proof.
  pose proof (Z.div_mod (t + 1) 2 ltac:(lia)).
  pose proof (Z.mod_pos_bound (t + 1) 2 ltac:(lia)). lia.
Qed.

Ltac halves :=
  repeat match goal with
         | |- context [(?t + 1) / 2] =>
             pose proof (half_bounds t); generalize dependent ((t + 1) / 2);
             intros
         end;
  lia.

(** X24.  The priority score of a catalogue entry whose language codes
    do not name members of [Object.prototype] lies between 1 and 120,
    and for the other entries it is NaN.  The score does not depend on
    the direction of the language pair, and it is never raised by a
    larger package: a package above 50MB scores the same pair at most
    10 lower and never higher. *)
Theorem calculateModelPriority_bounds (config : ModelConfigItem)
  (size' : Z) :
  match calculateModelPriority config with
  | Num p =>
      1 <= p <= 120
      /\ inherited (srcLang config) || inherited (targetLang config) = false
  | NaN => inherited (srcLang config) || inherited (targetLang config) = true
  end
  /\ calculateModelPriority
       {| id := id config; name := name config;
          description := description config; url := url config;
          version := version config; size := size config;
          srcLang := targetLang config; targetLang := srcLang config;
          lastUpdated := lastUpdated config |}
     = calculateModelPriority config
  /\ (size config <= size' ->
      match calculateModelPriority config,
            calculateModelPriority
              {| id := id config; name := name config;
                 description := description config; url := url config;
                 version := version config; size := size';
                 srcLang := srcLang config; targetLang := targetLang config;
                 lastUpdated := lastUpdated config |} with
      | Num p, Num larger => p - 10 <= larger /\ larger <= p
      | NaN, NaN => True
      | _, _ => False
      end).
Proof.
  destruct (inherited (srcLang config) || inherited (targetLang config))
    eqn:Hin.
  - rewrite !calculateModelPriority_inherited;
      cbn [srcLang targetLang]; try exact Hin; [auto|].
    now rewrite orb_comm.
  - rewrite !calculateModelPriority_refines;
      cbn [srcLang targetLang size]; try exact Hin;
      [|now rewrite orb_comm].
    unfold priority_spec.
    pose proof (popularity_bounds (srcLang config)) as Hs.
    pose proof (popularity_bounds (targetLang config)) as Ht.
    rewrite (orb_comm (String.eqb (targetLang config) "en")).
    rewrite (Z.add_comm (popularity (targetLang config))).
    set (en := String.eqb (srcLang config) "en"
               || String.eqb (targetLang config) "en").
    split; [|split; [reflexivity|]].
    + split; [|reflexivity].
      destruct en; destruct (size config * MB >? 50 * MB); halves.
    + intros Hsize.
      assert (Hmono : (size config * MB >? 50 * MB) = true ->
                      (size' * MB >? 50 * MB) = true).
      { unfold MB. rewrite !Z.gtb_lt. lia. }
      destruct (size config * MB >? 50 * MB);
        [rewrite Hmono by reflexivity|destruct (size' * MB >? 50 * MB)];
        destruct en; halves.
Qed.

Lemma find_pair_cases (sourceCode targetCode : string) :
  findModelForLanguagePair sourceCode targetCode
  = if String.eqb "en" sourceCode && String.eqb "tr" targetCode
    then List.nth_error MODEL_CONFIGS 0
    else if String.eqb "tr" sourceCode && String.eqb "en" targetCode
    then List.nth_error MODEL_CONFIGS 1
    else None.
Proof.
  unfold findModelForLanguagePair, Js.find, MODEL_CONFIGS.
  cbn [List.find srcLang targetLang List.nth_error].
  destruct (String.eqb "en" sourceCode && String.eqb "tr" targetCode);
    [reflexivity|].
  destruct (String.eqb "tr" sourceCode && String.eqb "en" targetCode);
    reflexivity.
Qed.

(** X25.  The model of a language pair.  [getModelIdForLanguagePair]
    answers with the id of the first catalogue entry for exactly that
    pair, an id under which [mlService.translateText] finds that very
    entry; it answers nothing exactly when the catalogue has no entry
    for the pair; and it never answers [opus-mt-en2tr-base], which
    stands behind [en2tr-small] for the same pair. *)
Theorem getModelIdForLanguagePair_first_entry
  (sourceCode targetCode : string) :
  match getModelIdForLanguagePair sourceCode targetCode with
  | Some modelId =>
      exists config,
        In config MODEL_CONFIGS
        /\ id config = modelId
        /\ srcLang config = sourceCode
        /\ targetLang config = targetCode
        /\ Js.find (fun c => String.eqb (id c) modelId) MODEL_CONFIGS
           = Some config
        /\ modelId <> "opus-mt-en2tr-base"
  | None =>
      forall config,
        In config MODEL_CONFIGS ->
        ~ (srcLang config = sourceCode /\ targetLang config = targetCode)
  end.
Proof.
  unfold getModelIdForLanguagePair.
  destruct (findModelForLanguagePair sourceCode targetCode) as [config|] eqn:Hf.
  - pose proof Hf as Hcase. rewrite find_pair_cases in Hcase.
    unfold findModelForLanguagePair, Js.find in Hf.
    apply List.find_some in Hf as [Hin Hpair].
    apply andb_true_iff in Hpair as [Hs Ht].
    apply String.eqb_eq in Hs, Ht.
    exists config. split; [exact Hin|]. split; [reflexivity|].
    split; [exact Hs|]. split; [exact Ht|].
    destruct (String.eqb "en" sourceCode && String.eqb "tr" targetCode);
      [inversion Hcase; subst config; split; [reflexivity|discriminate]|].
    destruct (String.eqb "tr" sourceCode && String.eqb "en" targetCode);
      [inversion Hcase; subst config; split; [reflexivity|discriminate]|].
    discriminate.
  - intros config Hin [Hs Ht].
    unfold findModelForLanguagePair, Js.find in Hf.
    eapply List.find_none in Hf; [|exact Hin]. cbn beta in Hf.
    rewrite Hs, Ht, !String.eqb_refl in Hf. discriminate.
Qed.

End Catalogue.

Section TranslationWitnesses.
Import Js TranslationService ModelStatusTable.
Import LanguageDetection (Language, code, name, english, turkish).

Lemma download_started_once_witness :
  In (DownloadModel "en2tr-small")
    (snd (fst (translate first_start "hello" (Some english) turkish no_options
                 (new_TranslationService first_start))))
  /\ forall (env2 : Services) (text2 : string)
            (sourceLanguage2 targetLanguage2 : Language)
            (options2 : TranslationOptions),
       code sourceLanguage2
       = code (fst (resolveSourceLanguage first_start "hello" (Some english))) ->
       code targetLanguage2 = code turkish ->
       let svc1 :=
         snd (translate first_start "hello" (Some english) turkish no_options
                (new_TranslationService first_start)) in
       translate env2 text2 (Some sourceLanguage2) targetLanguage2 options2 svc1
       = (Ok (mockTranslate text2 sourceLanguage2 targetLanguage2),
          [history text2 (mockTranslate text2 sourceLanguage2 targetLanguage2)
             sourceLanguage2 targetLanguage2 "mock_model_unavailable" None],
          svc1).
Proof.
  split; [vm_compute; left; reflexivity|].
  apply (download_started_once first_start "hello" (Some english) turkish
           no_options (new_TranslationService first_start) "en2tr-small").
  vm_compute; left; reflexivity.
Defined.

Lemma downloadModel_settles_witness :
  Catalog.getModelIdForLanguagePair (code english) (code turkish)
  = Some "en2tr-small"
  /\ initialized (new_TranslationService first_start) = true
  /\ isModelDownloaded (code english) (code turkish)
       (snd (downloadModel_end "en2tr-small"
               (Throw (ModelManager.JsError "Network request failed"))
               (snd (downloadModel_begin (code english) (code turkish)
                       (new_TranslationService first_start)))))
     = false.
Proof.
  split; [reflexivity|]. split; [reflexivity|].
  destruct (downloadModel_settles english turkish "en2tr-small"
              (Throw (ModelManager.JsError "Network request failed"))
              (new_TranslationService first_start) eq_refl eq_refl)
    as (_ & H & _).
  exact H.
Defined.

Lemma initialize_mirrors_manager_witness :
  List.NoDup (map ModelManager.Model.id (getAvailableModels first_start))
  /\ initialized
       (initialize first_start
          {| modelStatus := ∅; fallbackToMock := true; initialized := false |})
     = true.
Proof.
  assert (Hnd : List.NoDup
                  (map ModelManager.Model.id (getAvailableModels first_start))).
  { vm_compute. repeat constructor; cbn; intuition discriminate. }
  split; [exact Hnd|].
  destruct (initialize_mirrors_manager first_start
              {| modelStatus := ∅; fallbackToMock := true;
                 initialized := false |} Hnd)
    as (_ & _ & H & _).
  exact H.
Defined.

End TranslationWitnesses.

(** ** The translation history *)

Section History.
Import Js TranslationHistory.

Lemma newest_first_true a b :
  newest_first a b = true <-> timestamp a < timestamp b.
Proof. unfold newest_first. rewrite Z.gtb_lt. lia. Qed.

Lemma newest_first_false a b : newest_first a b = false <-> not_older a b.
Proof.
  unfold newest_first, not_older.
  destruct (Z.gtb_spec (timestamp b - timestamp a) 0); split; intros; lia
    || congruence.
Qed.

Lemma sort_insert_sorted a l :
  StronglySorted not_older l ->
  StronglySorted not_older (sort_insert newest_first a l).
Proof.
  induction 1 as [|b l Hl IH Hb]; cbn; [repeat constructor|].
  destruct (newest_first a b) eqn:E.
  - constructor; [exact IH|].
    apply Forall_sort_insert; [|exact Hb].
    apply newest_first_true in E. unfold not_older. lia.
  - apply newest_first_false in E. constructor; [now constructor|].
    constructor; [exact E|].
    eapply List.Forall_impl; [|exact Hb]. unfold not_older in *. intros; lia.
Qed.

Lemma sort_sorted l : StronglySorted not_older (sort newest_first l).
Proof.
  induction l as [|a l IH]; [constructor|].
  change (sort newest_first (a :: l))
    with (sort_insert newest_first a (sort newest_first l)).
  now apply sort_insert_sorted.
Qed.

Lemma sort_insert_front a l :
  Forall (not_older a) l -> sort_insert newest_first a l = a :: l.
Proof.
  intros [|b l' Hb _]; cbn; [reflexivity|].
  apply newest_first_false in Hb. now rewrite Hb.
Qed.

Lemma filter_sort_insert (p : TranslationHistoryItem -> bool) a l :
  StronglySorted not_older l ->
  List.filter p (sort_insert newest_first a l)
  = if p a then sort_insert newest_first a (List.filter p l)
    else List.filter p l.
Proof.
  induction 1 as [|b l Hl IH Hb]; cbn; [now destruct (p a)|].
  destruct (newest_first a b) eqn:E; cbn.
  - destruct (p b) eqn:Pb; rewrite IH; destruct (p a); cbn; try reflexivity.
    now rewrite E.
  - destruct (p a) eqn:Pa; [|reflexivity].
    destruct (p b) eqn:Pb; cbn; [now rewrite E|].
    symmetry. apply sort_insert_front.
    apply newest_first_false in E.
    apply List.Forall_forall. intros c Hc.
    apply List.filter_In in Hc as [Hc _].
    rewrite List.Forall_forall in Hb. specialize (Hb c Hc).
    unfold not_older in *. lia.
Qed.

Lemma filter_sort (p : TranslationHistoryItem -> bool) l :
  List.filter p (sort newest_first l) = sort newest_first (List.filter p l).
Proof.
  induction l as [|a l IH]; [reflexivity|].
  change (sort newest_first (a :: l))
    with (sort_insert newest_first a (sort newest_first l)).
  rewrite filter_sort_insert by apply sort_sorted.
  rewrite IH. cbn [List.filter]. now destruct (p a).
Qed.

Lemma StronglySorted_firstn {A} (R : A -> A -> Prop) n l :
  StronglySorted R l -> StronglySorted R (firstn n l).
Proof.
  intros Hl. revert n. induction Hl as [|a l Hl IH Ha]; intros [|n]; cbn;
    try constructor; auto.
  apply List.Forall_forall. intros x Hx.
  rewrite List.Forall_forall in Ha. apply Ha.
  clear -Hx. revert n Hx. induction l as [|b l IH]; intros [|n]; cbn;
    intuition eauto.
Qed.

Lemma _ensureLoaded_loaded fs st : isLoaded (snd (_ensureLoaded fs st)) = true.
Proof.
  unfold _ensureLoaded, _loadHistoryFromFile.
  destruct (isLoaded st) eqn:E; cbn; [exact E|].
  destruct (exists_reply fs) as [[]|]; try reflexivity.
  destruct (readFile_reply fs); reflexivity.
Qed.

Lemma _ensureLoaded_idle fs st :
  isLoaded st = true -> _ensureLoaded fs st = ([], st).
Proof. unfold _ensureLoaded. now intros ->. Qed.

Lemma _saveHistoryToFile_spec fs st :
  _saveHistoryToFile fs st = ([WriteFile (history st)], st).
Proof. unfold _saveHistoryToFile. now destruct (writeFile_reply fs). Qed.

(** X26.  [getHistory] returns the stored items newest first: the
    result is ordered by decreasing timestamp and is a prefix of the
    sorted history, the whole of it (a rearrangement of what is stored)
    without a count or with count 0, its first [count] items for a
    positive count, and all but the last [-count] for a negative one.
    The stored history is not changed, and a loaded service does not
    touch the file. *)
Theorem getHistory_newest_first (count : option Z) (fs : HistoryFs)
  (st : TranslationHistoryService) :
  let result := fst (fst (getHistory count fs st)) in
  let calls := snd (fst (getHistory count fs st)) in
  let st' := snd (getHistory count fs st) in
  StronglySorted not_older result
  /\ (exists n, result = firstn n (sort newest_first (history st')))
  /\ (count = None \/ count = Some 0 -> Permutation result (history st'))
  /\ (forall n, count = Some n -> 0 < n ->
        length result = Nat.min (Z.to_nat n) (length (history st')))
  /\ (forall n, count = Some n -> n < 0 ->
        length result = (length (history st') - Z.to_nat (- n))%nat)
  /\ st' = snd (_ensureLoaded fs st)
  /\ isLoaded st' = true
  /\ (isLoaded st = true -> st' = st /\ calls = []).
Proof.
  cbv zeta. unfold getHistory.
  pose proof (_ensureLoaded_loaded fs st) as Hl.
  pose proof (_ensureLoaded_idle fs st) as Hidle.
  destruct (_ensureLoaded fs st) as [calls st0]. cbn [fst snd] in *.
  pose proof (sort_sorted (history st0)) as Hs.
  pose proof (sort_Permutation newest_first (history st0)) as Hp.
  assert (Hlen : length (sort newest_first (history st0))
                 = length (history st0)) by now rewrite Hp.
  split; [|split; [|split; [|split; [|split; [|split; [reflexivity|split]]]]]].
  - destruct count as [n|]; [|exact Hs].
    destruct (negb (n =? 0)); [|exact Hs].
    unfold slice_0. destruct (n <? 0); now apply StronglySorted_firstn.
  - destruct count as [n|];
      [|exists (length (sort newest_first (history st0)));
        now rewrite List.firstn_all].
    destruct (negb (n =? 0));
      [|exists (length (sort newest_first (history st0)));
        now rewrite List.firstn_all].
    unfold slice_0. destruct (n <? 0); eauto.
  - intros [->| ->]; exact Hp.
  - intros n -> Hn. destruct (Z.eqb_spec n 0) as [->|_]; [lia|]. cbn [negb].
    unfold slice_0. destruct (Z.ltb_spec n 0); [lia|].
    now rewrite List.length_firstn, Hlen.
  - intros n -> Hn. destruct (Z.eqb_spec n 0) as [->|_]; [lia|]. cbn [negb].
    unfold slice_0. destruct (Z.ltb_spec n 0); [|lia].
    rewrite List.length_firstn, Hlen. lia.
  - exact Hl.
  - intros Hloaded. specialize (Hidle Hloaded). now inversion Hidle.
Qed.

(** X30.  The favourites are the favourites of the history: the result
    of [getFavorites] is the result of [getHistory] without a count,
    restricted to the items marked as favourite, in the same order;
    so it is ordered newest first and holds exactly the favourites
    that are stored. *)
Theorem getFavorites_filters_history (fs : HistoryFs)
  (st : TranslationHistoryService) :
  let favorites := fst (fst (getFavorites fs st)) in
  favorites = List.filter isFavorite (fst (fst (getHistory None fs st)))
  /\ StronglySorted not_older favorites
  /\ (forall item,
        In item favorites
        <-> In item (history (snd (getFavorites fs st)))
            /\ isFavorite item = true)
  /\ snd (getFavorites fs st) = snd (getHistory None fs st)
  /\ snd (fst (getFavorites fs st)) = snd (fst (getHistory None fs st)).
Proof.
  cbv zeta. unfold getFavorites, getHistory.
  destruct (_ensureLoaded fs st) as [calls st0]. cbn [fst snd].
  split; [now rewrite filter_sort|]. split; [apply sort_sorted|].
  split; [|split; reflexivity].
  intros item.
  pose proof (sort_Permutation newest_first
                (List.filter isFavorite (history st0))) as Hp.
  rewrite <- List.filter_In. split; intros Hin.
  - exact (Permutation_in _ Hp Hin).
  - exact (Permutation_in _ (Permutation_sym Hp) Hin).
Qed.

End History.

Section HistoryUpdates.
Import Js TranslationHistory.

Lemma lookup_In {A} (l : list A) i a : l !! i = Some a -> In a l.
Proof.
  revert i. induction l as [|b l IH]; intros [|i]; cbn; try discriminate.
  - intros [= ->]. now left.
  - intros H. right. eapply IH. exact H.
Qed.

Lemma findIndex_Some {A} (p : A -> bool) (l : list A) i :
  findIndex p l = Some i ->
  exists a, l !! i = Some a /\ p a = true
            /\ Forall (fun b => p b = false) (firstn i l).
Proof.
  revert i. induction l as [|b l IH]; intros i; cbn; [discriminate|].
  destruct (p b) eqn:E.
  - intros [= <-]. exists b. cbn. auto.
  - destruct (findIndex p l) as [j|]; [|discriminate].
    intros [= <-]. destruct (IH j eq_refl) as (a & Ha & Hp & Hbefore).
    exists a. cbn. auto.
Qed.

Lemma findIndex_None {A} (p : A -> bool) (l : list A) :
  findIndex p l = None <-> Forall (fun b => p b = false) l.
Proof.
  induction l as [|b l IH]; cbn; [split; [constructor|reflexivity]|].
  destruct (p b) eqn:E.
  - split; [discriminate|]. intros H. inversion H; congruence.
  - destruct (findIndex p l) as [j|]; cbn.
    + split; [discriminate|]. intros H. inversion H; subst.
      apply IH in H3. discriminate.
    + split; [|reflexivity]. intros _. constructor; [exact E|]. now apply IH.
Qed.

Lemma findIndex_alter {A} (p : A -> bool) (f : A -> A) (l : list A) i :
  (forall a, p (f a) = p a) ->
  findIndex p (alter f i l) = findIndex p l.
Proof.
  intros Hf. revert i. induction l as [|b l IH]; intros [|i]; cbn;
    try reflexivity.
  - now rewrite Hf.
  - now rewrite IH.
Qed.

Lemma has_id_In itemId (l : list TranslationHistoryItem) :
  Forall (fun b => String.eqb (id b) itemId = false) l
  <-> ~ In itemId (map id l).
Proof.
  rewrite List.Forall_forall, List.in_map_iff. split.
  - intros H (b & Hb & Hin). specialize (H b Hin).
    apply String.eqb_neq in H. contradiction.
  - intros H b Hin. apply String.eqb_neq. intros E. apply H. eauto.
Qed.

Lemma alter_insert {A} (f : A -> A) (l : list A) i a :
  l !! i = Some a -> alter f i l = <[i := f a]> l.
Proof.
  revert i. induction l as [|b l IH]; intros [|i] Hitem; cbn in *;
    try discriminate.
  - now inversion Hitem.
  - f_equal. now apply IH.
Qed.

Lemma alter_alter_restore {A} (f g : A -> A) (l : list A) i a :
  l !! i = Some a -> f (g a) = a -> alter f i (alter g i l) = l.
Proof.
  revert i. induction l as [|b l IH]; intros [|i] Hitem Hfg; cbn in *;
    try discriminate.
  - inversion Hitem; subst. now rewrite Hfg.
  - f_equal. now apply IH.
Qed.

Lemma filter_length_In {A} (p : A -> bool) (l : list A) a :
  length (List.filter p l) = length l -> In a l -> In a (List.filter p l).
Proof.
  induction l as [|b l IH]; intros E Hin; [destruct Hin|].
  cbn in *. pose proof (List.filter_length_le p l).
  destruct (p b); cbn in *; [|lia].
  destruct Hin as [->|Hin]; [now left|right]. apply IH; [lia|exact Hin].
Qed.

Lemma sublist_List_filter {A} (p : A -> bool) (l : list A) :
  sublist (List.filter p l) l.
Proof.
  induction l as [|b l IH]; cbn; [constructor|].
  destruct (p b); now constructor.
Qed.

Lemma toggle_twice item :
  set_isFavorite (negb (isFavorite (set_isFavorite (negb (isFavorite item)) item)))
    (set_isFavorite (negb (isFavorite item)) item) = item.
Proof. destruct item. cbn. now rewrite negb_involutive. Qed.

Lemma alter_map_id (f : TranslationHistoryItem -> TranslationHistoryItem)
  i (l : list TranslationHistoryItem) :
  (forall a, id (f a) = id a) -> map id (alter f i l) = map id l.
Proof.
  intros Hf. revert i. induction l as [|b l IH]; intros [|i]; cbn;
    try reflexivity.
  - now rewrite Hf.
  - now rewrite IH.
Qed.

Lemma toggleFavorite_eq itemId fs st :
  toggleFavorite itemId fs st
  = let st0 := snd (_ensureLoaded fs st) in
    let loading := fst (_ensureLoaded fs st) in
    match findIndex (fun item => String.eqb (id item) itemId) (history st0) with
    | Some itemIndex =>
        let history' :=
          alter (fun item => set_isFavorite (negb (isFavorite item)) item)
            itemIndex (history st0) in
        (history' !! itemIndex, loading ++ [WriteFile history'],
         {| history := history'; isLoaded := isLoaded st0 |})
    | None => (None, loading, st0)
    end.
Proof.
  unfold toggleFavorite. destruct (_ensureLoaded fs st) as [loading st0].
  cbn [fst snd].
  destruct (findIndex _ (history st0)); [|reflexivity].
  now rewrite _saveHistoryToFile_spec.
Qed.

Lemma deleteTranslation_eq itemId fs st :
  deleteTranslation itemId fs st
  = let st0 := snd (_ensureLoaded fs st) in
    let loading := fst (_ensureLoaded fs st) in
    let history' :=
      List.filter (fun item => negb (String.eqb (id item) itemId))
        (history st0) in
    (if Nat.ltb (length history') (length (history st0))
     then loading ++ [WriteFile history'] else loading,
     {| history := history'; isLoaded := isLoaded st0 |}).
Proof.
  unfold deleteTranslation. destruct (_ensureLoaded fs st) as [loading st0].
  cbn [fst snd history]. destruct (Nat.ltb _ _); [|reflexivity].
  now rewrite _saveHistoryToFile_spec.
Qed.

(** X27.  [toggleFavorite] flips the mark of the first item with the
    given id and of no other, writes the history, and returns the item
    as it is afterwards; toggling the same id again restores the stored
    history.  For an id that is not stored it returns nothing, changes
    nothing and writes nothing. *)
Theorem toggleFavorite_flips_one (itemId : string) (fs fs2 : HistoryFs)
  (st : TranslationHistoryService) :
  let st0 := snd (_ensureLoaded fs st) in
  let loading := fst (_ensureLoaded fs st) in
  let returned := fst (fst (toggleFavorite itemId fs st)) in
  let calls := snd (fst (toggleFavorite itemId fs st)) in
  let st1 := snd (toggleFavorite itemId fs st) in
  (~ In itemId (map id (history st0)) ->
   returned = None /\ st1 = st0 /\ calls = loading)
  /\ (In itemId (map id (history st0)) ->
      exists index item,
        history st0 !! index = Some item
        /\ id item = itemId
        /\ ~ In itemId (map id (firstn index (history st0)))
        /\ returned = Some (set_isFavorite (negb (isFavorite item)) item)
        /\ history st1
           = <[index := set_isFavorite (negb (isFavorite item)) item]>
               (history st0)
        /\ calls = loading ++ [WriteFile (history st1)]
        /\ history (snd (toggleFavorite itemId fs2 st1)) = history st0).
Proof.
  cbv zeta. rewrite (toggleFavorite_eq itemId fs st). cbv zeta.
  pose proof (_ensureLoaded_loaded fs st) as Hl.
  destruct (_ensureLoaded fs st) as [loading st0]. cbn [fst snd] in *.
  destruct (findIndex (fun item => String.eqb (id item) itemId) (history st0))
    as [index|] eqn:Hfind.
  - cbn [fst snd history].
    destruct (findIndex_Some _ _ _ Hfind) as (item & Hitem & Hid & Hbefore).
    apply String.eqb_eq in Hid. apply has_id_In in Hbefore.
    split.
    { intros Hnot. exfalso. apply Hnot. apply List.in_map_iff. exists item.
      split; [exact Hid|]. eapply lookup_In. exact Hitem. }
    intros _. exists index, item.
    assert (Halter :
      alter (fun item => set_isFavorite (negb (isFavorite item)) item) index
        (history st0)
      = <[index := set_isFavorite (negb (isFavorite item)) item]> (history st0)).
    { exact (alter_insert
               (fun item => set_isFavorite (negb (isFavorite item)) item)
               _ _ _ Hitem). }
    split; [exact Hitem|]. split; [exact Hid|]. split; [exact Hbefore|].
    split.
    { rewrite Halter. rewrite list_lookup_insert_eq; [reflexivity|].
      eapply lookup_lt_Some. exact Hitem. }
    split; [exact Halter|]. split; [reflexivity|].
    rewrite toggleFavorite_eq. cbv zeta.
    rewrite _ensureLoaded_idle by exact Hl. cbn [fst snd history].
    rewrite (findIndex_alter _
               (fun item => set_isFavorite (negb (isFavorite item)) item))
      by reflexivity.
    rewrite Hfind. cbn [snd history].
    apply (alter_alter_restore _ _ _ _ item Hitem). apply toggle_twice.
  - apply findIndex_None, has_id_In in Hfind.
    split; [auto|]. intros Hin. contradiction.
Qed.

(** X28.  [deleteTranslation] removes every item with the given id and
    no other, keeping the order of the rest; it writes the history
    exactly when something was removed; and deleting the same id again
    changes nothing and writes nothing. *)
Theorem deleteTranslation_removes_id (itemId : string) (fs fs2 : HistoryFs)
  (st : TranslationHistoryService) :
  let st0 := snd (_ensureLoaded fs st) in
  let loading := fst (_ensureLoaded fs st) in
  let calls := fst (deleteTranslation itemId fs st) in
  let st1 := snd (deleteTranslation itemId fs st) in
  (forall item,
     In item (history st1) <-> In item (history st0) /\ id item <> itemId)
  /\ sublist (history st1) (history st0)
  /\ (In itemId (map id (history st0)) ->
      calls = loading ++ [WriteFile (history st1)])
  /\ (~ In itemId (map id (history st0)) -> calls = loading /\ st1 = st0)
  /\ deleteTranslation itemId fs2 st1 = ([], st1).
Proof.
  cbv zeta. rewrite (deleteTranslation_eq itemId fs st). cbv zeta.
  pose proof (_ensureLoaded_loaded fs st) as Hl.
  destruct (_ensureLoaded fs st) as [loading st0]. cbn [fst snd history] in *.
  set (keep := fun item => negb (String.eqb (id item) itemId)).
  assert (Hkeep : forall item, keep item = true <-> id item <> itemId).
  { intros item. unfold keep. rewrite negb_true_iff. apply String.eqb_neq. }
  assert (Hlen : (length (List.filter keep (history st0))
                  <= length (history st0))%nat) by apply List.filter_length_le.
  assert (Hall : ~ In itemId (map id (history st0)) ->
                 List.filter keep (history st0) = history st0).
  { intros Hnot. apply List.forallb_filter_id. apply List.forallb_forall.
    intros item Hin. apply Hkeep. intros E. apply Hnot.
    apply List.in_map_iff. eauto. }
  assert (Hsome : In itemId (map id (history st0)) ->
                  (length (List.filter keep (history st0))
                   < length (history st0))%nat).
  { intros Hin. apply List.in_map_iff in Hin as (item & Hid & Hin).
    destruct (Nat.eq_dec (length (List.filter keep (history st0)))
                (length (history st0))) as [E|]; [|lia].
    exfalso.
    assert (Hf : In item (List.filter keep (history st0))).
    { now apply filter_length_In. }
    apply List.filter_In in Hf as [_ Hf]. apply Hkeep in Hf. contradiction. }
  assert (Hagain :
    deleteTranslation itemId fs2
      {| history := List.filter keep (history st0); isLoaded := isLoaded st0 |}
    = ([], {| history := List.filter keep (history st0);
              isLoaded := isLoaded st0 |})).
  { rewrite deleteTranslation_eq. cbv zeta.
    rewrite _ensureLoaded_idle by exact Hl.
    cbn [fst snd history isLoaded]. fold keep.
    assert (Hidem : List.filter keep (List.filter keep (history st0))
                    = List.filter keep (history st0)).
    { apply List.forallb_filter_id. apply List.forallb_forall.
      intros item Hin. now apply List.filter_In in Hin. }
    rewrite Hidem. rewrite Nat.ltb_irrefl. reflexivity. }
  destruct (Nat.ltb_spec (length (List.filter keep (history st0)))
              (length (history st0))) as [Hlt|Hge].
  - cbn [fst snd history].
    split; [|split; [|split; [|split]]].
    + intros item. rewrite List.filter_In. now rewrite Hkeep.
    + apply sublist_List_filter.
    + reflexivity.
    + intros Hnot. rewrite (Hall Hnot) in Hlt. lia.
    + exact Hagain.
  - cbn [fst snd history].
    assert (Hnot : ~ In itemId (map id (history st0))).
    { intros Hin. specialize (Hsome Hin). lia. }
    split; [|split; [|split; [|split]]].
    + intros item. rewrite List.filter_In. now rewrite Hkeep.
    + apply sublist_List_filter.
    + intros Hin. contradiction.
    + intros _. split; [reflexivity|]. rewrite (Hall Hnot). now destruct st0.
    + exact Hagain.
Qed.

(** X29.  [addTranslation] puts the new item in front.  The item
    returned carries the given details, the new id, the time of the
    call and no favourite mark; the stored history is the item followed
    by what was stored, and this is what is written, whether or not the
    write succeeds.  If no stored item is more recent, [getHistory]
    then returns the item first, before what it returned so far; the
    favourites are unchanged; and toggling the new id marks this very
    item. *)
Theorem addTranslation_puts_item_first (itemDetails : ItemDetails)
  (newId : string) (now : Z) (fs fs2 : HistoryFs)
  (st : TranslationHistoryService) :
  let st0 := snd (_ensureLoaded fs st) in
  let loading := fst (_ensureLoaded fs st) in
  let newItem := fst (fst (addTranslation itemDetails newId now fs st)) in
  let calls := snd (fst (addTranslation itemDetails newId now fs st)) in
  let st1 := snd (addTranslation itemDetails newId now fs st) in
  id newItem = newId
  /\ timestamp newItem = now
  /\ isFavorite newItem = false
  /\ originalText newItem = d_originalText itemDetails
  /\ translatedText newItem = d_translatedText itemDetails
  /\ history st1 = newItem :: history st0
  /\ calls = loading ++ [WriteFile (newItem :: history st0)]
  /\ (Forall (fun item => timestamp item <= now) (history st0) ->
      fst (fst (getHistory None fs2 st1))
      = newItem :: fst (fst (getHistory None fs2 st0)))
  /\ fst (fst (getFavorites fs2 st1)) = fst (fst (getFavorites fs2 st0))
  /\ fst (fst (toggleFavorite newId fs2 st1))
     = Some (set_isFavorite true newItem).
Proof.
  cbv zeta.
  assert (Heq : addTranslation itemDetails newId now fs st
    = let st0 := snd (_ensureLoaded fs st) in
      let newItem :=
        {| id := newId;
           originalText := d_originalText itemDetails;
           translatedText := d_translatedText itemDetails;
           sourceLanguage := d_sourceLanguage itemDetails;
           targetLanguage := d_targetLanguage itemDetails;
           timestamp := now;
           isFavorite := false;
           modelId := d_modelId itemDetails;
           translationConfidence := d_translationConfidence itemDetails;
           detectionConfidence := d_detectionConfidence itemDetails;
           qualityFeedback := d_qualityFeedback itemDetails |} in
      (newItem,
       fst (_ensureLoaded fs st) ++ [WriteFile (newItem :: history st0)],
       {| history := newItem :: history st0; isLoaded := isLoaded st0 |})).
  { unfold addTranslation. destruct (_ensureLoaded fs st) as [loading st0].
    now rewrite _saveHistoryToFile_spec. }
  rewrite Heq. clear Heq. cbv zeta.
  pose proof (_ensureLoaded_loaded fs st) as Hl.
  destruct (_ensureLoaded fs st) as [loading st0]. cbn [fst snd] in *.
  cbn [fst snd history id timestamp isFavorite originalText translatedText].
  repeat (split; [reflexivity|]).
  set (newItem := {| id := newId; timestamp := now |}).
  split; [|split].
  - intros Hrecent. unfold getHistory.
    rewrite !_ensureLoaded_idle by exact Hl. cbn [fst snd history].
    change (sort newest_first (newItem :: history st0))
      with (sort_insert newest_first newItem (sort newest_first (history st0))).
    apply sort_insert_front. apply Forall_sort.
    eapply List.Forall_impl; [|exact Hrecent]. intros item Hi. exact Hi.
  - unfold getFavorites.
    rewrite !_ensureLoaded_idle by exact Hl. reflexivity.
  - rewrite toggleFavorite_eq. cbv zeta.
    rewrite _ensureLoaded_idle by exact Hl.
    cbn [fst snd history findIndex id newItem].
    rewrite String.eqb_refl. reflexivity.
Qed.

End HistoryUpdates.
